(** * caib: the command-line client of the automotive image build API

    A shallow embedding of [cmd/caib/main.go]: manifest preprocessing
    ([findLocalFileReferences]), the build command ([runBuild]) with its
    readiness wait, upload retry loop and lifecycle monitor, the artifact
    retriever ([downloadArtifactViaAPI]), the download command
    ([runDownload]), the list command ([runList]) and the token lookup
    ([loadTokenFromKubeconfig]).

    Conventions.
    - Go strings are [string], a sequence of bytes holding UTF-8.
      [strings.TrimSpace] and [strings.Fields] take off the white space of
      [unicode.IsSpace], the blanks of one, two and three bytes alike.
      [strings.ToLower] is computed on text of the seven-bit range; what it
      makes of other text is the field [unicode_ToLower] of [Env].
    - Paths follow the Unix build of the client: [filepath.IsAbs] is "starts
      with a slash".
    - Time is a millisecond clock of type [Z]; a remote call lasts as long as
      the environment says (an [N]), a sleep lasts exactly its argument, and
      local computation takes no time. A context with a timeout is done from
      its deadline on; [time.Now().After(d)] is "the clock is past [d]". The
      build timeout is the 64-bit product [time.Duration(timeout) *
      time.Minute], in nanoseconds and with its wrap-around.
    - Everything the program does not own (YAML parser, API client, HTTP
      server, enumeration parsers of [internal/buildapi], what client-go
      loads of the kubeconfig, tar decoder, [filepath.Join],
      [url.PathEscape]) is a field of the record [Env]. Repeated remote calls
      are told apart by a counter kept in the state.
    - The file system maps a path, taken as written, to a file or a
      directory. [os.Create] and [os.MkdirAll] fail where the node at the
      path makes them fail; what else makes them fail (a parent that is
      missing or is a file, permissions) is not seen in that map and is the
      field [os_refuses] of [Env]. The progress bar is not drawn.
    - What the program prints and every call it makes is an event of the
      trace a run returns, in order.
    - [os.Exit] is an outcome of the monad [M]; loops take fuel and report
      [OutOfFuel] when it runs out. *)

From stdpp Require Import gmap strings list.
From Stdlib Require Import ZArith Ascii DecimalString Lia.

Set Warnings "-register-all".
Local Open Scope Z_scope.

(** ** Go's [strings] package, the part the client uses *)

Fixpoint strings_HasPrefix (s prefix : string) : bool :=
  match prefix with
  | EmptyString => true
  | String a p' =>
      match s with
      | EmptyString => false
      | String b s' => if Ascii.eqb a b then strings_HasPrefix s' p' else false
      end
  end.

Fixpoint strings_Contains (s substr : string) : bool :=
  if strings_HasPrefix s substr then true
  else match s with
       | EmptyString => false
       | String _ s' => strings_Contains s' substr
       end.

Definition strings_HasSuffix (s suffix : string) : bool :=
  strings_HasPrefix (String.rev s) (String.rev suffix).

(** [strings.Index]: position of the first occurrence, [-1] when absent. *)
Fixpoint strings_Index (s substr : string) : Z :=
  if strings_HasPrefix s substr then 0
  else match s with
       | EmptyString => -1
       | String _ s' =>
           let i := strings_Index s' substr in
           if i <? 0 then -1 else i + 1
       end.

Definition lower_ascii (c : ascii) : ascii :=
  let n := N_of_ascii c in
  if ((65 <=? n) && (n <=? 90))%N then ascii_of_N (n + 32) else c.

(** The fast path of [strings.ToLower], taken on text of the seven-bit
    range: the letters A to Z are lowered, byte by byte. *)
Fixpoint lower_bytes (s : string) : string :=
  match s with
  | EmptyString => EmptyString
  | String c s' => String (lower_ascii c) (lower_bytes s')
  end.

(** Text of the seven-bit range. *)
Fixpoint is_ascii (s : string) : bool :=
  match s with
  | EmptyString => true
  | String c s' => (N_of_ascii c <? 128)%N && is_ascii s'
  end.

Fixpoint trim_left (f : ascii -> bool) (s : string) : string :=
  match s with
  | EmptyString => EmptyString
  | String c s' => if f c then trim_left f s' else s
  end.

Definition trim_right (f : ascii -> bool) (s : string) : string :=
  String.rev (trim_left f (String.rev s)).

(** White space as [unicode.IsSpace] knows it, in UTF-8. One byte: the six
    ASCII blanks. Two bytes: U+0085 and U+00A0. Three bytes: U+1680, U+2000 to
    U+200A, U+2028, U+2029, U+202F, U+205F and U+3000. *)
Definition space2 (a b : ascii) : bool :=
  ((N_of_ascii a =? 194) && ((N_of_ascii b =? 133) || (N_of_ascii b =? 160)))%N.

Definition space3 (a b c : ascii) : bool :=
  let x := N_of_ascii a in
  let y := N_of_ascii b in
  let z := N_of_ascii c in
  ((x =? 225) && (y =? 154) && (z =? 128)
   || (x =? 226) && (y =? 128)
      && ((128 <=? z) && (z <=? 138) || (z =? 168) || (z =? 169) || (z =? 175))
   || (x =? 226) && (y =? 129) && (z =? 159)
   || (x =? 227) && (y =? 128) && (z =? 128))%N.

(** Strip from the start of [s] every run of one, two or three bytes that
    the tests take. A byte that starts a blank of several bytes is no
    continuation byte, so a run found here is a rune of its own for Go's
    decoder as well. *)
Fixpoint trim_runs (t1 : ascii -> bool) (t2 : ascii -> ascii -> bool)
    (t3 : ascii -> ascii -> ascii -> bool) (s : string) : string :=
  match s with
  | EmptyString => s
  | String a s1 =>
      if t1 a then trim_runs t1 t2 t3 s1
      else
        match s1 with
        | EmptyString => s
        | String b s2 =>
            if t2 a b then trim_runs t1 t2 t3 s2
            else
              match s2 with
              | EmptyString => s
              | String c s3 => if t3 a b c then trim_runs t1 t2 t3 s3 else s
              end
        end
  end.

Definition trim_space_left (s : string) : string :=
  trim_runs Ascii.is_space space2 space3 s.

(** From the end: the same on the reversed text, with the bytes of a blank in
    reverse. *)
Definition trim_space_right (s : string) : string :=
  String.rev (trim_runs Ascii.is_space (fun a b => space2 b a) (fun a b c => space3 c b a)
                        (String.rev s)).

(** [strings.TrimSpace]: the white space of Unicode is cut off at both ends;
    a byte that is no part of a well-formed encoding is no white space. *)
Definition strings_TrimSpace (s : string) : string :=
  trim_space_right (trim_space_left s).

Fixpoint in_cutset (cutset : string) (c : ascii) : bool :=
  match cutset with
  | EmptyString => false
  | String d cutset' => if Ascii.eqb c d then true else in_cutset cutset' c
  end.

Definition strings_TrimRight (s cutset : string) : string :=
  trim_right (in_cutset cutset) s.

Definition strings_Trim (s cutset : string) : string :=
  trim_right (in_cutset cutset) (trim_left (in_cutset cutset) s).

Definition strings_TrimSuffix (s suffix : string) : string :=
  if strings_HasSuffix s suffix
  then String.substring 0 (String.length s - String.length suffix) s
  else s.

(** [strings.Fields]: the maximal runs of bytes between the white space of
    Unicode. [cur] is the field read so far, in reverse. *)
Fixpoint fields_go (s cur : string) (acc : list string) : list string :=
  let flushed := match cur with EmptyString => acc | _ => acc ++ [String.rev cur] end in
  match s with
  | EmptyString => flushed
  | String a s1 =>
      if Ascii.is_space a then fields_go s1 EmptyString flushed
      else
        let kept := fields_go s1 (String a cur) acc in
        match s1 with
        | EmptyString => kept
        | String b s2 =>
            if space2 a b then fields_go s2 EmptyString flushed
            else
              match s2 with
              | EmptyString => kept
              | String c s3 =>
                  if space3 a b c then fields_go s3 EmptyString flushed else kept
              end
        end
  end.

Definition strings_Fields (s : string) : list string :=
  fields_go s EmptyString [].

(** The suffix [s[i:]] of a Go string. *)
Definition slice_from (s : string) (i : Z) : string :=
  String.substring (Z.to_nat i) (String.length s - Z.to_nat i) s.

(** [%d] of [fmt]. *)
Definition fmt_d (n : Z) : string := NilZero.string_of_int (Z.to_int n).

Definition filepath_IsAbs (path : string) : bool := strings_HasPrefix path "/".

(** ** Results and errors *)

Inductive result (E A : Type) : Type :=
| Ok (a : A)
| Err (e : E).
Arguments Ok {E A} a.
Arguments Err {E A} e.

(** The three errors of [isPathSafe]. *)
Inductive PathError : Type :=
| ErrEmptyOrRoot
| ErrTraversal (path : string)
| ErrAbsoluteOutside (path : string).

(** The errors of [findLocalFileReferences]: the parser's, or a path error. *)
Inductive ManifestError : Type :=
| ErrYAML (msg : string)
| ErrPath (e : PathError).

Definition PathError_Error (e : PathError) : string :=
  match e with
  | ErrEmptyOrRoot => "empty or root path is not allowed"
  | ErrTraversal path => "directory traversal detected in path: " +:+ path
  | ErrAbsoluteOutside path => "absolute path outside safe directories: " +:+ path
  end.

Definition ManifestError_Error (e : ManifestError) : string :=
  match e with
  | ErrYAML msg => "failed to parse manifest YAML: " +:+ msg
  | ErrPath e => PathError_Error e
  end.

Definition is_validation_error (e : ManifestError) : bool :=
  match e with ErrPath _ => true | ErrYAML _ => false end.

(** ** The generic document tree ([any], [map[string]any], [[]any]) *)

Inductive any : Type :=
| ANil
| ABool (b : bool)
| AInt (n : Z)
| AString (s : string)
| ASlice (l : list any)
| AMap (m : gmap string any)
| AOther (tag : string).

(** The type assertions [v.(string)], [v.(map[string]any)], [v.([]any)] on
    the result of a map index; an absent key indexes to [nil], on which every
    assertion fails. *)
Definition assert_string (v : option any) : option string :=
  match v with Some (AString s) => Some s | _ => None end.

Definition assert_map (v : option any) : option (gmap string any) :=
  match v with Some (AMap m) => Some m | _ => None end.

Definition assert_slice (v : option any) : option (list any) :=
  match v with Some (ASlice l) => Some l | _ => None end.

(** Indexing a [map[string]string]: the zero value when the key is absent. *)
Definition index_str (m : gmap string string) (k : string) : string :=
  default EmptyString (m !! k).

(** ** Manifest preprocessing: [findLocalFileReferences] *)

(** The allow-list of [isPathSafe], empty in the source. *)
Definition safeDirectories : list string := [].

Fixpoint isInSafeDir (path : string) (dirs : list string) : bool :=
  match dirs with
  | [] => false
  | dir :: dirs' =>
      if strings_HasPrefix path (dir +:+ "/") then true
      else isInSafeDir path dirs'
  end.

(** [isPathSafe] over an allow-list; [None] is Go's [nil] error. *)
Definition isPathSafeIn (dirs : list string) (path : string) : option PathError :=
  if bool_decide (path = "") || bool_decide (path = "/") then Some ErrEmptyOrRoot
  else if strings_Contains path ".." then Some (ErrTraversal path)
  else if filepath_IsAbs path then
    if isInSafeDir path dirs then None else Some (ErrAbsoluteOutside path)
  else None.

Definition isPathSafe (path : string) : option PathError :=
  isPathSafeIn safeDirectories path.

(** One element of the result: [{"path": path, "source_path": sourcePath}]. *)
Definition mkRef (path sourcePath : string) : gmap string string :=
  <["source_path" := sourcePath]> (<["path" := path]> ∅).

(** [processAddFiles], with the captured slice [localFiles] threaded through. *)
Fixpoint processAddFiles (addFiles : list any) (localFiles : list (gmap string string))
  : result PathError (list (gmap string string)) :=
  match addFiles with
  | [] => Ok localFiles
  | file :: rest =>
      match file with
      | AMap fileMap =>
          match assert_string (fileMap !! "path"),
                assert_string (fileMap !! "source_path") with
          | Some path, Some sourcePath =>
              match isPathSafe sourcePath with
              | Some err => Err err
              | None => processAddFiles rest (localFiles ++ [mkRef path sourcePath])
              end
          | _, _ => processAddFiles rest localFiles
          end
      | _ => processAddFiles rest localFiles
      end
  end.

(** [manifestData["content"]["add_files"]] when both assertions succeed. *)
Definition contentAddFiles (manifestData : gmap string any) : option (list any) :=
  match assert_map (manifestData !! "content") with
  | Some content => assert_slice (content !! "add_files")
  | None => None
  end.

(** [manifestData["qm"]["content"]["add_files"]] likewise. *)
Definition qmAddFiles (manifestData : gmap string any) : option (list any) :=
  match assert_map (manifestData !! "qm") with
  | Some qm =>
      match assert_map (qm !! "content") with
      | Some qmContent => assert_slice (qmContent !! "add_files")
      | None => None
      end
  | None => None
  end.

(** The walk of [findLocalFileReferences] over the parsed document. *)
Definition findInTree (manifestData : gmap string any)
  : result ManifestError (list (gmap string string)) :=
  let step (addFiles : option (list any)) (localFiles : list (gmap string string)) :=
    match addFiles with
    | Some l => processAddFiles l localFiles
    | None => Ok localFiles
    end in
  match step (contentAddFiles manifestData) [] with
  | Err e => Err (ErrPath e)
  | Ok localFiles =>
      match step (qmAddFiles manifestData) localFiles with
      | Err e => Err (ErrPath e)
      | Ok localFiles' => Ok localFiles'
      end
  end.

(** ** Records of the build API ([internal/buildapi]) *)

Record BuildRequest : Type := mkBuildRequest {
  req_Name : string;
  req_Manifest : string;
  req_ManifestFileName : string;
  req_Distro : string;
  req_Target : string;
  req_Architecture : string;
  req_ExportFormat : string;
  req_Mode : string;
  req_AutomotiveImageBuilder : string;
  req_StorageClass : string;
  req_CustomDefs : list string;
  req_AIBExtraArgs : list string;
  req_AIBOverrideArgs : list string;
  req_ServeArtifact : bool;
  req_Compression : string
}.

(** What [CreateBuild] and [GetBuild] return. *)
Record BuildResponse : Type := mkBuildResponse {
  Name : string;
  Phase : string;
  Message : string
}.

Record Upload : Type := mkUpload {
  SourcePath : string;
  DestPath : string
}.

(** An HTTP response: status, headers, and the body as the bytes the stream
    delivers followed by end of file ([None]) or a read error. *)
Record Response : Type := mkResponse {
  StatusCode : Z;
  Header : gmap string string;
  Body : string;
  BodyErr : option string
}.

Definition Header_Get (h : gmap string string) (key : string) : string :=
  default EmptyString (h !! key).

(** ** The command-line flags (the package-level variables) *)

Record Flags : Type := mkFlags {
  serverURL : string;
  manifest : string;
  buildName : string;
  distro : string;
  target : string;
  architecture : string;
  exportFormat : string;
  mode : string;
  automotiveImageBuilder : string;
  storageClass : string;
  outputDir : string;
  timeout : Z;
  waitForBuild : bool;
  download : bool;
  customDefs : list string;
  aibExtraArgs : string;
  aibOverrideArgs : string;
  compressArtifacts : bool;
  compressionAlgo : string
}.

(** ** The local file system *)

Inductive Node : Type :=
| File (data : string)
| Dir.

(** ** The kubeconfig, as [loadTokenFromKubeconfig] reads it *)

Record RestConfig : Type := mkRestConfig {
  BearerToken : string;
  BearerTokenFile : string
}.

(** [AuthProviderConfig] is absent when the provider or its configuration
    is [nil]. *)
Record AuthInfo : Type := mkAuthInfo {
  Token : string;
  AuthProviderConfig : option (gmap string string)
}.

(** [Contexts] maps the name of a context to the name of its auth info. *)
Record KubeConfig : Type := mkKubeConfig {
  CurrentContext : string;
  Contexts : gmap string string;
  AuthInfos : gmap string AuthInfo
}.

(** ** What the client does not own *)

Record Env : Type := mkEnv {
  yaml_Unmarshal : string -> result string (gmap string any);
  filepath_Base : string -> string;
  filepath_Join : string -> string -> string;
  url_PathEscape : string -> string;
  ParseDistro : string -> result string string;
  ParseTarget : string -> result string string;
  ParseArchitecture : string -> result string string;
  ParseExportFormat : string -> result string string;
  ParseMode : string -> result string string;
  (** client-go: the client configuration built from the kubeconfig (absent
      when it cannot be built) and the raw kubeconfig (or the loading error) *)
  kube_ClientConfig : option RestConfig;
  kube_Load : result string KubeConfig;
  (** the output of [oc whoami -t], absent when [oc] is not installed or the
      command fails *)
  oc_whoami : option string;
  buildapiclient_New : string -> option string;
  (** the remote side: how long a call lasts and what it answers; repeated
      calls are told apart by their number *)
  remote_CreateBuild : BuildRequest -> N * result string BuildResponse;
  remote_GetBuild : nat -> string -> N * result string BuildResponse;
  remote_UploadFiles : nat -> string -> list Upload -> N * option string;
  remote_Logs : nat -> string -> N * result string Response;
  remote_Artifact : nat -> string -> N * result string Response;
  (** Go's [select] with both channels ready: [true] takes the tick *)
  select_tick : nat -> bool;
  (** [extractTar]: the archive decoder's effect on the file system *)
  tar_extract : string -> string -> gmap string Node -> result string (gmap string Node);
  (** [strings.ToLower] on text that is not of the seven-bit range: the case
      tables of Unicode *)
  unicode_ToLower : string -> string;
  (** what the operating system refuses for a reason the map of files does
      not show (a parent that is missing or no directory, permissions, a
      full disk), for the call [open] or [mkdir] on a path; the text is that
      of the error *)
  os_refuses : string -> string -> gmap string Node -> option string
}.

(** [strings.ToLower]: the fast path on text of the seven-bit range, the
    tables of Unicode on any other. *)
Definition strings_ToLower (env : Env) (s : string) : string :=
  if is_ascii s then lower_bytes s else unicode_ToLower env s.

(** ** The state of one invocation *)

Record World : Type := mkWorld {
  clock : Z;
  fs : gmap string Node;
  authToken : string;
  followLogs : bool;
  statusCalls : nat;
  uploadCalls : nat;
  logCalls : nat;
  artifactCalls : nat;
  selects : nat
}.

Inductive Event : Type :=
| EvPrint (text : string)
| EvSleep (ms : Z)
| EvKubeconfig
| EvCreateBuild (req : BuildRequest) (r : result string BuildResponse)
| EvGetBuild (name : string) (r : result string BuildResponse)
| EvUploadFiles (name : string) (uploads : list Upload) (r : option string)
| EvGetLogs (url token : string) (r : result string Response)
| EvGetArtifact (url token : string) (r : result string Response).

(** The events that talk to the build API. *)
Definition is_api_call (e : Event) : bool :=
  match e with
  | EvCreateBuild _ _ | EvGetBuild _ _ | EvUploadFiles _ _ _
  | EvGetLogs _ _ _ | EvGetArtifact _ _ _ => true
  | _ => false
  end.

Definition is_upload (e : Event) : bool :=
  match e with EvUploadFiles _ _ _ => true | _ => false end.


(** ** The monad: events written, state threaded, [os.Exit] and fuel *)

Inductive Outcome (A : Type) : Type :=
| Ret (a : A)
| Exit (code : Z)
| OutOfFuel.
Arguments Ret {A} a.
Arguments Exit {A} code.
Arguments OutOfFuel {A}.

Definition M (A : Type) : Type := World -> list Event * World * Outcome A.

Definition ret {A} (a : A) : M A := fun w => ([], w, Ret a).

Definition bind {A B} (m : M A) (k : A -> M B) : M B := fun w =>
  match m w with
  | (e1, w1, Ret a) =>
      match k a w1 with
      | (e2, w2, o) => (e1 ++ e2, w2, o)
      end
  | (e1, w1, Exit code) => (e1, w1, Exit code)
  | (e1, w1, OutOfFuel) => (e1, w1, OutOfFuel)
  end.

#[global] Instance M_ret : MRet M := @ret.
#[global] Instance M_bind : MBind M := fun A B k m => bind m k.

Definition emit (e : Event) : M unit := fun w => ([e], w, Ret tt).
Definition os_Exit {A} (code : Z) : M A := fun w => ([], w, Exit code).
Definition out_of_fuel {A} : M A := fun w => ([], w, OutOfFuel).
Definition get_world : M World := fun w => ([], w, Ret w).
Definition modify (f : World -> World) : M unit := fun w => ([], f w, Ret tt).

Definition events {A} (r : list Event * World * Outcome A) : list Event := r.1.1.
Definition final {A} (r : list Event * World * Outcome A) : World := r.1.2.
Definition outcome {A} (r : list Event * World * Outcome A) : Outcome A := r.2.

(** The exit status of the process: a command that returns makes [main]
    return, which is status zero. *)
Definition exit_status {A} (o : Outcome A) : option Z :=
  match o with
  | Ret _ => Some 0
  | Exit code => Some code
  | OutOfFuel => None
  end.

(** ** Primitive actions *)

Definition nl : string := String "010"%char EmptyString.
Definition dquote : string := String "034"%char EmptyString.
(** The seven bytes the log-follow warning ends with in the source. *)
Definition ellipsis : string :=
  String "195"%char (String "162"%char (String "226"%char (String "130"%char
    (String "172"%char (String "194"%char (String "166"%char EmptyString)))))).

Definition set_clock (t : Z) (w : World) : World :=
  mkWorld t (fs w) (authToken w) (followLogs w)
          (statusCalls w) (uploadCalls w) (logCalls w) (artifactCalls w) (selects w).
Definition set_fs (f : gmap string Node) (w : World) : World :=
  mkWorld (clock w) f (authToken w) (followLogs w)
          (statusCalls w) (uploadCalls w) (logCalls w) (artifactCalls w) (selects w).
Definition set_authToken (tok : string) (w : World) : World :=
  mkWorld (clock w) (fs w) tok (followLogs w)
          (statusCalls w) (uploadCalls w) (logCalls w) (artifactCalls w) (selects w).
Definition set_followLogs (b : bool) (w : World) : World :=
  mkWorld (clock w) (fs w) (authToken w) b
          (statusCalls w) (uploadCalls w) (logCalls w) (artifactCalls w) (selects w).
Definition next_status (w : World) : World :=
  mkWorld (clock w) (fs w) (authToken w) (followLogs w)
          (S (statusCalls w)) (uploadCalls w) (logCalls w) (artifactCalls w) (selects w).
Definition next_upload (w : World) : World :=
  mkWorld (clock w) (fs w) (authToken w) (followLogs w)
          (statusCalls w) (S (uploadCalls w)) (logCalls w) (artifactCalls w) (selects w).
Definition next_log (w : World) : World :=
  mkWorld (clock w) (fs w) (authToken w) (followLogs w)
          (statusCalls w) (uploadCalls w) (S (logCalls w)) (artifactCalls w) (selects w).
Definition next_artifact (w : World) : World :=
  mkWorld (clock w) (fs w) (authToken w) (followLogs w)
          (statusCalls w) (uploadCalls w) (logCalls w) (S (artifactCalls w)) (selects w).
Definition next_select (w : World) : World :=
  mkWorld (clock w) (fs w) (authToken w) (followLogs w)
          (statusCalls w) (uploadCalls w) (logCalls w) (artifactCalls w) (S (selects w)).
Definition advance (d : Z) (w : World) : World := set_clock (clock w + d) w.

Definition print (text : string) : M unit := emit (EvPrint text).
Definition println (text : string) : M unit := emit (EvPrint (text +:+ nl)).

Definition time_Sleep (ms : Z) : M unit := fun w =>
  ([EvSleep ms], advance ms w, Ret tt).

(** [handleError]: print the error, leave with status 1. *)
Definition handleError {A} (err : string) : M A :=
  print ("Error: " +:+ err +:+ nl);; os_Exit 1.

(** [if err != nil { handleError(err) }] on a call that returns a value. *)
Definition or_die {A} (r : result string A) : M A :=
  match r with
  | Ok a => mret a
  | Err e => handleError e
  end.

(** A call made under a context that expires after [limit] milliseconds. *)
Definition within {A} (limit : Z) (call : N * result string A) : Z * result string A :=
  if limit <? Z.of_N call.1
  then (limit, Err "context deadline exceeded")
  else (Z.of_N call.1, call.2).

Definition api_CreateBuild (env : Env) (req : BuildRequest)
  : M (result string BuildResponse) := fun w =>
  let call := remote_CreateBuild env req in
  ([EvCreateBuild req call.2], advance (Z.of_N call.1) w, Ret call.2).

(** [limit] is the timeout of the request context, when it has one. *)
Definition api_GetBuild (env : Env) (limit : option Z) (name : string)
  : M (result string BuildResponse) := fun w =>
  let answer := remote_GetBuild env (statusCalls w) name in
  let call := match limit with
              | Some ms => within ms answer
              | None => (Z.of_N answer.1, answer.2)
              end in
  ([EvGetBuild name call.2], next_status (advance call.1 w), Ret call.2).

Definition api_UploadFiles (env : Env) (name : string) (uploads : list Upload)
  : M (option string) := fun w =>
  let call := remote_UploadFiles env (uploadCalls w) name uploads in
  ([EvUploadFiles name uploads call.2], next_upload (advance (Z.of_N call.1) w), Ret call.2).

(** The bearer token a request carries: the trimmed global, empty for none. *)
Definition bearer (w : World) : string := strings_TrimSpace (authToken w).

Definition http_GetLogs (env : Env) (limit : Z) (url : string)
  : M (result string Response) := fun w =>
  let call := within limit (remote_Logs env (logCalls w) url) in
  ([EvGetLogs url (bearer w) call.2], next_log (advance call.1 w), Ret call.2).

Definition http_GetArtifact (env : Env) (limit : Z) (url : string)
  : M (result string Response) := fun w =>
  let call := within limit (remote_Artifact env (artifactCalls w) url) in
  ([EvGetArtifact url (bearer w) call.2], next_artifact (advance call.1 w), Ret call.2).

(** *** The [os] calls, on a file system that maps a path to its node *)

Definition os_ReadFile (path : string) : M (result string string) := fun w =>
  ([], w, Ret match fs w !! path with
              | Some (File data) => Ok data
              | Some Dir => Err ("read " +:+ path +:+ ": is a directory")
              | None => Err ("open " +:+ path +:+ ": no such file or directory")
              end).

Definition os_Stat (path : string) : M (option string) := fun w =>
  ([], w, Ret match fs w !! path with
              | Some _ => None
              | None => Some ("stat " +:+ path +:+ ": no such file or directory")
              end).

(** [os.MkdirAll]: nothing to do on a directory, an error on a file; a path
    that does not exist is made, unless the system refuses. *)
Definition os_MkdirAll (env : Env) (path : string) : M (option string) := fun w =>
  match fs w !! path with
  | Some (File _) => ([], w, Ret (Some ("mkdir " +:+ path +:+ ": not a directory")))
  | Some Dir => ([], set_fs (<[path := Dir]> (fs w)) w, Ret None)
  | None =>
      match os_refuses env "mkdir" path (fs w) with
      | Some err => ([], w, Ret (Some err))
      | None => ([], set_fs (<[path := Dir]> (fs w)) w, Ret None)
      end
  end.

(** [os.Create]: an error on a directory; a file is made or emptied, unless
    the system refuses. *)
Definition os_Create (env : Env) (path : string) : M (option string) := fun w =>
  match fs w !! path with
  | Some Dir => ([], w, Ret (Some ("open " +:+ path +:+ ": is a directory")))
  | _ =>
      match os_refuses env "open" path (fs w) with
      | Some err => ([], w, Ret (Some err))
      | None => ([], set_fs (<[path := File EmptyString]> (fs w)) w, Ret None)
      end
  end.

(** [io.Copy] into the open file: whatever arrived is in the file. *)
Definition file_Write (path data : string) : M unit :=
  modify (fun w => set_fs (<[path := File data]> (fs w)) w).

Definition os_Remove (path : string) : M (option string) := fun w =>
  match fs w !! path with
  | Some (File _) => ([], set_fs (delete path (fs w)) w, Ret None)
  | Some Dir => ([], w, Ret (Some ("remove " +:+ path +:+ ": directory not empty")))
  | None => ([], w, Ret (Some ("remove " +:+ path +:+ ": no such file or directory")))
  end.

Definition os_Rename (oldpath newpath : string) : M (option string) := fun w =>
  match fs w !! oldpath with
  | Some (File data) =>
      match fs w !! newpath with
      | Some Dir =>
          ([], w, Ret (Some ("rename " +:+ oldpath +:+ " " +:+ newpath +:+ ": file exists")))
      | _ => ([], set_fs (<[newpath := File data]> (delete oldpath (fs w))) w, Ret None)
      end
  | _ =>
      ([], w, Ret (Some ("rename " +:+ oldpath +:+ " " +:+ newpath
                         +:+ ": no such file or directory")))
  end.

(** ** [findLocalFileReferences] *)

Definition findLocalFileReferences (env : Env) (manifestContent : string)
  : result ManifestError (list (gmap string string)) :=
  match yaml_Unmarshal env manifestContent with
  | Err msg => Err (ErrYAML msg)
  | Ok manifestData => findInTree manifestData
  end.

(** ** The artifact retriever: [downloadArtifactViaAPI] *)

Inductive DownloadError : Type :=
| ErrCreateOutputDir (cause : string)
| ErrArtifactTimeout
| ErrCreateTemp (cause : string)
| ErrCopy (cause : string)
| ErrRename (cause : string)
| ErrCreateExtractDir (cause : string)
| ErrExtractTar (cause : string)
| ErrHTTP (code : Z) (body : string).

Definition DownloadError_Error (e : DownloadError) : string :=
  match e with
  | ErrCreateOutputDir cause => "create output dir: " +:+ cause
  | ErrArtifactTimeout => "timed out waiting for artifact to become ready"
  | ErrCreateTemp cause => cause
  | ErrCopy cause => cause
  | ErrRename cause => cause
  | ErrCreateExtractDir cause => "create extract dir: " +:+ cause
  | ErrExtractTar cause => "extract tar: " +:+ cause
  | ErrHTTP code body => "HTTP " +:+ fmt_d code +:+ ": " +:+ body
  end.

(** The file name of the artifact: the [filename=] part of the disposition
    header when it has one, [name.artifact] otherwise. *)
Definition artifactFilename (name : string) (h : gmap string string) : string :=
  let filename := name +:+ ".artifact" in
  let cd := Header_Get h "Content-Disposition" in
  if bool_decide (cd = "") then filename
  else
    let i := strings_Index cd "filename=" in
    if 0 <=? i then
      let f := strings_Trim (slice_from cd (i + 9)) (dquote +:+ " ") in
      if bool_decide (f = "") then filename else f
    else filename.

(** The three informational headers, each printed when it is not blank. *)
Definition printArtifactHeaders (h : gmap string string) : M unit :=
  let note (label key : string) : M unit :=
    let v := strings_TrimSpace (Header_Get h key) in
    if bool_decide (v = "") then mret tt else print (label +:+ v +:+ nl) in
  note "Artifact type: " "X-AIB-Artifact-Type";;
  note "Compression: " "X-AIB-Compression";;
  note "Archive root: " "X-AIB-Archive-Root".

Definition isArchive (env : Env) (contentType outPath : string) : bool :=
  strings_HasPrefix contentType "application/x-tar"
  || strings_HasPrefix contentType "application/gzip"
  || strings_HasSuffix (strings_ToLower env outPath) ".tar"
  || strings_HasSuffix (strings_ToLower env outPath) ".tar.gz".

(** [extractTar], through the decoder of the environment. *)
Definition extractTar (env : Env) (tarPath destDir : string) : M (option string) := fun w =>
  match tar_extract env tarPath destDir (fs w) with
  | Ok f => ([], set_fs f w, Ret None)
  | Err e => ([], w, Ret (Some e))
  end.

(** The branch of a 200 answer. Both arms on the declared length do the same
    to the file system (they differ in the progress bar drawn, which is left
    out), so the copy is written once. *)
Definition saveArtifact (env : Env) (fl : Flags) (name outDir : string) (resp : Response)
  : M (option DownloadError) :=
  let filename := artifactFilename name (Header resp) in
  let contentType := Header_Get (Header resp) "Content-Type" in
  printArtifactHeaders (Header resp);;
  let outPath := filepath_Join env outDir filename in
  let tmp := outPath +:+ ".partial" in
  created ← os_Create env tmp;
  match created with
  | Some err => mret (Some (ErrCreateTemp err))
  | None =>
      file_Write tmp (Body resp);;
      match BodyErr resp with
      | Some copyErr =>
          os_Remove tmp;;
          mret (Some (ErrCopy copyErr))
      | None =>
          print nl;;
          renamed ← os_Rename tmp outPath;
          match renamed with
          | Some err => mret (Some (ErrRename err))
          | None =>
              print ("Artifact downloaded to " +:+ outPath +:+ nl);;
              if isArchive env contentType outPath && negb (compressArtifacts fl) then
                let destDir := strings_TrimSuffix (strings_TrimSuffix outPath ".tar") ".gz" in
                made ← os_MkdirAll env destDir;
                match made with
                | Some err => mret (Some (ErrCreateExtractDir err))
                | None =>
                    extracted ← extractTar env outPath destDir;
                    match extracted with
                    | Some err => mret (Some (ErrExtractTar err))
                    | None => print ("Extracted to " +:+ destDir +:+ nl);; mret None
                    end
                end
              else mret None
          end
      end
  end.

(** An answer that is not 200 and that the retriever waits on. *)
Definition artifactNotReady (env : Env) (resp : Response) : bool :=
  let msg := strings_ToLower env (strings_TrimSpace (Body resp)) in
  (StatusCode resp =? 503) || (StatusCode resp =? 409) || strings_Contains msg "not ready".

(** The retry loop of [downloadArtifactViaAPI]; the context passed by both
    callers is the background context, which never expires. *)
Fixpoint fetchArtifact (fuel : nat) (env : Env) (fl : Flags) (name outDir urlStr : string)
    (deadline : Z) (warned : bool) : M (option DownloadError) :=
  match fuel with
  | O => out_of_fuel
  | S fuel' =>
      w ← get_world;
      if deadline <? clock w then mret (Some ErrArtifactTimeout)
      else
        r ← http_GetArtifact env 1800000 urlStr;
        match r with
        | Err _ =>
            time_Sleep 3000;;
            fetchArtifact fuel' env fl name outDir urlStr deadline warned
        | Ok resp =>
            if StatusCode resp =? 200 then saveArtifact env fl name outDir resp
            else if artifactNotReady env resp then
              (if warned then mret tt else println "Artifact not ready yet. Waiting...");;
              time_Sleep 3000;;
              fetchArtifact fuel' env fl name outDir urlStr deadline true
            else mret (Some (ErrHTTP (StatusCode resp) (strings_TrimSpace (Body resp))))
        end
  end.

(** The directory the artifact goes to, and the address it is fetched from. *)
Definition outputDirOf (outDir : string) : string :=
  if bool_decide (strings_TrimSpace outDir = "") then "./output" else outDir.

Definition artifactURL (env : Env) (baseURL name : string) : string :=
  strings_TrimRight baseURL "/" +:+ "/v1/builds/" +:+ url_PathEscape env name +:+ "/artifact".

Definition downloadArtifactViaAPI (fuel : nat) (env : Env) (fl : Flags)
    (baseURL name outDir : string) : M (option DownloadError) :=
  let outDir := outputDirOf outDir in
  made ← os_MkdirAll env outDir;
  match made with
  | Some err => mret (Some (ErrCreateOutputDir err))
  | None =>
      let urlStr := artifactURL env baseURL name in
      w ← get_world;
      fetchArtifact fuel env fl name outDir urlStr (clock w + 1800000) false
  end.

(** ** The build command: [runBuild] *)

Definition validateBuildRequirements (fl : Flags) : option string :=
  if bool_decide (manifest fl = "") then Some "--manifest is required"
  else if bool_decide (buildName fl = "") then Some "name is required"
  else if bool_decide (strings_TrimSpace (architecture fl) = "") then Some "--arch is required"
  else None.

(** The first of the candidates that is not blank once trimmed. *)
Fixpoint first_token (candidates : list string) : option string :=
  match candidates with
  | [] => None
  | t :: rest =>
      if bool_decide (strings_TrimSpace t = "") then first_token rest
      else Some (strings_TrimSpace t)
  end.

(** [loadTokenFromKubeconfig]; [files] is the file system, read for the token
    file. *)
Definition loadTokenFromKubeconfig (env : Env) (files : gmap string Node)
  : result string string :=
  let fromClientConfig :=
    match kube_ClientConfig env with
    | Some restCfg =>
        let f := strings_TrimSpace (BearerTokenFile restCfg) in
        first_token
          (BearerToken restCfg
           :: (if bool_decide (f = "") then []
               else match files !! f with
                    | Some (File b) => [b]
                    | _ => []
                    end))
    | None => None
    end in
  match fromClientConfig with
  | Some t => Ok t
  | None =>
      match kube_Load env with
      | Err err => Err ("cannot load kubeconfig: " +:+ err)
      | Ok rawCfg =>
          let ctxName := CurrentContext rawCfg in
          if bool_decide (strings_TrimSpace ctxName = "") then Err "no current kube context"
          else
            match Contexts rawCfg !! ctxName with
            | None => Err ("missing context " +:+ ctxName)
            | Some authInfoName =>
                match AuthInfos rawCfg !! authInfoName with
                | None => Err ("missing auth info for context " +:+ ctxName)
                | Some ai =>
                    let fromProvider :=
                      match AuthProviderConfig ai with
                      | Some config =>
                          [index_str config "access-token"; index_str config "id-token";
                           index_str config "token"]
                      | None => []
                      end in
                    let fromHelper :=
                      match oc_whoami env with
                      | Some out => [out]
                      | None => []
                      end in
                    match first_token (Token ai :: fromProvider ++ fromHelper) with
                    | Some t => Ok t
                    | None => Err "no bearer token found in kubeconfig"
                    end
                end
            end
      end
  end.

(** The token: the flag when it is not blank, else the kubeconfig's. *)
Definition resolveToken (env : Env) : M unit :=
  w ← get_world;
  if bool_decide (strings_TrimSpace (authToken w) = "") then
    emit EvKubeconfig;;
    match loadTokenFromKubeconfig env (fs w) with
    | Ok tok =>
        if bool_decide (strings_TrimSpace tok = "") then mret tt
        else modify (set_authToken tok)
    | Err _ => mret tt
    end
  else mret tt.

Definition splitArgs (s : string) : list string :=
  if bool_decide (strings_TrimSpace s = "") then [] else strings_Fields s.

(** Lines 124 to 198: everything before the request leaves the client. The
    result is the request and the text of the manifest file. *)
Definition prepareRequest (env : Env) (fl : Flags) : M (BuildRequest * string) :=
  match validateBuildRequirements fl with
  | Some err => handleError err
  | None => mret tt
  end;;
  (if bool_decide (serverURL fl = "") then handleError "--server is required" else mret tt);;
  resolveToken env;;
  match buildapiclient_New env (serverURL fl) with
  | Some err => handleError err
  | None => mret tt
  end;;
  read ← os_ReadFile (manifest fl);
  manifestBytes ← match read with
                  | Ok data => mret data
                  | Err e => handleError ("error reading manifest: " +:+ e)
                  end;
  parsedDistro ← or_die (ParseDistro env (distro fl));
  parsedTarget ← or_die (ParseTarget env (target fl));
  parsedArch ← or_die (ParseArchitecture env (architecture fl));
  parsedExportFormat ← or_die (ParseExportFormat env (exportFormat fl));
  parsedMode ← or_die (ParseMode env (mode fl));
  mret ({| req_Name := buildName fl;
           req_Manifest := manifestBytes;
           req_ManifestFileName := filepath_Base env (manifest fl);
           req_Distro := parsedDistro;
           req_Target := parsedTarget;
           req_Architecture := parsedArch;
           req_ExportFormat := parsedExportFormat;
           req_Mode := parsedMode;
           req_AutomotiveImageBuilder := automotiveImageBuilder fl;
           req_StorageClass := storageClass fl;
           req_CustomDefs := customDefs fl;
           req_AIBExtraArgs := splitArgs (aibExtraArgs fl);
           req_AIBOverrideArgs := splitArgs (aibOverrideArgs fl);
           req_ServeArtifact := download fl;
           req_Compression := compressionAlgo fl |}, manifestBytes).

(** Lines 211 to 215: every referenced file must exist. *)
Fixpoint checkFilesExist (localRefs : list (gmap string string)) : M unit :=
  match localRefs with
  | [] => mret tt
  | ref :: rest =>
      missing ← os_Stat (index_str ref "source_path");
      match missing with
      | Some err =>
          handleError ("referenced file " +:+ index_str ref "source_path"
                       +:+ " does not exist: " +:+ err)
      | None => checkFilesExist rest
      end
  end.

(** Lines 220 to 236: the readiness wait. [deadline] is when [readyCtx]
    expires. *)
Fixpoint waitForUploadServer (fuel : nat) (env : Env) (name : string) (deadline : Z) : M unit :=
  match fuel with
  | O => out_of_fuel
  | S fuel' =>
      w ← get_world;
      if deadline <=? clock w
      then handleError "timed out waiting for upload server to be ready"
      else
        r ← api_GetBuild env (Some 15000) name;
        match r with
        | Ok st =>
            if bool_decide (Phase st = "Uploading") then mret tt
            else if bool_decide (Phase st = "Failed") then
              handleError ("build failed while waiting for upload server: " +:+ Message st)
            else time_Sleep 3000;; waitForUploadServer fuel' env name deadline
        | Err _ => time_Sleep 3000;; waitForUploadServer fuel' env name deadline
        end
  end.

(** Lines 238 to 241. *)
Definition makeUploads (localRefs : list (gmap string string)) : list Upload :=
  map (fun ref => {| SourcePath := index_str ref "source_path";
                     DestPath := index_str ref "source_path" |}) localRefs.

(** The test of line 250 on the lower-cased error text. *)
Definition uploadNotReady (env : Env) (err : string) : bool :=
  let lower := strings_ToLower env err in
  strings_Contains lower "503"
  || strings_Contains lower "service unavailable"
  || strings_Contains lower "upload pod not ready".

(** Lines 244 to 258: the transfer with retry. *)
Fixpoint uploadWithRetry (fuel : nat) (env : Env) (name : string) (uploads : list Upload)
    (uploadDeadline : Z) : M unit :=
  match fuel with
  | O => out_of_fuel
  | S fuel' =>
      failed ← api_UploadFiles env name uploads;
      match failed with
      | None => mret tt
      | Some err =>
          w ← get_world;
          if uploadDeadline <? clock w then handleError ("upload files failed: " +:+ err)
          else if uploadNotReady env err then
            println "Upload server not ready yet. Retrying...";;
            time_Sleep 5000;;
            uploadWithRetry fuel' env name uploads uploadDeadline
          else handleError ("upload files failed: " +:+ err)
      end
  end.

(** Lines 206 to 260: find the local files and upload them. *)
Definition uploadLocalFiles (fuel : nat) (env : Env) (name manifestBytes : string) : M unit :=
  match findLocalFileReferences env manifestBytes with
  | Err e => handleError ("manifest file reference error: " +:+ ManifestError_Error e)
  | Ok localRefs =>
      if (0 <? length localRefs)%nat then
        checkFilesExist localRefs;;
        println "Waiting for upload server to be ready...";;
        w ← get_world;
        waitForUploadServer fuel env name (clock w + 600000);;
        let uploads := makeUploads localRefs in
        w ← get_world;
        uploadWithRetry fuel env name uploads (clock w + 600000);;
        println "Local files uploaded. Build will proceed."
      else mret tt
  end.

(** *** The lifecycle monitor, lines 262 to 344 *)

Inductive Selected : Type :=
| SelTimeout
| SelTick (next : Z).

(** The [select]: wait until the context is done or the ticker has a tick.
    [tickAt] is when the earliest tick not yet received was or will be sent
    (the channel holds one), and the ticker sends every five seconds, dropping
    the ticks nobody could take. *)
Definition selectTimeoutOrTick (env : Env) (deadline tickAt : Z) : M Selected := fun w =>
  let t := Z.max (clock w) (Z.min deadline tickAt) in
  let tick := SelTick (tickAt + 5000 * ((t - tickAt) / 5000 + 1)) in
  let w' := next_select (set_clock t w) in
  if (deadline <=? t) && (tickAt <=? t)
  then ([], w', Ret (if select_tick env (selects w) then tick else SelTimeout))
  else if deadline <=? t then ([], w', Ret SelTimeout)
  else ([], w', Ret tick).

(** Lines 285 to 315: one attempt at the log stream. The result is the new
    value of [logFollowWarned]. *)
Definition followLogsOnce (env : Env) (fl : Flags) (name : string)
    (userFollowRequested logFollowWarned : bool) : M bool :=
  w ← get_world;
  if followLogs w then
    r ← http_GetLogs env 600000
          (strings_TrimRight (serverURL fl) "/" +:+ "/v1/builds/"
           +:+ url_PathEscape env name +:+ "/logs?follow=1");
    match r with
    | Err _ => mret logFollowWarned
    | Ok resp2 =>
        if StatusCode resp2 =? 200 then
          println "Streaming logs...";;
          print (Body resp2);;
          modify (set_followLogs userFollowRequested);;
          mret logFollowWarned
        else
          let msg := strings_TrimSpace (Body resp2) in
          if (StatusCode resp2 =? 503) || (StatusCode resp2 =? 504) then
            if logFollowWarned then mret logFollowWarned
            else
              println ("log stream not ready (HTTP " +:+ fmt_d (StatusCode resp2)
                       +:+ " ). Retrying" +:+ ellipsis);;
              mret true
          else
            (if bool_decide (msg = "")
             then print ("log stream error: HTTP " +:+ fmt_d (StatusCode resp2) +:+ nl)
             else print ("log stream error (" +:+ fmt_d (StatusCode resp2) +:+ "): "
                         +:+ msg +:+ nl));;
            modify (set_followLogs false);;
            mret logFollowWarned
    end
  else mret logFollowWarned.

Record MonitorState : Type := mkMonitorState {
  tickAt : Z;
  lastPhase : string;
  lastMessage : string;
  logFollowWarned : bool
}.

Fixpoint monitorLoop (fuel : nat) (env : Env) (fl : Flags) (name : string)
    (deadline : Z) (userFollowRequested : bool) (s : MonitorState) : M unit :=
  match fuel with
  | O => out_of_fuel
  | S fuel' =>
      sel ← selectTimeoutOrTick env deadline (tickAt s);
      match sel with
      | SelTimeout => handleError "timed out waiting for build"
      | SelTick next =>
          warned ← followLogsOnce env fl name userFollowRequested (logFollowWarned s);
          r ← api_GetBuild env (Some 120000) name;
          match r with
          | Err err =>
              print ("status check failed: " +:+ err +:+ nl);;
              monitorLoop fuel' env fl name deadline userFollowRequested
                (mkMonitorState next (lastPhase s) (lastMessage s) warned)
          | Ok st =>
              let changed :=
                negb userFollowRequested
                && (negb (bool_decide (Phase st = lastPhase s))
                    || negb (bool_decide (Message st = lastMessage s))) in
              (if changed
               then print ("status: " +:+ Phase st +:+ " - " +:+ Message st +:+ nl)
               else mret tt);;
              let s' := if changed
                        then mkMonitorState next (Phase st) (Message st) warned
                        else mkMonitorState next (lastPhase s) (lastMessage s) warned in
              if bool_decide (Phase st = "Completed") then
                if download fl then
                  failed ← downloadArtifactViaAPI fuel env fl (serverURL fl) name
                             (outputDir fl);
                  match failed with
                  | Some err =>
                      print ("Download via API failed: " +:+ DownloadError_Error err +:+ nl)
                  | None => mret tt
                  end
                else mret tt
              else if bool_decide (Phase st = "Failed") then
                handleError ("build failed: " +:+ Message st)
              else monitorLoop fuel' env fl name deadline userFollowRequested s'
          end
      end
  end.

(** The 64 bits of a signed integer: what is left of [z] when the arithmetic
    wraps around. *)
Definition wrap64 (z : Z) : Z := (z + 2 ^ 63) mod 2 ^ 64 - 2 ^ 63.

(** [time.Duration(timeout) * time.Minute], line 264: a product of 64-bit
    integers, in nanoseconds. *)
Definition timeoutDuration (fl : Flags) : Z := wrap64 (timeout fl * 60000000000).

(** The milliseconds after which a context with a timeout of [ns]
    nanoseconds is done: the first tick of the clock at or past the
    deadline. *)
Definition expires_after (ns : Z) : Z := - ((- ns) / 1000000).

(** Lines 262 to 344: wait for the build when one of the three flags asks. *)
Definition waitForCompletion (fuel : nat) (env : Env) (fl : Flags) (name : string) : M unit :=
  w ← get_world;
  if waitForBuild fl || followLogs w || download fl then
    println "Waiting for build to complete...";;
    w ← get_world;
    monitorLoop fuel env fl name (clock w + expires_after (timeoutDuration fl)) (followLogs w)
      (mkMonitorState (clock w + 5000) "" "" false)
  else mret tt.

Definition accepted (resp : BuildResponse) : string :=
  "Build " +:+ Name resp +:+ " accepted: " +:+ Phase resp +:+ " - " +:+ Message resp +:+ nl.

Definition runBuild (fuel : nat) (env : Env) (fl : Flags) : M unit :=
  prepared ← prepareRequest env fl;
  created ← api_CreateBuild env prepared.1;
  resp ← or_die created;
  print (accepted resp);;
  uploadLocalFiles fuel env (Name resp) prepared.2;;
  waitForCompletion fuel env fl (Name resp).

(** ** The download command: [runDownload] *)

Definition runDownload (fuel : nat) (env : Env) (fl : Flags) : M unit :=
  (if bool_decide (strings_TrimSpace (serverURL fl) = "")
   then println "Error: --server is required (or set CAIB_SERVER)";; os_Exit 1
   else mret tt);;
  resolveToken env;;
  match buildapiclient_New env (serverURL fl) with
  | Some err => print ("Error: " +:+ err +:+ nl);; os_Exit 1
  | None => mret tt
  end;;
  r ← api_GetBuild env None (buildName fl);
  match r with
  | Err err =>
      print ("Error getting build " +:+ buildName fl +:+ ": " +:+ err +:+ nl);; os_Exit 1
  | Ok st =>
      if bool_decide (Phase st = "Completed") then
        failed ← downloadArtifactViaAPI fuel env fl (serverURL fl) (buildName fl) (outputDir fl);
        match failed with
        | Some err => print ("Download failed: " +:+ DownloadError_Error err +:+ nl);; os_Exit 1
        | None => mret tt
        end
      else
        print ("Build " +:+ buildName fl +:+ " is not completed (status: " +:+ Phase st
               +:+ "). Cannot download artifacts." +:+ nl);;
        os_Exit 1
  end.

(** The state an invocation starts in. *)
Definition initial_world (now : Z) (files : gmap string Node) (token : string) (follow : bool)
  : World :=
  mkWorld now files token follow 0 0 0 0 0.

(** ** A sample environment, for running the model *)

Definition sample_flags : Flags :=
  {| serverURL := "https://api.example"; manifest := "simple.aib.yml";
     buildName := "my-build"; distro := "autosd"; target := "qemu";
     architecture := "arm64"; exportFormat := "image"; mode := "image";
     automotiveImageBuilder := "quay.io/centos-sig-automotive/automotive-image-builder:1.0.0";
     storageClass := ""; outputDir := ""; timeout := 60; waitForBuild := false;
     download := false; customDefs := []; aibExtraArgs := ""; aibOverrideArgs := "";
     compressArtifacts := true; compressionAlgo := "gzip" |}.

(** The manifest of the client's README, and the tree a YAML parser makes of
    it. *)
Definition radio_manifest : string :=
  "content:" +:+ nl +:+
  "  add_files:" +:+ nl +:+
  "    - path: /etc/containers/systemd/radio.container" +:+ nl +:+
  "      source_path: radio.container" +:+ nl.

Definition add_file (path sourcePath : string) : any :=
  AMap (<["source_path" := AString sourcePath]> (<["path" := AString path]> ∅)).

Definition content_tree (addFiles : list any) : gmap string any :=
  <["content" := AMap (<["add_files" := ASlice addFiles]> ∅)]> ∅.

Definition radio_tree : gmap string any :=
  content_tree [add_file "/etc/containers/systemd/radio.container" "radio.container"].

(** A manifest whose file is taken from above the working directory. *)
Definition traversal_manifest : string :=
  "content:" +:+ nl +:+
  "  add_files:" +:+ nl +:+
  "    - path: /etc/motd" +:+ nl +:+
  "      source_path: ../motd" +:+ nl.

Definition traversal_tree : gmap string any :=
  content_tree [add_file "/etc/motd" "../motd"].

(** A manifest whose file is named by an absolute path. *)
Definition absolute_manifest : string :=
  "content:" +:+ nl +:+
  "  add_files:" +:+ nl +:+
  "    - path: /etc/hosts" +:+ nl +:+
  "      source_path: /home/user/hosts" +:+ nl.

Definition absolute_tree : gmap string any :=
  content_tree [add_file "/etc/hosts" "/home/user/hosts"].

(** A manifest whose entry holds an absolute [source_path] next to a [path]
    that is a number, not a string. *)
Definition numbered_manifest : string :=
  "content:" +:+ nl +:+
  "  add_files:" +:+ nl +:+
  "    - path: 7" +:+ nl +:+
  "      source_path: /etc/shadow" +:+ nl.

Definition numbered_entry : any :=
  AMap (<["source_path" := AString "/etc/shadow"]> (<["path" := AInt 7]> ∅)).

Definition numbered_entry_field (key : string) : option any :=
  match numbered_entry with
  | AMap fileMap => fileMap !! key
  | _ => None
  end.

Definition numbered_tree : gmap string any := content_tree [numbered_entry].

(** An entry that names its file under the key [source]. *)
Definition source_entry (path source : string) : any :=
  AMap (<["source" := AString source]> (<["path" := AString path]> ∅)).

(** A manifest without local files. *)
Definition plain_manifest : string := "name: simple" +:+ nl.

Definition plain_tree : gmap string any := <["name" := AString "simple"]> ∅.

(** A parser that knows the manifests above. *)
Definition sample_yaml (text : string) : result string (gmap string any) :=
  if bool_decide (text = radio_manifest) then Ok radio_tree
  else if bool_decide (text = traversal_manifest) then Ok traversal_tree
  else if bool_decide (text = absolute_manifest) then Ok absolute_tree
  else if bool_decide (text = plain_manifest) then Ok plain_tree
  else if bool_decide (text = numbered_manifest) then Ok numbered_tree
  else Err "yaml: unknown document".

(** [filepath.Join] on a clean directory and a plain file name. *)
Definition sample_Join (dir file : string) : string :=
  let joined := dir +:+ "/" +:+ file in
  if strings_HasPrefix joined "./" then slice_from joined 2 else joined.

(** An environment whose remote side is given by three scripts: the answers
    to the status polls, to the uploads and to the artifact fetches. The
    texts of the samples are of the seven-bit range, so the case tables of
    Unicode are never asked; the operating system refuses nothing. *)
Definition sample_env
    (polls : nat -> N * result string BuildResponse)
    (uploads : nat -> N * option string)
    (fetches : nat -> N * result string Response) : Env :=
  {| yaml_Unmarshal := sample_yaml;
     filepath_Base := fun path => path;
     filepath_Join := sample_Join;
     url_PathEscape := fun name => name;
     ParseDistro := Ok;
     ParseTarget := Ok;
     ParseArchitecture := Ok;
     ParseExportFormat := Ok;
     ParseMode := Ok;
     kube_ClientConfig := None;
     kube_Load := Err "invalid configuration: no configuration has been provided";
     oc_whoami := None;
     buildapiclient_New := fun _ => None;
     remote_CreateBuild := fun req =>
       (200%N, Ok (mkBuildResponse (req_Name req) "Accepted" "build accepted"));
     remote_GetBuild := fun k _ => polls k;
     remote_UploadFiles := fun k _ _ => uploads k;
     remote_Logs := fun _ _ => (100%N, Err "connection refused");
     remote_Artifact := fun k _ => fetches k;
     select_tick := fun _ => true;
     tar_extract := fun _ _ files => Ok files;
     unicode_ToLower := fun text => text;
     os_refuses := fun _ _ _ => None |}.

Definition status (phase message : string) : N * result string BuildResponse :=
  (150%N, Ok (mkBuildResponse "my-build" phase message)).

Definition answer (code : Z) (body : string) : N * result string Response :=
  (250%N, Ok (mkResponse code ∅ body None)).

(** The working directory of the samples: the manifests and the radio file. *)
Definition sample_files : gmap string Node :=
  <["simple.aib.yml" := File plain_manifest]>
    (<["radio.aib.yml" := File radio_manifest]>
       (<["traversal.aib.yml" := File traversal_manifest]>
          (<["radio.container" := File "[Container]"]> ∅))).

Definition with_manifest (path : string) (fl : Flags) : Flags :=
  mkFlags (serverURL fl) path (buildName fl) (distro fl) (target fl) (architecture fl)
          (exportFormat fl) (mode fl) (automotiveImageBuilder fl) (storageClass fl)
          (outputDir fl) (timeout fl) (waitForBuild fl) (download fl) (customDefs fl)
          (aibExtraArgs fl) (aibOverrideArgs fl) (compressArtifacts fl) (compressionAlgo fl).

Definition with_download (fl : Flags) : Flags :=
  mkFlags (serverURL fl) (manifest fl) (buildName fl) (distro fl) (target fl) (architecture fl)
          (exportFormat fl) (mode fl) (automotiveImageBuilder fl) (storageClass fl)
          (outputDir fl) (timeout fl) (waitForBuild fl) true (customDefs fl)
          (aibExtraArgs fl) (aibOverrideArgs fl) (compressArtifacts fl) (compressionAlgo fl).

(** ** Vocabulary of the statements *)

(** What [processAddFiles] reads of an entry: the pair of its [path] and
    [source_path] when the entry is a map that holds both as strings. *)
Definition reference (file : any) : option (string * string) :=
  match file with
  | AMap fileMap =>
      match assert_string (fileMap !! "path"),
            assert_string (fileMap !! "source_path") with
      | Some path, Some sourcePath => Some (path, sourcePath)
      | _, _ => None
      end
  | _ => None
  end.

(** An entry without a string [source_path], or without a string [path], or
    that is no map at all. *)
Definition lacks_reference (file : any) : Prop :=
  match file with
  | AMap fileMap =>
      assert_string (fileMap !! "source_path") = None
      \/ assert_string (fileMap !! "path") = None
  | _ => True
  end.

(** The add-file entries of the two places the walk visits, in its order. *)
Definition addFileEntries (manifestData : gmap string any) : list any :=
  default [] (contentAddFiles manifestData) ++ default [] (qmAddFiles manifestData).

Definition toRef (ps : string * string) : gmap string string := mkRef ps.1 ps.2.

(** The events that are no upload. *)
Definition not_upload (e : Event) : Prop := is_upload e = false.

(** The only uploads are of the batch [ups] to the build [name]. *)
Definition uploads_of (name : string) (ups : list Upload) (e : Event) : Prop :=
  match e with
  | EvUploadFiles name' ups' _ => name' = name /\ ups' = ups
  | EvPrint _ | EvSleep _ => True
  | _ => False
  end.


(** What a status poll of the readiness wait answers in the state [w], and
    the state it leaves. *)
Definition poll_answer (env : Env) (name : string) (w : World)
  : result string BuildResponse :=
  (within 15000 (remote_GetBuild env (statusCalls w) name)).2.

Definition after_poll (env : Env) (name : string) (w : World) : World :=
  final (api_GetBuild env (Some 15000) name w).

(** An answer on which the readiness wait keeps waiting. *)
Definition not_yet (r : result string BuildResponse) : Prop :=
  match r with
  | Ok st => Phase st <> "Uploading" /\ Phase st <> "Failed"
  | Err _ => True
  end.

(** [evs] written first, then the run [r]. *)
Definition after_events {A} (evs : list Event) (r : list Event * World * Outcome A)
  : list Event * World * Outcome A :=
  (evs ++ events r, final r, outcome r).

(** What [uploadLocalFiles] may write for the manifest [text]: an upload is
    of the batch made from the references found in it. *)
Definition upload_of_manifest (env : Env) (text : string) (e : Event) : Prop :=
  match e with
  | EvUploadFiles _ ups _ =>
      exists refs, findLocalFileReferences env text = Ok refs /\ ups = makeUploads refs
  | EvCreateBuild _ _ | EvGetLogs _ _ _ | EvGetArtifact _ _ _ => False
  | _ => True
  end.

(** What [runBuild] may write from the state [w]: the request it submits is
    the prepared one, and an upload is of the batch made from the references
    of the prepared manifest text. *)
Definition build_event (env : Env) (fl : Flags) (w : World) (e : Event) : Prop :=
  match e with
  | EvCreateBuild req r =>
      exists prepared,
        outcome (prepareRequest env fl w) = Ret prepared
        /\ req = prepared.1 /\ r = (remote_CreateBuild env req).2
  | EvUploadFiles _ ups _ =>
      exists prepared,
        outcome (prepareRequest env fl w) = Ret prepared
        /\ upload_of_manifest env prepared.2 e
  | _ => True
  end.

(** The sample invocations: a build of the radio manifest whose remote side
    is accepted, then ready for uploads, and refuses the upload three times;
    the same with the manifest that climbs out of the working directory. *)
Definition radio_env : Env :=
  sample_env
    (fun k => if (k <? 2)%nat then status "Accepted" "" else status "Uploading" "")
    (fun k => if (k <? 3)%nat then (100%N, Some "HTTP 503 Service Unavailable")
              else (100%N, None))
    (fun _ => answer 500 "boom").

(** A remote side that is ready for the files and refuses them for good. *)
Definition denying_env : Env :=
  sample_env (fun _ => status "Uploading" "")
             (fun _ => (100%N, Some "HTTP 401 Unauthorized"))
             (fun _ => answer 500 "boom").

Definition radio_flags : Flags := with_manifest "radio.aib.yml" sample_flags.
Definition traversal_flags : Flags := with_manifest "traversal.aib.yml" sample_flags.
Definition w0 : World := initial_world 0 sample_files "tok" false.

Definition emits {A} (P : Event -> Prop) (m : M A) : Prop :=
  forall w, Forall P (events (m w)).

(** The events of the three parts of [runBuild]. *)
Definition local_event (e : Event) : Prop :=
  match e with EvPrint _ | EvSleep _ | EvKubeconfig => True | _ => False end.

Definition upload_stage_event (e : Event) : Prop :=
  match e with
  | EvPrint _ | EvSleep _ | EvGetBuild _ _ | EvUploadFiles _ _ _ => True
  | _ => False
  end.

Definition monitor_event (e : Event) : Prop :=
  match e with
  | EvPrint _ | EvSleep _ | EvGetBuild _ _ | EvGetLogs _ _ _ | EvGetArtifact _ _ _ => True
  | _ => False
  end.


Definition post {A} (m : M A) (w : World) (Q : A -> World -> Prop) : Prop :=
  match outcome (m w) with
  | Ret a => Q a (final (m w))
  | _ => True
  end.

(** The computation ends, and when it leaves the process the status is 1. *)
Definition settles {A} (m : M A) : Prop :=
  forall w, match outcome (m w) with
            | Ret _ => True
            | Exit code => code = 1
            | OutOfFuel => False
            end.

Definition timed_out_waiting : Event :=
  EvPrint ("Error: timed out waiting for upload server to be ready" +:+ nl).

Definition failed_waiting (st : BuildResponse) : Event :=
  EvPrint ("Error: build failed while waiting for upload server: " +:+ Message st +:+ nl).

Definition upload_answer (env : Env) (name : string) (ups : list Upload) (w : World)
  : option string :=
  (remote_UploadFiles env (uploadCalls w) name ups).2.

Definition after_upload (env : Env) (name : string) (ups : list Upload) (w : World) : World :=
  final (api_UploadFiles env name ups w).

(** The line that announces the readiness wait. *)
Definition waiting_for_uploads : Event :=
  EvPrint ("Waiting for upload server to be ready..." +:+ nl).

(** The error text of a refused upload reads as not ready: lower-cased, it
    holds one of the three marks. *)
Definition reads_not_ready (env : Env) (err : string) : Prop :=
  strings_Contains (strings_ToLower env err) "503" = true
  \/ strings_Contains (strings_ToLower env err) "service unavailable" = true
  \/ strings_Contains (strings_ToLower env err) "upload pod not ready" = true.

Definition retrying : Event := EvPrint ("Upload server not ready yet. Retrying..." +:+ nl).

Definition upload_failed (err : string) : Event :=
  EvPrint ("Error: upload files failed: " +:+ err +:+ nl).

(** The state after [n] refused uploads, each followed by the pause. *)
Fixpoint after_retries (env : Env) (name : string) (ups : list Upload) (n : nat) (w : World)
  : World :=
  match n with
  | O => w
  | S n' => after_retries env name ups n' (advance 5000 (after_upload env name ups w))
  end.

(** What [n] refused uploads and the accepted one write. *)
Fixpoint retry_trace (env : Env) (name : string) (ups : list Upload) (n : nat) (w : World)
  : list Event :=
  match n with
  | O => [EvUploadFiles name ups None]
  | S n' =>
      EvUploadFiles name ups (upload_answer env name ups w) :: retrying :: EvSleep 5000
      :: retry_trace env name ups n' (advance 5000 (after_upload env name ups w))
  end.

Definition radio_uploads : list Upload :=
  [{| SourcePath := "radio.container"; DestPath := "radio.container" |}].

Definition fetch_answer (env : Env) (urlStr : string) (w : World) : result string Response :=
  (within 1800000 (remote_Artifact env (artifactCalls w) urlStr)).2.

Definition after_fetch (env : Env) (urlStr : string) (w : World) : World :=
  final (http_GetArtifact env 1800000 urlStr w).

Definition fetched (env : Env) (urlStr : string) (w : World) : Event :=
  EvGetArtifact urlStr (bearer w) (fetch_answer env urlStr w).

Definition not_ready_notice (warned : bool) : list Event :=
  if warned then [] else [EvPrint ("Artifact not ready yet. Waiting..." +:+ nl)].

(** [os.MkdirAll] succeeds on [path]: a directory is there, or nothing is and
    the system does not refuse to make one. *)
Definition can_make_dir (env : Env) (path : string) (files : gmap string Node) : Prop :=
  match files !! path with
  | Some (File _) => False
  | Some Dir => True
  | None => os_refuses env "mkdir" path files = None
  end.

(** [os.Create] succeeds on [path]: no directory is there and the system does
    not refuse. *)
Definition can_create (env : Env) (path : string) (files : gmap string Node) : Prop :=
  files !! path <> Some Dir /\ os_refuses env "open" path files = None.

(** An answer the retriever waits on: a status of 503 or 409, or a body that
    says not ready, on an answer that is not 200; or no answer at all. *)
Definition waits_on (env : Env) (r : result string Response) : Prop :=
  match r with
  | Ok resp => StatusCode resp <> 200 /\ artifactNotReady env resp = true
  | Err _ => True
  end.

(** A remote side where the build is completed and the artifact is never
    ready. *)
Definition never_ready_env : Env :=
  sample_env (fun _ => status "Completed" "done") (fun _ => (100%N, None))
             (fun _ => answer 503 "artifact not ready").

(** A remote side where the build is completed and the artifact fetch is
    answered with an internal error. *)
Definition broken_artifact_env : Env :=
  sample_env (fun _ => status "Completed" "done") (fun _ => (100%N, None))
             (fun _ => answer 500 "boom").

(** A remote side that serves the image under the name [disk.img]. *)
Definition image_response (bodyErr : option string) : Response :=
  mkResponse 200 (<["Content-Disposition" := "attachment; filename=disk.img"]> ∅)
             "IMAGE" bodyErr.

Definition image_env (bodyErr : option string) : Env :=
  sample_env (fun _ => status "Completed" "done") (fun _ => (100%N, None))
             (fun _ => (250%N, Ok (image_response bodyErr))).

Definition download_flags : Flags := with_download sample_flags.

Definition w_blank : World := initial_world 0 sample_files "" false.

(** The working directory with a directory where the image is to go. *)
Definition w_taken : World :=
  initial_world 0 (<["output/disk.img" := Dir]> sample_files) "" false.

Definition outPathOf (env : Env) (name outDir : string) (resp : Response) : string :=
  filepath_Join env outDir (artifactFilename name (Header resp)).

Definition is_fetch (e : Event) : bool :=
  match e with EvGetArtifact _ _ _ => true | _ => false end.

Definition not_fetch (e : Event) : Prop := is_fetch e = false.

(** The computation does not leave the process. *)
Definition never_exits {A} (m : M A) : Prop :=
  forall w code, outcome (m w) <> Exit code.

(** A run that wrote an artifact fetch did not leave the process. *)
Definition returns_after_fetch {A} (m : M A) : Prop :=
  forall w, Exists (fun e => is_fetch e = true) (events (m w)) ->
            forall code, outcome (m w) <> Exit code.

Definition log_event (e : Event) : Prop :=
  match e with EvPrint _ | EvGetLogs _ _ _ => True | _ => False end.

(** ** Vocabulary of the further properties *)

(** The source path of the first reference that has no file, if any. *)
Fixpoint first_missing (files : gmap string Node) (localRefs : list (gmap string string))
  : option string :=
  match localRefs with
  | [] => None
  | ref :: rest =>
      match files !! index_str ref "source_path" with
      | None => Some (index_str ref "source_path")
      | Some _ => first_missing files rest
      end
  end.

(** The line [runBuild] writes for a referenced file that does not exist. *)
Definition missing_file (sourcePath : string) : Event :=
  EvPrint ("Error: "
           +:+ ("referenced file " +:+ sourcePath +:+ " does not exist: "
                +:+ ("stat " +:+ sourcePath +:+ ": no such file or directory"))
           +:+ nl).

(** The sample working directory without the radio file. *)
Definition w_no_radio : World :=
  initial_world 0 (delete "radio.container" sample_files) "tok" false.

(** The line [handleError] prints for [err]. *)
Definition error_line (err : string) : Event := EvPrint ("Error: " +:+ err +:+ nl).

(** The submissions of a build. *)
Definition is_create (e : Event) : bool :=
  match e with EvCreateBuild _ _ => true | _ => false end.

(** When the computation leaves the process, the status is 1 and the last
    thing written is an error line. *)
Definition dies_loudly {A} (m : M A) : Prop :=
  forall w, match outcome (m w) with
            | Exit code => code = 1 /\ exists err, last (events (m w)) = Some (error_line err)
            | _ => True
            end.

(** The sample flags without a name for the build. *)
Definition no_name_flags : Flags :=
  mkFlags "https://api.example" "simple.aib.yml" "" "autosd" "qemu" "arm64" "image" "image"
          "quay.io/centos-sig-automotive/automotive-image-builder:1.0.0" "" "" 60
          false false [] "" "" true "gzip".

(** The request made of the radio manifest under the sample flags. *)
Definition radio_request : BuildRequest :=
  {| req_Name := "my-build";
     req_Manifest := radio_manifest;
     req_ManifestFileName := "radio.aib.yml";
     req_Distro := "autosd";
     req_Target := "qemu";
     req_Architecture := "arm64";
     req_ExportFormat := "image";
     req_Mode := "image";
     req_AutomotiveImageBuilder :=
       "quay.io/centos-sig-automotive/automotive-image-builder:1.0.0";
     req_StorageClass := "";
     req_CustomDefs := [];
     req_AIBExtraArgs := [];
     req_AIBOverrideArgs := [];
     req_ServeArtifact := false;
     req_Compression := "gzip" |}.

(** A remote side that refuses the build. *)
Definition refusing_env : Env :=
  {| yaml_Unmarshal := sample_yaml;
     filepath_Base := fun path => path;
     filepath_Join := sample_Join;
     url_PathEscape := fun name => name;
     ParseDistro := Ok;
     ParseTarget := Ok;
     ParseArchitecture := Ok;
     ParseExportFormat := Ok;
     ParseMode := Ok;
     kube_ClientConfig := None;
     kube_Load := Err "invalid configuration: no configuration has been provided";
     oc_whoami := None;
     buildapiclient_New := fun _ => None;
     remote_CreateBuild := fun _ => (200%N, Err "409 Conflict: build already exists");
     remote_GetBuild := fun _ _ => status "Accepted" "";
     remote_UploadFiles := fun _ _ _ => (100%N, None);
     remote_Logs := fun _ _ => (100%N, Err "connection refused");
     remote_Artifact := fun _ _ => answer 500 "boom";
     select_tick := fun _ => true;
     tar_extract := fun _ _ files => Ok files;
     unicode_ToLower := fun text => text;
     os_refuses := fun _ _ _ => None |}.

(** The request made of the plain manifest under the sample flags. *)
Definition plain_request : BuildRequest :=
  {| req_Name := "my-build";
     req_Manifest := plain_manifest;
     req_ManifestFileName := "simple.aib.yml";
     req_Distro := "autosd";
     req_Target := "qemu";
     req_Architecture := "arm64";
     req_ExportFormat := "image";
     req_Mode := "image";
     req_AutomotiveImageBuilder :=
       "quay.io/centos-sig-automotive/automotive-image-builder:1.0.0";
     req_StorageClass := "";
     req_CustomDefs := [];
     req_AIBExtraArgs := [];
     req_AIBOverrideArgs := [];
     req_ServeArtifact := false;
     req_Compression := "gzip" |}.

(** From a state where [I] holds, [m] writes only events of [P] and ends in a
    state where [I] holds. *)
Definition maintains {A} (I : World -> Prop) (P : Event -> Prop) (m : M A) : Prop :=
  forall w, I w -> Forall P (events (m w)) /\ I (final (m w)).

(** Every request that carries a bearer token carries [tok], and the
    kubeconfig is not consulted. *)
Definition sends (tok : string) (e : Event) : Prop :=
  match e with
  | EvKubeconfig => False
  | EvGetLogs _ t _ | EvGetArtifact _ t _ => t = tok
  | _ => True
  end.

(** The requests for the log stream. *)
Definition is_log (e : Event) : bool :=
  match e with EvGetLogs _ _ _ => true | _ => false end.

(** A kubeconfig whose client configuration names a token file, and a remote
    side where the build is completed and the image is served. *)
Definition kube_env : Env :=
  {| yaml_Unmarshal := sample_yaml;
     filepath_Base := fun path => path;
     filepath_Join := sample_Join;
     url_PathEscape := fun name => name;
     ParseDistro := Ok;
     ParseTarget := Ok;
     ParseArchitecture := Ok;
     ParseExportFormat := Ok;
     ParseMode := Ok;
     kube_ClientConfig := Some (mkRestConfig "  " "/run/secrets/token");
     kube_Load := Err "invalid configuration: no configuration has been provided";
     oc_whoami := None;
     buildapiclient_New := fun _ => None;
     remote_CreateBuild := fun req =>
       (200%N, Ok (mkBuildResponse (req_Name req) "Accepted" "build accepted"));
     remote_GetBuild := fun _ _ => status "Completed" "done";
     remote_UploadFiles := fun _ _ _ => (100%N, None);
     remote_Logs := fun _ _ => (100%N, Err "connection refused");
     remote_Artifact := fun _ _ => (250%N, Ok (image_response None));
     select_tick := fun _ => true;
     tar_extract := fun _ _ files => Ok files;
     unicode_ToLower := fun text => text;
     os_refuses := fun _ _ _ => None |}.

(** The sample working directory and the token file. *)
Definition kube_files : gmap string Node :=
  <["/run/secrets/token" := File (" sha256~abc" +:+ nl)]> sample_files.

(** A status poll that answered with the Completed phase. *)
Definition observes_Completed (e : Event) : bool :=
  match e with
  | EvGetBuild _ (Ok st) => bool_decide (Phase st = "Completed")
  | _ => false
  end.

(** Reading a trace from its start: no artifact fetch before a status poll
    has answered Completed ([seen] says whether one already has). *)
Fixpoint fetch_guarded (seen : bool) (evs : list Event) : bool :=
  match evs with
  | [] => true
  | e :: evs' =>
      (negb (is_fetch e) || seen) && fetch_guarded (seen || observes_Completed e) evs'
  end.

(** Every trace of [m] is guarded in that sense. *)
Definition fetch_gated {A} (seen : bool) (m : M A) : Prop :=
  forall w, fetch_guarded seen (events (m w)) = true.

(** A run that returns has seen the build completed, unless [seen] says it
    was seen before. *)
Definition completes {A} (seen : bool) (m : M A) : Prop :=
  forall w a, outcome (m w) = Ret a ->
    seen = true \/ Exists (fun e => observes_Completed e = true) (events (m w)).


(** The flags with the wait asked for and a timeout of [minutes]. *)
Definition wait_flags (minutes : Z) (fl : Flags) : Flags :=
  mkFlags (serverURL fl) (manifest fl) (buildName fl) (distro fl) (target fl) (architecture fl)
          (exportFormat fl) (mode fl) (automotiveImageBuilder fl) (storageClass fl)
          (outputDir fl) minutes true (download fl) (customDefs fl)
          (aibExtraArgs fl) (aibOverrideArgs fl) (compressArtifacts fl) (compressionAlgo fl).

(** The events that are no request for the logs. *)
Definition not_log (e : Event) : Prop := is_log e = false.

(** The test of line 262: one of the three flags asks for the wait. *)
Definition asked (fl : Flags) (w : World) : Prop :=
  waitForBuild fl || followLogs w || download fl = true.

(** From a state where the wait is asked for, a run that returns has seen
    the build completed. *)
Definition returns_completed {A} (fl : Flags) (m : M A) : Prop :=
  forall w a, asked fl w -> outcome (m w) = Ret a ->
    Exists (fun e => observes_Completed e = true) (events (m w)).

(** The status polls. *)
Definition is_poll (e : Event) : bool :=
  match e with EvGetBuild _ _ => true | _ => false end.

(** How many events of the kind [f] a trace holds. *)
Definition count (f : Event -> bool) (evs : list Event) : nat :=
  length (List.filter f evs).

(** A remote side that never gets ready for the files and refuses each
    transfer as not ready, both without taking any time. *)
Definition stalling_env : Env :=
  {| yaml_Unmarshal := sample_yaml;
     filepath_Base := fun path => path;
     filepath_Join := sample_Join;
     url_PathEscape := fun name => name;
     ParseDistro := Ok;
     ParseTarget := Ok;
     ParseArchitecture := Ok;
     ParseExportFormat := Ok;
     ParseMode := Ok;
     kube_ClientConfig := None;
     kube_Load := Err "invalid configuration: no configuration has been provided";
     oc_whoami := None;
     buildapiclient_New := fun _ => None;
     remote_CreateBuild := fun req =>
       (0%N, Ok (mkBuildResponse (req_Name req) "Accepted" "build accepted"));
     remote_GetBuild := fun _ _ => (0%N, Ok (mkBuildResponse "my-build" "Pending" ""));
     remote_UploadFiles := fun _ _ _ => (0%N, Some "upload pod not ready");
     remote_Logs := fun _ _ => (0%N, Err "connection refused");
     remote_Artifact := fun _ _ => (0%N, Ok (mkResponse 503 ∅ "artifact not ready" None));
     select_tick := fun _ => true;
     tar_extract := fun _ _ files => Ok files;
     unicode_ToLower := fun text => text;
     os_refuses := fun _ _ _ => None |}.

(** Lines 557 and 558: where an archive is extracted to. *)
Definition extractDirOf (outPath : string) : string :=
  strings_TrimSuffix (strings_TrimSuffix outPath ".tar") ".gz".

(** The notice of the retriever that the artifact is not ready. *)
Definition is_notice (e : Event) : bool :=
  match e with
  | EvPrint text => String.eqb text ("Artifact not ready yet. Waiting..." +:+ nl)
  | _ => false
  end.




(** An artifact fetch that was answered 200 and whose stream was read to its
    end. *)
Definition received (e : Event) : bool :=
  match e with
  | EvGetArtifact _ _ (Ok resp) =>
      (StatusCode resp =? 200) && bool_decide (BodyErr resp = None)
  | _ => false
  end.

(** The line [runDownload] writes for a build that is not completed. *)
Definition not_completed (name phase : string) : Event :=
  EvPrint ("Build " +:+ name +:+ " is not completed (status: " +:+ phase
           +:+ "). Cannot download artifacts." +:+ nl).

(** ** The list command: [runList] *)

(** [utf8.RuneCountInString], which [fmt] measures a string with when it
    pads: a byte that starts no well-formed encoding counts as one rune.
    [byte_in lo hi s i]: the byte [s[i]] exists and lies between [lo] and
    [hi]. *)
Definition byte_in (lo hi : N) (s : string) (i : nat) : bool :=
  match String.get i s with
  | Some c => ((lo <=? N_of_ascii c) && (N_of_ascii c <=? hi))%N
  | None => false
  end.

(** The number of bytes of the encoding that [c] starts before [rest]. *)
Definition rune_width (c : ascii) (rest : string) : nat :=
  let b := N_of_ascii c in
  let encoded (size : nat) (lo hi : N) : nat :=
    if (String.length rest <? size - 1)%nat then 1%nat
    else if negb (byte_in lo hi rest 0) then 1%nat
    else if (size =? 2)%nat then 2%nat
    else if negb (byte_in 128 191 rest 1) then 1%nat
    else if (size =? 3)%nat then 3%nat
    else if negb (byte_in 128 191 rest 2) then 1%nat
    else 4%nat in
  (if b <? 194 then 1%nat
   else if b <=? 223 then encoded 2%nat 128 191
   else if b =? 224 then encoded 3%nat 160 191
   else if b <=? 236 then encoded 3%nat 128 191
   else if b =? 237 then encoded 3%nat 128 159
   else if b <=? 239 then encoded 3%nat 128 191
   else if b =? 240 then encoded 4%nat 144 191
   else if b <=? 243 then encoded 4%nat 128 191
   else if b =? 244 then encoded 4%nat 128 143
   else 1%nat)%N.

(** [s[n:]], the whole of [s] gone when it is shorter. *)
Fixpoint skip (n : nat) (s : string) : string :=
  match n, s with
  | S n', String _ s' => skip n' s'
  | _, _ => s
  end.

(** The loop of [RuneCountInString]: one rune for each encoding, or for each
    byte that starts none. The fuel is the length of the string. *)
Fixpoint count_runes (fuel : nat) (s : string) : nat :=
  match fuel, s with
  | S fuel', String c rest => S (count_runes fuel' (skip (rune_width c rest - 1) rest))
  | _, _ => 0%nat
  end.

Definition utf8_RuneCountInString (s : string) : nat := count_runes (String.length s) s.

(** [n] blanks. *)
Fixpoint spaces (n : nat) : string :=
  match n with
  | O => EmptyString
  | S n' => String " "%char (spaces n')
  end.

(** The verb [%-Ns] on a string: the string, then blanks up to [N] runes. *)
Definition fmt_left (width : nat) (s : string) : string :=
  s +:+ spaces (width - utf8_RuneCountInString s).

(** The format of line 710 and line 712. *)
Definition list_line (name phase message created artifact : string) : string :=
  fmt_left 20 name +:+ " " +:+ fmt_left 12 phase +:+ " " +:+ fmt_left 20 message +:+ " "
  +:+ fmt_left 20 created +:+ " " +:+ fmt_left 20 artifact +:+ nl.

(** What [runList] reads of an item of the listing; [item_CreatedAt] is the
    text the verb writes for the creation time. *)
Record BuildListItem : Type := mkBuildListItem {
  item_Name : string;
  item_Phase : string;
  item_Message : string;
  item_CreatedAt : string
}.

(** The header of the table and the row of an item; the last column is
    always empty. *)
Definition list_header : string := list_line "NAME" "STATUS" "MESSAGE" "CREATED" "ARTIFACT".

Definition list_row (it : BuildListItem) : string :=
  list_line (item_Name it) (item_Phase it) (item_Message it) (item_CreatedAt it) "".

(** The loop of line 711. *)
Fixpoint print_rows (items : list BuildListItem) : M unit :=
  match items with
  | [] => mret tt
  | it :: rest => print (list_row it);; print_rows rest
  end.

(** [listing] is what [api.ListBuilds] answers, and how long it takes. *)
Definition runList (env : Env) (fl : Flags) (listing : N * result string (list BuildListItem))
  : M unit :=
  (if bool_decide (strings_TrimSpace (serverURL fl) = "")
   then println "Error: --server is required (or set CAIB_SERVER)";; os_Exit 1
   else mret tt);;
  resolveToken env;;
  match buildapiclient_New env (serverURL fl) with
  | Some err => print ("Error: " +:+ err +:+ nl);; os_Exit 1
  | None => mret tt
  end;;
  modify (advance (Z.of_N listing.1));;
  match listing.2 with
  | Err err => print ("Error listing ImageBuilds: " +:+ err +:+ nl);; os_Exit 1
  | Ok items =>
      if (length items =? 0)%nat then println "No ImageBuilds found"
      else print list_header;; print_rows items
  end.

(** The item fits the columns of the table. *)
Definition fits (it : BuildListItem) : Prop :=
  is_ascii (item_Name it) = true /\ (String.length (item_Name it) <= 20)%nat
  /\ is_ascii (item_Phase it) = true /\ (String.length (item_Phase it) <= 12)%nat
  /\ is_ascii (item_Message it) = true /\ (String.length (item_Message it) <= 20)%nat
  /\ is_ascii (item_CreatedAt it) = true /\ (String.length (item_CreatedAt it) <= 20)%nat.

(** What a trace prints, in order. *)
Definition printed (evs : list Event) : list string :=
  omap (fun e => match e with EvPrint text => Some text | _ => None end) evs.

(** A listing of two builds. *)
Definition sample_items : list BuildListItem :=
  [ mkBuildListItem "my-build" "Completed" "done" "2025-01-01T10:00:00Z";
    mkBuildListItem "radio" "Building" "" "2025-01-02T08:30:00Z" ].

(** * Lemmas *)

(** ** The string helpers on samples *)

Example Contains_dotdot : strings_Contains "a/../b" ".." = true.
Proof. reflexivity. Qed.

Example Contains_single_dot : strings_Contains "./a.b" ".." = false.
Proof. reflexivity. Qed.

Example Index_filename : strings_Index "attachment; filename=disk.img" "filename=" = 12.
Proof. reflexivity. Qed.

Example Index_absent : strings_Index "inline" "filename=" = -1.
Proof. reflexivity. Qed.

Example TrimSpace_both : strings_TrimSpace "  arm64 " = "arm64".
Proof. reflexivity. Qed.

Example ToLower_mixed :
  strings_ToLower radio_env "HTTP 503 Service Unavailable" = "http 503 service unavailable".
Proof. reflexivity. Qed.

Example Fields_args : strings_Fields " --fusa  --verbose " = ["--fusa"; "--verbose"].
Proof. reflexivity. Qed.

Example TrimSuffix_tar_gz :
  strings_TrimSuffix (strings_TrimSuffix "out/disk.tar.gz" ".tar") ".gz" = "out/disk.tar".
Proof. reflexivity. Qed.

Example artifactFilename_quoted :
  artifactFilename "my-build"
    (<["Content-Disposition" := "attachment; filename=" +:+ dquote +:+ "disk.img" +:+ dquote]> ∅)
  = "disk.img".
Proof. vm_compute. reflexivity. Qed.

Example artifactFilename_default : artifactFilename "my-build" ∅ = "my-build.artifact".
Proof. vm_compute. reflexivity. Qed.

Example uploadNotReady_pod : uploadNotReady radio_env "Upload pod not ready" = true.
Proof. reflexivity. Qed.

Example uploadNotReady_other : uploadNotReady radio_env "permission denied" = false.
Proof. reflexivity. Qed.

(** ** Manifest preprocessing: lemmas *)

Lemma index_mkRef_source_path path sourcePath :
  index_str (mkRef path sourcePath) "source_path" = sourcePath.
Proof. unfold index_str, mkRef. by rewrite lookup_insert_eq. Qed.

Lemma index_mkRef_path path sourcePath :
  index_str (mkRef path sourcePath) "path" = path.
Proof.
  unfold index_str, mkRef.
  rewrite lookup_insert_ne by done. by rewrite lookup_insert_eq.
Qed.

Lemma lacks_reference_None file : lacks_reference file -> reference file = None.
Proof.
  destruct file as [| | | | |fileMap|]; try done.
  simpl. intros [H|H]; rewrite H; [|done].
  by destruct (assert_string (fileMap !! "path")).
Qed.

Lemma reference_None_lacks file : reference file = None -> lacks_reference file.
Proof.
  destruct file as [| | | | |fileMap|]; try done.
  simpl. destruct (assert_string (fileMap !! "path")); [|by right].
  destruct (assert_string (fileMap !! "source_path")); [done|by left].
Qed.

Lemma processAddFiles_cons file rest localFiles :
  processAddFiles (file :: rest) localFiles =
  match reference file with
  | Some (path, sourcePath) =>
      match isPathSafe sourcePath with
      | Some err => Err err
      | None => processAddFiles rest (localFiles ++ [mkRef path sourcePath])
      end
  | None => processAddFiles rest localFiles
  end.
Proof.
  destruct file as [| | | | |fileMap|]; try reflexivity.
  simpl. destruct (assert_string (fileMap !! "path")); [|reflexivity].
  destruct (assert_string (fileMap !! "source_path")); reflexivity.
Qed.

Lemma processAddFiles_app l1 l2 localFiles :
  processAddFiles (l1 ++ l2) localFiles =
  match processAddFiles l1 localFiles with
  | Ok localFiles' => processAddFiles l2 localFiles'
  | Err e => Err e
  end.
Proof.
  revert localFiles. induction l1 as [|file l1 IH]; intros localFiles; [reflexivity|].
  rewrite <- app_comm_cons, !processAddFiles_cons.
  destruct (reference file) as [[path sourcePath]|]; [|apply IH].
  destruct (isPathSafe sourcePath); [reflexivity|apply IH].
Qed.

(** When the walk succeeds, the references are the entries' own values, in
    order, and every one of them passed [isPathSafe]. *)
Lemma processAddFiles_Ok l localFiles refs :
  processAddFiles l localFiles = Ok refs ->
  refs = localFiles ++ map toRef (omap reference l)
  /\ Forall (fun ps => isPathSafe ps.2 = None) (omap reference l).
Proof.
  revert localFiles. induction l as [|file l IH]; intros localFiles.
  - simpl. intros [= <-]. by rewrite app_nil_r.
  - rewrite processAddFiles_cons. simpl.
    destruct (reference file) as [[path sourcePath]|]; [|apply IH].
    destruct (isPathSafe sourcePath) eqn:Hsafe; [done|].
    intros H. apply IH in H as [-> HF]. split.
    + by rewrite <- app_assoc.
    + by constructor.
Qed.

(** One entry that [isPathSafe] refuses makes the walk fail. *)
Lemma processAddFiles_unsafe l localFiles file path sourcePath :
  file ∈ l -> reference file = Some (path, sourcePath) ->
  isPathSafe sourcePath <> None ->
  exists e, processAddFiles l localFiles = Err e.
Proof.
  intros Hin Href Hbad.
  destruct (processAddFiles l localFiles) as [refs|e] eqn:Hrun; [|by eexists].
  apply processAddFiles_Ok in Hrun as [_ HF].
  rewrite Forall_forall in HF.
  exfalso. apply Hbad, (HF (path, sourcePath)).
  apply list_elem_of_omap. eauto.
Qed.

Lemma findInTree_entries manifestData :
  findInTree manifestData =
  match processAddFiles (addFileEntries manifestData) [] with
  | Ok localFiles => Ok localFiles
  | Err e => Err (ErrPath e)
  end.
Proof.
  unfold findInTree, addFileEntries. rewrite processAddFiles_app.
  destruct (contentAddFiles manifestData) as [l1|]; simpl.
  - destruct (processAddFiles l1 []) as [acc|e]; [|reflexivity].
    destruct (qmAddFiles manifestData) as [l2|]; reflexivity.
  - destruct (qmAddFiles manifestData) as [l2|]; reflexivity.
Qed.

Lemma HasPrefix_Contains s sub : strings_HasPrefix s sub = true -> strings_Contains s sub = true.
Proof. intros H. destruct s; cbn [strings_Contains]; by rewrite H. Qed.

(** ** The monad: how a sequence runs *)

Lemma events_bind {A B} (m : M A) (k : A -> M B) w :
  events ((m ≫= k) w) =
  events (m w) ++ match outcome (m w) with
                  | Ret a => events (k a (final (m w)))
                  | _ => []
                  end.
Proof.
  unfold mbind, M_bind, bind, events, final, outcome.
  destruct (m w) as [[e1 w1] [a|code|]]; simpl; try by rewrite app_nil_r.
  by destruct (k a w1) as [[e2 w2] o].
Qed.

Lemma outcome_bind {A B} (m : M A) (k : A -> M B) w :
  outcome ((m ≫= k) w) =
  match outcome (m w) with
  | Ret a => outcome (k a (final (m w)))
  | Exit code => Exit code
  | OutOfFuel => OutOfFuel
  end.
Proof.
  unfold mbind, M_bind, bind, events, final, outcome.
  destruct (m w) as [[e1 w1] [a|code|]]; simpl; try done.
  by destruct (k a w1) as [[e2 w2] o].
Qed.

Lemma final_bind {A B} (m : M A) (k : A -> M B) w :
  final ((m ≫= k) w) =
  match outcome (m w) with
  | Ret a => final (k a (final (m w)))
  | _ => final (m w)
  end.
Proof.
  unfold mbind, M_bind, bind, events, final, outcome.
  destruct (m w) as [[e1 w1] [a|code|]]; simpl; try done.
  by destruct (k a w1) as [[e2 w2] o].
Qed.

Lemma run_eta {A} (r : list Event * World * Outcome A) :
  r = (events r, final r, outcome r).
Proof. by destruct r as [[e w] o]. Qed.

(** *** Which events a computation can write *)

Lemma emits_bind {A B} P (m : M A) (k : A -> M B) :
  emits P m -> (forall a, emits P (k a)) -> emits P (m ≫= k).
Proof.
  intros Hm Hk w. rewrite events_bind. apply Forall_app. split; [apply Hm|].
  destruct (outcome (m w)); [apply Hk|constructor..].
Qed.

Lemma emits_ret {A} P (a : A) : emits P (mret a).
Proof. intros w. constructor. Qed.

Lemma emits_emit P e : P e -> emits P (emit e).
Proof. intros H w. by repeat constructor. Qed.

Lemma emits_silent {A} P (m : M A) : (forall w, events (m w) = []) -> emits P m.
Proof. intros H w. rewrite H. constructor. Qed.

Lemma emits_weaken {A} (P Q : Event -> Prop) (m : M A) :
  (forall e, P e -> Q e) -> emits P m -> emits Q m.
Proof. intros HPQ Hm w. eapply Forall_impl; [apply Hm|done]. Qed.

Lemma os_ReadFile_silent path w : events (os_ReadFile path w) = [].
Proof. reflexivity. Qed.
Lemma os_Stat_silent path w : events (os_Stat path w) = [].
Proof. reflexivity. Qed.
Lemma os_MkdirAll_silent env path w : events (os_MkdirAll env path w) = [].
Proof. unfold os_MkdirAll. by repeat case_match. Qed.
Lemma os_Create_silent env path w : events (os_Create env path w) = [].
Proof. unfold os_Create. by repeat case_match. Qed.
Lemma os_Remove_silent path w : events (os_Remove path w) = [].
Proof. unfold os_Remove. by repeat case_match. Qed.
Lemma os_Rename_silent a b w : events (os_Rename a b w) = [].
Proof. unfold os_Rename. by repeat case_match. Qed.
Lemma extractTar_silent env a b w : events (extractTar env a b w) = [].
Proof. unfold extractTar. by repeat case_match. Qed.
Lemma selectTimeoutOrTick_silent env d t w : events (selectTimeoutOrTick env d t w) = [].
Proof. unfold selectTimeoutOrTick. by repeat case_match. Qed.

Ltac emits_prim :=
  first
    [ apply emits_ret
    | apply emits_emit; exact I
    | apply emits_silent; intros ?;
      first [ reflexivity | apply os_ReadFile_silent | apply os_Stat_silent
            | apply os_MkdirAll_silent | apply os_Create_silent
            | apply os_Remove_silent | apply os_Rename_silent
            | apply extractTar_silent | apply selectTimeoutOrTick_silent ]
    | intros ?; repeat constructor; exact I ].

Ltac emits_walk :=
  repeat first
    [ apply emits_bind; [|intros ?]
    | progress emits_prim
    | case_match ].

(** *** The events of each part of the client *)

Lemma handleError_emits {A} P err : (forall t, P (EvPrint t)) -> emits P (@handleError A err).
Proof.
  intros H. unfold handleError, print, os_Exit.
  apply emits_bind; [by apply emits_emit|]. intros _ w. constructor.
Qed.

Ltac emits_with known :=
  repeat first
    [ known
    | apply emits_bind; [|intros ?]
    | apply handleError_emits; intros ?; exact I
    | progress emits_prim
    | case_match ].
Ltac emits_go := emits_with fail.

Lemma prepareRequest_local env fl : emits local_event (prepareRequest env fl).
Proof. unfold prepareRequest, or_die, resolveToken, modify, get_world. emits_go. Qed.

Lemma saveArtifact_monitor env fl name outDir resp :
  emits monitor_event (saveArtifact env fl name outDir resp).
Proof.
  unfold saveArtifact, printArtifactHeaders, file_Write, modify, print. emits_go.
Qed.

Lemma fetchArtifact_monitor fuel env fl name outDir urlStr deadline warned :
  emits monitor_event (fetchArtifact fuel env fl name outDir urlStr deadline warned).
Proof.
  revert warned. induction fuel as [|fuel IH]; intros warned; cbn [fetchArtifact].
  - intros w. constructor.
  - unfold get_world, println, time_Sleep.
    emits_with ltac:(first [apply IH | apply saveArtifact_monitor]).
Qed.

Lemma downloadArtifactViaAPI_monitor fuel env fl baseURL name outDir :
  emits monitor_event (downloadArtifactViaAPI fuel env fl baseURL name outDir).
Proof.
  unfold downloadArtifactViaAPI, get_world.
  emits_with ltac:(apply fetchArtifact_monitor).
Qed.

Lemma followLogsOnce_monitor env fl name u warned :
  emits monitor_event (followLogsOnce env fl name u warned).
Proof. unfold followLogsOnce, get_world, println, print, modify. emits_go. Qed.

Lemma monitorLoop_monitor fuel env fl name deadline u s :
  emits monitor_event (monitorLoop fuel env fl name deadline u s).
Proof.
  revert s. induction fuel as [|fuel IH]; intros s; cbn [monitorLoop].
  - intros w. constructor.
  - unfold print.
    emits_with ltac:(first [apply IH | apply followLogsOnce_monitor
                            | apply downloadArtifactViaAPI_monitor]).
Qed.

Lemma checkFilesExist_local localRefs : emits local_event (checkFilesExist localRefs).
Proof. induction localRefs as [|ref rest IH]; cbn [checkFilesExist]; emits_with ltac:(apply IH). Qed.

Lemma waitForUploadServer_polls fuel env name deadline :
  emits (fun e => upload_stage_event e /\ not_upload e) (waitForUploadServer fuel env name deadline).
Proof.
  induction fuel as [|fuel IH]; cbn [waitForUploadServer].
  - intros w. constructor.
  - unfold get_world, time_Sleep.
    repeat first
    [ apply IH
    | apply emits_bind; [|intros ?]
    | apply handleError_emits; intros ?; by split
    | apply emits_ret
    | intros ?; repeat constructor; by split
    | case_match ].
Qed.

Lemma uploadWithRetry_uploads fuel env name ups deadline :
  emits (uploads_of name ups) (uploadWithRetry fuel env name ups deadline).
Proof.
  induction fuel as [|fuel IH]; cbn [uploadWithRetry].
  - intros w. constructor.
  - unfold get_world, time_Sleep, println.
    repeat first
    [ apply IH
    | apply emits_bind; [|intros ?]
    | apply handleError_emits; intros ?; exact I
    | apply emits_ret
    | apply emits_emit; exact I
    | intros ?; repeat constructor; done
    | case_match ].
Qed.

(** *** Uploads are guarded by an observation of the Uploading phase *)









(** *** What holds when a computation returns, and that it does *)

Lemma post_bind {A B} (m : M A) (k : A -> M B) w Q :
  post m w (fun a w1 => post (k a) w1 Q) -> post (m ≫= k) w Q.
Proof.
  unfold post. rewrite outcome_bind, final_bind.
  by destruct (outcome (m w)).
Qed.

Lemma post_ret {A} (a : A) w (Q : A -> World -> Prop) : Q a w -> post (mret a) w Q.
Proof. done. Qed.
Lemma post_handleError {A} err w (Q : A -> World -> Prop) : post (handleError err) w Q.
Proof. done. Qed.
Lemma post_get_world w (Q : World -> World -> Prop) : Q w w -> post get_world w Q.
Proof. done. Qed.
Lemma post_emit e w (Q : unit -> World -> Prop) : Q tt w -> post (emit e) w Q.
Proof. done. Qed.
Lemma post_modify f w (Q : unit -> World -> Prop) : Q tt (f w) -> post (modify f) w Q.
Proof. done. Qed.
Lemma post_os_ReadFile path w (Q : result string string -> World -> Prop) :
  Q (match fs w !! path with
     | Some (File data) => Ok data
     | Some Dir => Err ("read " +:+ path +:+ ": is a directory")
     | None => Err ("open " +:+ path +:+ ": no such file or directory")
     end) w ->
  post (os_ReadFile path) w Q.
Proof. done. Qed.

Ltac post_step :=
  lazymatch goal with
  | |- post (mbind _ _) _ _ => apply post_bind
  | |- post (handleError _) _ _ => apply post_handleError
  | |- post (mret _) _ _ => apply post_ret
  | |- post get_world _ _ => apply post_get_world
  | |- post (emit _) _ _ => apply post_emit
  | |- post (modify _) _ _ => apply post_modify
  | |- post (os_ReadFile _) _ _ => apply post_os_ReadFile
  | |- post (match _ with _ => _ end) _ _ => case_match
  | |- post (if _ then _ else _) _ _ => case_match
  end; cbn beta.

Lemma settles_bind {A B} (m : M A) (k : A -> M B) :
  settles m -> (forall a, settles (k a)) -> settles (m ≫= k).
Proof.
  intros Hm Hk w. rewrite outcome_bind. specialize (Hm w).
  destruct (outcome (m w)); [apply Hk|done..].
Qed.

(** A request that is ready carries the text of the manifest file, and
    getting it ready left the files alone. *)
Lemma prepareRequest_Ret env fl w :
  post (prepareRequest env fl) w (fun prepared w' =>
    fs w !! manifest fl = Some (File prepared.2)
    /\ req_Manifest prepared.1 = prepared.2 /\ fs w' = fs w).
Proof.
  unfold prepareRequest, or_die, resolveToken.
  repeat post_step. all: simplify_eq/=; done.
Qed.

Lemma prepareRequest_settles env fl : settles (prepareRequest env fl).
Proof.
  unfold prepareRequest, or_die, resolveToken, handleError.
  repeat first [ apply settles_bind; [|intros ?] | case_match | done ].
Qed.

Lemma local_event_not_api_call evs :
  Forall local_event evs -> List.filter is_api_call evs = [].
Proof.
  induction 1 as [|e evs He _ IH]; [done|].
  simpl. rewrite IH. by destruct e.
Qed.

(** *** The run of a sequence, and of [runBuild] *)

Lemma bind_run {A B} (m : M A) (k : A -> M B) w :
  (m ≫= k) w =
  match outcome (m w) with
  | Ret a => after_events (events (m w)) (k a (final (m w)))
  | Exit code => (events (m w), final (m w), Exit code)
  | OutOfFuel => (events (m w), final (m w), OutOfFuel)
  end.
Proof.
  unfold mbind, M_bind, bind, after_events, events, final, outcome.
  destruct (m w) as [[e1 w1] [a|code|]]; simpl; try done.
  by destruct (k a w1) as [[e2 w2] o].
Qed.

Lemma runBuild_run fuel env fl w :
  runBuild fuel env fl w =
  let p := prepareRequest env fl w in
  match outcome p with
  | Ret prepared =>
      let created := remote_CreateBuild env prepared.1 in
      let w1 := advance (Z.of_N created.1) (final p) in
      match created.2 with
      | Ok resp =>
          after_events
            (events p ++ [EvCreateBuild prepared.1 (Ok resp); EvPrint (accepted resp)])
            ((uploadLocalFiles fuel env (Name resp) prepared.2;;
              waitForCompletion fuel env fl (Name resp)) w1)
      | Err e =>
          (events p ++ [EvCreateBuild prepared.1 (Err e); EvPrint ("Error: " +:+ e +:+ nl)],
           w1, Exit 1)
      end
  | Exit code => (events p, final p, Exit code)
  | OutOfFuel => (events p, final p, OutOfFuel)
  end.
Proof.
  unfold runBuild. rewrite bind_run. cbn zeta.
  destruct (outcome (prepareRequest env fl w)) as [prepared|code|]; [|done..].
  rewrite bind_run. cbn [api_CreateBuild outcome events final fst snd].
  destruct (remote_CreateBuild env prepared.1) as [d [resp|e]]; cbn [fst snd or_die].
  - rewrite bind_run. cbn [mret M_ret ret outcome events final fst snd].
    rewrite bind_run. cbn [print emit outcome events final fst snd].
    unfold after_events; cbn [outcome events final fst snd].
    by rewrite !app_nil_l, <- !app_assoc.
  - rewrite bind_run. by cbn.
Qed.

(** *** Preprocessing and the upload stage *)

Lemma findLocalFileReferences_Ok env text refs :
  findLocalFileReferences env text = Ok refs ->
  exists tree,
    yaml_Unmarshal env text = Ok tree
    /\ refs = map toRef (omap reference (addFileEntries tree))
    /\ Forall (fun ps => isPathSafe ps.2 = None) (omap reference (addFileEntries tree)).
Proof.
  unfold findLocalFileReferences.
  destruct (yaml_Unmarshal env text) as [tree|msg]; [|done].
  rewrite findInTree_entries.
  destruct (processAddFiles (addFileEntries tree) []) as [l|e] eqn:Hrun; [|done].
  intros [= <-]. apply processAddFiles_Ok in Hrun as [-> HF]. eauto.
Qed.

Lemma findLocalFileReferences_unsafe env text tree file path sourcePath :
  yaml_Unmarshal env text = Ok tree ->
  file ∈ addFileEntries tree -> reference file = Some (path, sourcePath) ->
  isPathSafe sourcePath <> None ->
  exists e, findLocalFileReferences env text = Err (ErrPath e).
Proof.
  intros Hparse Hin Href Hbad. unfold findLocalFileReferences.
  rewrite Hparse, findInTree_entries.
  destruct (processAddFiles_unsafe _ [] _ _ _ Hin Href Hbad) as [e ->]. eauto.
Qed.

Lemma Contains_dotdot_not_trivial path :
  strings_Contains path ".." = true ->
  bool_decide (path = "") || bool_decide (path = "/") = false.
Proof.
  intros H. apply orb_false_iff. split; apply bool_decide_eq_false; intros ->; done.
Qed.

Lemma isPathSafe_traversal path :
  strings_Contains path ".." = true -> isPathSafe path = Some (ErrTraversal path).
Proof.
  intros H. unfold isPathSafe, isPathSafeIn.
  by rewrite (Contains_dotdot_not_trivial _ H), H.
Qed.

Lemma isPathSafe_absolute path :
  filepath_IsAbs path = true ->
  isPathSafe path = Some (if bool_decide (path = "/") then ErrEmptyOrRoot
                          else if strings_Contains path ".." then ErrTraversal path
                          else ErrAbsoluteOutside path).
Proof.
  intros H. unfold isPathSafe, isPathSafeIn. rewrite H.
  destruct (bool_decide (path = "")) eqn:He.
  { apply bool_decide_eq_true in He. by subst. }
  destruct (bool_decide (path = "/")); [done|]. simpl.
  by destruct (strings_Contains path "..").
Qed.

Lemma isPathSafe_None path :
  isPathSafe path = None ->
  filepath_IsAbs path = false /\ strings_Contains path ".." = false.
Proof.
  unfold isPathSafe, isPathSafeIn. repeat case_match; done.
Qed.

Lemma makeUploads_toRef l :
  makeUploads (map toRef l) = map (fun ps => mkUpload ps.2 ps.2) l.
Proof.
  unfold makeUploads. rewrite map_map. apply map_ext. intros [p sp].
  unfold toRef. simpl. by rewrite index_mkRef_source_path.
Qed.

Lemma uploadLocalFiles_Err fuel env name text e w :
  findLocalFileReferences env text = Err e ->
  uploadLocalFiles fuel env name text w =
  ([EvPrint ("Error: manifest file reference error: " +:+ ManifestError_Error e +:+ nl)],
   w, Exit 1).
Proof. intros H. unfold uploadLocalFiles. by rewrite H. Qed.

Lemma uploadLocalFiles_uploads fuel env name text :
  emits (upload_of_manifest env text) (uploadLocalFiles fuel env name text).
Proof.
  unfold uploadLocalFiles.
  destruct (findLocalFileReferences env text) as [refs|e] eqn:Hrefs.
  - case_match; [|apply emits_ret].
    unfold get_world, println.
    repeat first
      [ apply emits_bind; [|intros ?]
      | apply emits_emit; exact I
      | apply emits_silent; intros ?; reflexivity
      | eapply emits_weaken; [|apply checkFilesExist_local]; by intros []
      | eapply emits_weaken; [|apply waitForUploadServer_polls]; by intros [] [? ?]
      | eapply emits_weaken; [|apply uploadWithRetry_uploads];
        intros [] He; try done; destruct He as [_ ->]; by exists refs ].
  - apply handleError_emits. by intros ?.
Qed.


Lemma waitForCompletion_monitor fuel env fl name :
  emits monitor_event (waitForCompletion fuel env fl name).
Proof.
  unfold waitForCompletion, get_world, println.
  emits_with ltac:(apply monitorLoop_monitor).
Qed.


Lemma runBuild_events fuel env fl w :
  Forall (build_event env fl w) (events (runBuild fuel env fl w)).
Proof.
  rewrite runBuild_run. cbn zeta.
  pose proof (prepareRequest_local env fl w) as Hlocal.
  assert (Hp : Forall (build_event env fl w) (events (prepareRequest env fl w))).
  { eapply Forall_impl; [exact Hlocal|]. by intros []. }
  destruct (outcome (prepareRequest env fl w)) as [prepared|code|] eqn:Hout; [|done..].
  destruct ((remote_CreateBuild env prepared.1).2) as [resp|e] eqn:Hcreated.
  - unfold after_events. cbn [events fst]. rewrite !Forall_app. split_and!; [done|..].
    + repeat constructor. exists prepared. by rewrite Hcreated.
    + rewrite events_bind. apply Forall_app. split.
      * eapply Forall_impl; [apply uploadLocalFiles_uploads|].
        intros [] He; try done. by exists prepared.
      * destruct (outcome (uploadLocalFiles _ _ _ _ _)); [|constructor..].
        eapply Forall_impl; [apply waitForCompletion_monitor|]. by intros [].
  - cbn [events fst]. rewrite Forall_app. split; [done|].
    repeat constructor. exists prepared. by rewrite Hcreated.
Qed.

(** *** The readiness wait *)

Lemma within_nonneg {A} limit (call : N * result string A) :
  0 <= limit -> 0 <= (within limit call).1.
Proof. unfold within. case_match; simpl; lia. Qed.

Lemma clock_after_poll env name w : clock w <= clock (after_poll env name w).
Proof.
  unfold after_poll, api_GetBuild. cbn [final fst snd next_status advance set_clock clock].
  pose proof (within_nonneg 15000 (remote_GetBuild env (statusCalls w) name)). lia.
Qed.

Lemma wait_deadline fuel env name deadline w :
  deadline <= clock w ->
  waitForUploadServer (S fuel) env name deadline w = ([timed_out_waiting], w, Exit 1).
Proof.
  intros H. cbn [waitForUploadServer]. rewrite bind_run.
  cbn [get_world outcome events final fst snd].
  apply Z.leb_le in H. by rewrite H.
Qed.

Lemma wait_poll fuel env name deadline w :
  clock w < deadline ->
  waitForUploadServer (S fuel) env name deadline w =
  after_events [EvGetBuild name (poll_answer env name w)]
    (match poll_answer env name w with
     | Ok st =>
         if bool_decide (Phase st = "Uploading") then mret tt
         else if bool_decide (Phase st = "Failed") then
           handleError ("build failed while waiting for upload server: " +:+ Message st)
         else time_Sleep 3000;; waitForUploadServer fuel env name deadline
     | Err _ => time_Sleep 3000;; waitForUploadServer fuel env name deadline
     end (after_poll env name w)).
Proof.
  intros H. cbn [waitForUploadServer]. rewrite bind_run.
  cbn [get_world outcome events final fst snd].
  apply Z.leb_gt in H. rewrite H. unfold after_events at 1. cbn [app].
  rewrite bind_run. by rewrite <- run_eta.
Qed.

Lemma wait_Uploading fuel env name deadline w st :
  clock w < deadline -> poll_answer env name w = Ok st -> Phase st = "Uploading" ->
  waitForUploadServer (S fuel) env name deadline w =
  ([EvGetBuild name (Ok st)], after_poll env name w, Ret tt).
Proof.
  intros H Hans Hph. rewrite wait_poll, Hans by done.
  by rewrite bool_decide_eq_true_2.
Qed.

Lemma wait_Failed fuel env name deadline w st :
  clock w < deadline -> poll_answer env name w = Ok st -> Phase st = "Failed" ->
  waitForUploadServer (S fuel) env name deadline w =
  ([EvGetBuild name (Ok st); failed_waiting st], after_poll env name w, Exit 1).
Proof.
  intros H Hans Hph. rewrite wait_poll, Hans by done.
  rewrite bool_decide_eq_false_2 by (rewrite Hph; done).
  by rewrite bool_decide_eq_true_2.
Qed.

Lemma wait_not_yet fuel env name deadline w :
  clock w < deadline -> not_yet (poll_answer env name w) ->
  waitForUploadServer (S fuel) env name deadline w =
  after_events [EvGetBuild name (poll_answer env name w); EvSleep 3000]
    (waitForUploadServer fuel env name deadline (advance 3000 (after_poll env name w))).
Proof.
  intros H Hny. rewrite wait_poll by done.
  destruct (poll_answer env name w) as [st|err].
  - destruct Hny as [H1 H2]. rewrite !bool_decide_eq_false_2 by done.
    rewrite bind_run. by cbn.
  - rewrite bind_run. by cbn.
Qed.


(** *** The transfer with retry *)

Lemma clock_after_upload env name ups w : clock w <= clock (after_upload env name ups w).
Proof.
  unfold after_upload, api_UploadFiles.
  cbn [final fst snd next_upload advance set_clock clock]. lia.
Qed.

Lemma clock_after_retries env name ups n w :
  clock w <= clock (after_retries env name ups n w).
Proof.
  revert w. induction n as [|n IH]; intros w; [done|].
  cbn [after_retries]. etrans; [|apply IH].
  pose proof (clock_after_upload env name ups w).
  cbn [advance set_clock clock]. lia.
Qed.

Lemma upload_attempt fuel env name ups deadline w :
  uploadWithRetry (S fuel) env name ups deadline w =
  after_events [EvUploadFiles name ups (upload_answer env name ups w)]
    (match upload_answer env name ups w with
     | None => mret tt
     | Some err =>
         w' ← get_world;
         if deadline <? clock w' then handleError ("upload files failed: " +:+ err)
         else if uploadNotReady env err then
           println "Upload server not ready yet. Retrying...";;
           time_Sleep 5000;;
           uploadWithRetry fuel env name ups deadline
         else handleError ("upload files failed: " +:+ err)
     end (after_upload env name ups w)).
Proof. cbn [uploadWithRetry]. rewrite bind_run. reflexivity. Qed.

Lemma upload_accepted fuel env name ups deadline w :
  upload_answer env name ups w = None ->
  uploadWithRetry (S fuel) env name ups deadline w =
  ([EvUploadFiles name ups None], after_upload env name ups w, Ret tt).
Proof. intros H. rewrite upload_attempt, H. done. Qed.

Lemma upload_fatal fuel env name ups deadline w err :
  upload_answer env name ups w = Some err -> uploadNotReady env err = false ->
  uploadWithRetry (S fuel) env name ups deadline w =
  ([EvUploadFiles name ups (Some err); upload_failed err], after_upload env name ups w, Exit 1).
Proof.
  intros H Hnr. rewrite upload_attempt, H, bind_run.
  cbn [get_world outcome events final fst snd]. rewrite Hnr.
  by destruct (deadline <? _).
Qed.

Lemma upload_late fuel env name ups deadline w err :
  upload_answer env name ups w = Some err ->
  deadline < clock (after_upload env name ups w) ->
  uploadWithRetry (S fuel) env name ups deadline w =
  ([EvUploadFiles name ups (Some err); upload_failed err], after_upload env name ups w, Exit 1).
Proof.
  intros H Hlate. rewrite upload_attempt, H, bind_run.
  cbn [get_world outcome events final fst snd].
  apply Z.ltb_lt in Hlate. by rewrite Hlate.
Qed.

Lemma upload_retry fuel env name ups deadline w err :
  upload_answer env name ups w = Some err -> uploadNotReady env err = true ->
  clock (after_upload env name ups w) <= deadline ->
  uploadWithRetry (S fuel) env name ups deadline w =
  after_events [EvUploadFiles name ups (Some err); retrying; EvSleep 5000]
    (uploadWithRetry fuel env name ups deadline
       (advance 5000 (after_upload env name ups w))).
Proof.
  intros H Hnr Hin. rewrite upload_attempt, H, bind_run.
  cbn [get_world outcome events final fst snd]. rewrite Hnr.
  apply Z.ltb_ge in Hin. rewrite Hin.
  rewrite bind_run. cbn [println emit outcome events final fst snd].
  rewrite bind_run. by cbn.
Qed.

Lemma upload_retries n fuel env name ups deadline w :
  (n < fuel)%nat ->
  (forall k, (k < n)%nat ->
     exists err, upload_answer env name ups (after_retries env name ups k w) = Some err
                 /\ uploadNotReady env err = true) ->
  upload_answer env name ups (after_retries env name ups n w) = None ->
  clock (after_upload env name ups (after_retries env name ups n w)) <= deadline ->
  uploadWithRetry fuel env name ups deadline w =
  (retry_trace env name ups n w,
   after_upload env name ups (after_retries env name ups n w), Ret tt).
Proof.
  revert fuel w. induction n as [|n IH]; intros fuel w Hfuel Hrefused Hok Hin.
  - destruct fuel as [|fuel]; [lia|]. by rewrite upload_accepted.
  - destruct fuel as [|fuel]; [lia|].
    destruct (Hrefused 0%nat) as (err & Herr & Hnr); [lia|]. cbn [after_retries] in Herr.
    cbn [after_retries] in Hok, Hin.
    rewrite (upload_retry _ _ _ _ _ _ err); [|done..|].
    + rewrite (IH fuel); [|lia| |done..].
      * cbn [retry_trace]. by rewrite Herr.
      * intros k Hk. apply (Hrefused (S k)). lia.
    + etrans; [|exact Hin].
      etrans; [|apply clock_after_upload].
      etrans; [|apply clock_after_retries].
      cbn [advance set_clock clock]. lia.
Qed.

(** Under a deadline at most [5000 * fuel] ms away the transfer ends. *)
Lemma upload_settles fuel env name ups deadline w :
  deadline - clock w < 5000 * Z.of_nat fuel ->
  match outcome (uploadWithRetry (S fuel) env name ups deadline w) with
  | Ret _ => True
  | Exit code => code = 1
  | OutOfFuel => False
  end.
Proof.
  revert w. induction fuel as [|fuel IH]; intros w Hfuel.
  all: pose proof (clock_after_upload env name ups w) as Hclock.
  all: destruct (upload_answer env name ups w) as [err|] eqn:Hans;
    [|by rewrite upload_accepted].
  all: destruct (Z_lt_le_dec deadline (clock (after_upload env name ups w)));
    [by rewrite (upload_late _ _ _ _ _ _ err)|].
  - lia.
  - destruct (uploadNotReady env err) eqn:Hnr; [|by rewrite (upload_fatal _ _ _ _ _ _ err)].
    rewrite (upload_retry _ _ _ _ _ _ err) by done.
    unfold after_events. cbn [outcome snd]. apply IH.
    cbn [advance set_clock clock]. lia.
Qed.

Lemma uploadNotReady_iff env err :
  uploadNotReady env err = true <->
  strings_Contains (strings_ToLower env err) "503" = true
  \/ strings_Contains (strings_ToLower env err) "service unavailable" = true
  \/ strings_Contains (strings_ToLower env err) "upload pod not ready" = true.
Proof. unfold uploadNotReady. rewrite !orb_true_iff. tauto. Qed.

(** *** The artifact retriever *)

Lemma artifactNotReady_iff env resp :
  artifactNotReady env resp = true <->
  StatusCode resp = 503 \/ StatusCode resp = 409
  \/ strings_Contains (strings_ToLower env (strings_TrimSpace (Body resp))) "not ready" = true.
Proof.
  unfold artifactNotReady. rewrite !orb_true_iff, !Z.eqb_eq. tauto.
Qed.

Lemma clock_after_fetch env urlStr w : clock w <= clock (after_fetch env urlStr w).
Proof.
  unfold after_fetch, http_GetArtifact.
  cbn [final fst snd next_artifact advance set_clock clock].
  pose proof (within_nonneg 1800000 (remote_Artifact env (artifactCalls w) urlStr)). lia.
Qed.

Lemma fetch_timeout fuel env fl name outDir urlStr deadline warned w :
  deadline < clock w ->
  fetchArtifact (S fuel) env fl name outDir urlStr deadline warned w
  = ([], w, Ret (Some ErrArtifactTimeout)).
Proof.
  intros H. cbn [fetchArtifact]. rewrite bind_run.
  cbn [get_world outcome events final fst snd].
  apply Z.ltb_lt in H. by rewrite H.
Qed.

Lemma fetch_attempt fuel env fl name outDir urlStr deadline warned w :
  clock w <= deadline ->
  fetchArtifact (S fuel) env fl name outDir urlStr deadline warned w =
  after_events [fetched env urlStr w]
    (match fetch_answer env urlStr w with
     | Err _ =>
         time_Sleep 3000;;
         fetchArtifact fuel env fl name outDir urlStr deadline warned
     | Ok resp =>
         if StatusCode resp =? 200 then saveArtifact env fl name outDir resp
         else if artifactNotReady env resp then
           (if warned then mret tt else println "Artifact not ready yet. Waiting...");;
           time_Sleep 3000;;
           fetchArtifact fuel env fl name outDir urlStr deadline true
         else mret (Some (ErrHTTP (StatusCode resp) (strings_TrimSpace (Body resp))))
     end (after_fetch env urlStr w)).
Proof.
  intros H. cbn [fetchArtifact]. rewrite bind_run.
  cbn [get_world outcome events final fst snd].
  apply Z.ltb_ge in H. rewrite H. unfold after_events at 1. cbn [app].
  rewrite bind_run. reflexivity.
Qed.

Lemma fetch_not_ready fuel env fl name outDir urlStr deadline warned w resp :
  clock w <= deadline -> fetch_answer env urlStr w = Ok resp ->
  StatusCode resp <> 200 -> artifactNotReady env resp = true ->
  fetchArtifact (S fuel) env fl name outDir urlStr deadline warned w =
  after_events (fetched env urlStr w :: not_ready_notice warned ++ [EvSleep 3000])
    (fetchArtifact fuel env fl name outDir urlStr deadline true
       (advance 3000 (after_fetch env urlStr w))).
Proof.
  intros H Hans Hcode Hnr. rewrite fetch_attempt, Hans by done.
  apply Z.eqb_neq in Hcode. rewrite Hcode, Hnr.
  rewrite bind_run. destruct warned.
  - cbn [mret M_ret ret outcome events final fst snd].
    rewrite bind_run. by cbn.
  - cbn [println emit outcome events final fst snd].
    rewrite bind_run. by cbn.
Qed.

Lemma fetch_no_answer fuel env fl name outDir urlStr deadline warned w err :
  clock w <= deadline -> fetch_answer env urlStr w = Err err ->
  fetchArtifact (S fuel) env fl name outDir urlStr deadline warned w =
  after_events [fetched env urlStr w; EvSleep 3000]
    (fetchArtifact fuel env fl name outDir urlStr deadline warned
       (advance 3000 (after_fetch env urlStr w))).
Proof.
  intros H Hans. rewrite fetch_attempt, Hans by done.
  rewrite bind_run. by cbn.
Qed.

Lemma fetch_fatal fuel env fl name outDir urlStr deadline warned w resp :
  clock w <= deadline -> fetch_answer env urlStr w = Ok resp ->
  StatusCode resp <> 200 -> artifactNotReady env resp = false ->
  fetchArtifact (S fuel) env fl name outDir urlStr deadline warned w =
  ([fetched env urlStr w], after_fetch env urlStr w,
   Ret (Some (ErrHTTP (StatusCode resp) (strings_TrimSpace (Body resp))))).
Proof.
  intros H Hans Hcode Hnr. rewrite fetch_attempt, Hans by done.
  apply Z.eqb_neq in Hcode. by rewrite Hcode, Hnr.
Qed.

(** Answers the retriever waits on, one after the other, end in the timeout,
    which is reported once the clock is past the deadline. *)
Lemma fetch_waits_until_timeout fuel env fl name outDir urlStr deadline warned w :
  (forall k, waits_on env (within 1800000 (remote_Artifact env k urlStr)).2) ->
  deadline - clock w < 3000 * Z.of_nat fuel ->
  outcome (fetchArtifact (S fuel) env fl name outDir urlStr deadline warned w)
  = Ret (Some ErrArtifactTimeout)
  /\ deadline < clock (final (fetchArtifact (S fuel) env fl name outDir urlStr deadline warned w)).
Proof.
  intros Hwaits. revert warned w.
  induction fuel as [|fuel IH]; intros warned w Hfuel.
  - rewrite fetch_timeout by lia. split; [done|]. cbn. lia.
  - destruct (Z_lt_le_dec deadline (clock w)) as [Hlt|Hle].
    { rewrite fetch_timeout by done. split; [done|]. by cbn. }
    pose proof (clock_after_fetch env urlStr w) as Hclock.
    pose proof (Hwaits (artifactCalls w)) as Hw. fold (fetch_answer env urlStr w) in Hw.
    destruct (fetch_answer env urlStr w) as [resp|err] eqn:Hans.
    + destruct Hw as [Hcode Hnr].
      rewrite (fetch_not_ready _ _ _ _ _ _ _ _ _ resp) by done.
      unfold after_events. cbn [outcome final fst snd]. apply IH.
      cbn [advance set_clock clock]. lia.
    + rewrite (fetch_no_answer _ _ _ _ _ _ _ _ _ err) by done.
      unfold after_events. cbn [outcome final fst snd]. apply IH.
      cbn [advance set_clock clock]. lia.
Qed.

Lemma download_run fuel env fl baseURL name outDir w :
  can_make_dir env (outputDirOf outDir) (fs w) ->
  downloadArtifactViaAPI fuel env fl baseURL name outDir w =
  fetchArtifact fuel env fl name (outputDirOf outDir) (artifactURL env baseURL name)
    (clock w + 1800000) false
    (set_fs (<[outputDirOf outDir := Dir]> (fs w)) w).
Proof.
  intros Hdir. unfold downloadArtifactViaAPI. cbn zeta. rewrite bind_run.
  unfold os_MkdirAll. unfold can_make_dir in Hdir.
  destruct (fs w !! outputDirOf outDir) as [[data|]|] eqn:Hlook; [done| |rewrite Hdir].
  all: cbn [outcome events final fst snd]; rewrite bind_run.
  all: cbn [get_world outcome events final fst snd].
  all: unfold after_events; cbn [app events final outcome fst snd set_fs clock].
  all: by rewrite <- run_eta.
Qed.

(** *** What [saveArtifact] does to the two paths *)

Lemma append_length s t : String.length (s +:+ t) = (String.length s + String.length t)%nat.
Proof. induction s as [|c s IH]; [done|]. simpl. by rewrite IH. Qed.

Lemma partial_differs path : path +:+ ".partial" <> path.
Proof.
  intros H. apply (f_equal String.length) in H.
  rewrite append_length in H. simpl in H. lia.
Qed.

Lemma printArtifactHeaders_run h w :
  final (printArtifactHeaders h w) = w /\ outcome (printArtifactHeaders h w) = Ret tt.
Proof.
  unfold printArtifactHeaders. cbn zeta.
  rewrite final_bind, outcome_bind.
  assert (Hnote : forall (label key : string) w',
    let m := (if bool_decide (strings_TrimSpace (Header_Get h key) = "")
              then mret tt
              else print (label +:+ strings_TrimSpace (Header_Get h key) +:+ nl)) in
    final (m w') = w' /\ outcome (m w') = Ret tt).
  { intros label key w'. cbn zeta. by case_match. }
  destruct (Hnote "Artifact type: " "X-AIB-Artifact-Type" w) as [-> ->].
  rewrite final_bind, outcome_bind.
  destruct (Hnote "Compression: " "X-AIB-Compression" w) as [-> ->].
  apply Hnote.
Qed.

(** The stream is written to the partial file only; the final path changes
    only by the rename, which happens after the stream was read to its end.
    When the stream breaks, the partial file is removed and the final path is
    as it was; when the rename fails, the partial file stays. *)
Lemma saveArtifact_paths env fl name outDir resp w :
  let outPath := outPathOf env name outDir resp in
  let tmp := outPath +:+ ".partial" in
  let r := saveArtifact env fl name outDir resp w in
  match outcome r with
  | Ret (Some (ErrCreateTemp _)) => fs (final r) = fs w
  | Ret (Some (ErrCopy _)) =>
      BodyErr resp <> None
      /\ fs (final r) !! tmp = None /\ fs (final r) !! outPath = fs w !! outPath
  | Ret (Some (ErrRename _)) =>
      BodyErr resp = None
      /\ fs (final r) !! tmp = Some (File (Body resp))
      /\ fs (final r) !! outPath = fs w !! outPath
  | _ => BodyErr resp = None
  end.
Proof.
  cbn zeta. unfold saveArtifact. fold (outPathOf env name outDir resp).
  set (outPath := outPathOf env name outDir resp).
  pose proof (partial_differs outPath) as Hne.
  rewrite outcome_bind, final_bind.
  destruct (printArtifactHeaders_run (Header resp) w) as [-> ->].
  set (tmp := outPath +:+ ".partial") in *.
  unfold os_Create, file_Write, os_Remove, os_Rename, os_MkdirAll, extractTar, print,
    emit, modify.
  unfold mbind, M_bind, bind, mret, M_ret, ret, outcome, final.
  cbn [fst snd set_fs fs].
  repeat (case_match; simplify_eq/=); try done.
  all: repeat match goal with
         | H : <[?k:=_]> _ !! ?k = _ |- _ => rewrite lookup_insert_eq in H
         end; simplify_eq.
  all: split_and!; try done.
  all: rewrite ?lookup_delete_eq, ?lookup_insert_eq; try done.
  all: by rewrite ?lookup_delete_ne, ?lookup_insert_ne by done.
Qed.

(** *** After an artifact fetch the build command can only return *)

Lemma never_exits_bind {A B} (m : M A) (k : A -> M B) :
  never_exits m -> (forall a, never_exits (k a)) -> never_exits (m ≫= k).
Proof.
  intros Hm Hk w code. rewrite outcome_bind. specialize (Hm w).
  destruct (outcome (m w)); [apply Hk|by destruct (Hm code0)|done].
Qed.

Lemma never_exits_plain {A} (m : M A) :
  (forall w, exists a, outcome (m w) = Ret a) -> never_exits m.
Proof. intros H w code. destruct (H w) as [a ->]. done. Qed.

Ltac never_exits_step :=
  lazymatch goal with
  | |- never_exits (mbind _ _) => apply never_exits_bind; [|intros ?]
  | |- never_exits (match _ with _ => _ end) => case_match
  | |- never_exits (if _ then _ else _) => case_match
  | |- never_exits (let _ := _ in _) => cbn zeta
  | |- never_exits out_of_fuel => by intros ? ?
  | |- never_exits _ =>
      apply never_exits_plain; intros ?;
      unfold os_Create, os_Remove, os_Rename, os_MkdirAll, extractTar, file_Write,
        http_GetArtifact, time_Sleep, println, print, emit, modify, get_world;
      repeat case_match; by eexists
  end.

Lemma printArtifactHeaders_never_exits h : never_exits (printArtifactHeaders h).
Proof. unfold printArtifactHeaders. cbn zeta. repeat never_exits_step. Qed.

Lemma saveArtifact_never_exits env fl name outDir resp :
  never_exits (saveArtifact env fl name outDir resp).
Proof.
  unfold saveArtifact. cbn zeta.
  apply never_exits_bind; [apply printArtifactHeaders_never_exits|intros _].
  repeat never_exits_step.
Qed.

Lemma fetchArtifact_never_exits fuel env fl name outDir urlStr deadline warned :
  never_exits (fetchArtifact fuel env fl name outDir urlStr deadline warned).
Proof.
  revert warned. induction fuel as [|fuel IH]; intros warned; cbn [fetchArtifact].
  - by intros ? ?.
  - repeat first [ apply IH | apply saveArtifact_never_exits | never_exits_step ].
Qed.

Lemma downloadArtifactViaAPI_never_exits fuel env fl baseURL name outDir :
  never_exits (downloadArtifactViaAPI fuel env fl baseURL name outDir).
Proof.
  unfold downloadArtifactViaAPI. cbn zeta.
  repeat first [ apply fetchArtifact_never_exits | never_exits_step ].
Qed.

Lemma returns_after_fetch_never_exits {A} (m : M A) : never_exits m -> returns_after_fetch m.
Proof. intros H w _. apply H. Qed.

Lemma quiet_no_fetch {A} (m : M A) w :
  emits not_fetch m -> ~ Exists (fun e => is_fetch e = true) (events (m w)).
Proof.
  intros H Hex. specialize (H w).
  apply Exists_exists in Hex as (e & Hin & He).
  rewrite Forall_forall in H. apply H in Hin. unfold not_fetch in Hin. congruence.
Qed.

Lemma returns_after_fetch_quiet {A} (m : M A) : emits not_fetch m -> returns_after_fetch m.
Proof. intros H w Hex. by destruct (quiet_no_fetch m w H). Qed.

Lemma returns_after_fetch_bind {A B} (m : M A) (k : A -> M B) :
  emits not_fetch m -> (forall a, returns_after_fetch (k a)) ->
  returns_after_fetch (m ≫= k).
Proof.
  intros Hm Hk w. rewrite events_bind, outcome_bind. intros Hex code.
  apply Exists_app in Hex as [Hex|Hex].
  { by destruct (quiet_no_fetch m w Hm). }
  destruct (outcome (m w)); [by apply Hk|by apply Exists_nil in Hex..].
Qed.

(** No event of [m] is an artifact fetch, for the parts that are known to
    write only events of another kind. *)
Lemma quiet_of {A} (P : Event -> Prop) (m : M A) :
  (forall e, P e -> not_fetch e) -> emits P m -> emits not_fetch m.
Proof. apply emits_weaken. Qed.

Lemma followLogsOnce_logs env fl name u warned :
  emits log_event (followLogsOnce env fl name u warned).
Proof. unfold followLogsOnce, get_world, println, print, modify. emits_go. Qed.

Ltac quiet :=
  first
    [ apply emits_ret
    | apply emits_emit; reflexivity
    | apply emits_silent; intros ?;
      first [ reflexivity | apply selectTimeoutOrTick_silent ]
    | apply handleError_emits; intros ?; reflexivity
    | eapply quiet_of; [|apply prepareRequest_local]; by intros []
    | eapply quiet_of; [|apply uploadLocalFiles_uploads]; by intros []
    | eapply quiet_of; [|apply followLogsOnce_logs]; by intros []
    | intros ?; repeat constructor; reflexivity
    | case_match; first [ apply emits_emit; reflexivity | apply emits_ret ] ].

Lemma monitorLoop_returns_after_fetch fuel env fl name deadline u s :
  returns_after_fetch (monitorLoop fuel env fl name deadline u s).
Proof.
  revert s. induction fuel as [|fuel IH]; intros s; cbn [monitorLoop].
  - apply returns_after_fetch_quiet. intros w. constructor.
  - unfold print.
    repeat lazymatch goal with
      | |- returns_after_fetch (monitorLoop _ _ _ _ _ _ _) => apply IH
      | |- returns_after_fetch (mbind _ (downloadArtifactViaAPI _ _ _ _ _ _)) =>
          apply returns_after_fetch_never_exits, never_exits_bind;
          [apply downloadArtifactViaAPI_never_exits|intros ?; repeat never_exits_step]
      | |- returns_after_fetch (mbind _ _) =>
          apply returns_after_fetch_bind; [quiet|intros ?]
      | |- returns_after_fetch (match _ with _ => _ end) => case_match
      | |- returns_after_fetch (if _ then _ else _) => case_match
      | |- returns_after_fetch (let _ := _ in _) => cbn zeta
      | |- returns_after_fetch _ => apply returns_after_fetch_quiet; quiet
      end.
Qed.

(** Once [runBuild] has fetched the artifact, it does not leave the process
    through [os.Exit]: whatever the retrieval comes to, the command returns. *)
Lemma runBuild_returns_after_fetch fuel env fl :
  returns_after_fetch (runBuild fuel env fl).
Proof.
  unfold runBuild, waitForCompletion, or_die, print, println, get_world.
  repeat lazymatch goal with
    | |- returns_after_fetch (monitorLoop _ _ _ _ _ _ _) =>
        apply monitorLoop_returns_after_fetch
    | |- returns_after_fetch (mbind _ _) =>
        apply returns_after_fetch_bind; [quiet|intros ?]
    | |- returns_after_fetch (match _ with _ => _ end) => case_match
    | |- returns_after_fetch (if _ then _ else _) => case_match
    | |- returns_after_fetch _ => apply returns_after_fetch_quiet; quiet
    end.
Qed.

(** *** The transfer inside [uploadLocalFiles] *)

Lemma checkFilesExist_run localRefs w :
  checkFilesExist localRefs w =
  match first_missing (fs w) localRefs with
  | Some sourcePath => ([missing_file sourcePath], w, Exit 1)
  | None => ([], w, Ret tt)
  end.
Proof.
  induction localRefs as [|ref rest IH]; [done|].
  cbn [checkFilesExist first_missing]. rewrite bind_run. unfold os_Stat.
  cbn [outcome events final fst snd].
  destruct (fs w !! index_str ref "source_path") as [node|]; [|done].
  rewrite IH. by destruct (first_missing (fs w) rest).
Qed.

(** Once the files are there and the wait has returned, the transfer starts
    under a deadline of ten minutes from then. *)
Lemma uploadLocalFiles_transfer fuel env name text refs w :
  findLocalFileReferences env text = Ok refs -> refs <> [] ->
  first_missing (fs w) refs = None ->
  outcome (waitForUploadServer fuel env name (clock w + 600000) w) = Ret tt ->
  uploadLocalFiles fuel env name text w
  = after_events
      (waiting_for_uploads :: events (waitForUploadServer fuel env name (clock w + 600000) w))
      ((uploadWithRetry fuel env name (makeUploads refs)
          (clock (final (waitForUploadServer fuel env name (clock w + 600000) w)) + 600000);;
        println "Local files uploaded. Build will proceed.")
         (final (waitForUploadServer fuel env name (clock w + 600000) w))).
Proof.
  intros Hrefs Hsome Hfiles Hwait. unfold uploadLocalFiles. rewrite Hrefs.
  destruct refs as [|ref refs]; [done|]. cbn [length Nat.ltb Nat.leb].
  rewrite bind_run, checkFilesExist_run, Hfiles.
  cbn [outcome events final fst snd].
  rewrite bind_run. cbn [println emit outcome events final fst snd].
  rewrite bind_run. cbn [get_world outcome events final fst snd].
  rewrite bind_run, Hwait. cbn zeta.
  rewrite bind_run. cbn [get_world outcome events final fst snd].
  unfold after_events. cbn [app events final outcome fst snd].
  reflexivity.
Qed.

(** * The properties of the specification, one by one *)

(** C1 (amended): preprocessing rewrites nothing. When it accepts a manifest,
    the references are the [path] and [source_path] values of the entries
    that hold both as strings, unchanged and in order, and every recorded
    source path is a relative one, not anchored under any root; and a
    request that [runBuild] submits carries the text of the manifest file as
    it was read. *)
Theorem C1_references_verbatim_manifest_unchanged
    (fuel : nat) (env : Env) (fl : Flags) (w : World) (text : string)
    (refs : list (gmap string string))
    (Hfile : fs w !! manifest fl = Some (File text))
    (Hrefs : findLocalFileReferences env text = Ok refs) :
  (exists tree,
      yaml_Unmarshal env text = Ok tree
      /\ refs = map toRef (omap reference (addFileEntries tree)))
  /\ Forall (fun ref => filepath_IsAbs (index_str ref "source_path") = false) refs
  /\ (forall req r,
        EvCreateBuild req r ∈ events (runBuild fuel env fl w) ->
        req_Manifest req = text).
Proof.
  apply findLocalFileReferences_Ok in Hrefs as (tree & Hparse & -> & Hsafe).
  split_and!.
  - by exists tree.
  - apply Forall_map. eapply Forall_impl; [exact Hsafe|].
    intros [p sp] H. unfold toRef. simpl in *.
    rewrite index_mkRef_source_path. by apply isPathSafe_None in H as [? _].
  - intros req r Hin.
    pose proof (runBuild_events fuel env fl w) as Hall.
    rewrite Forall_forall in Hall. apply Hall in Hin as (prepared & Hout & -> & _).
    pose proof (prepareRequest_Ret env fl w) as Hpost. unfold post in Hpost.
    rewrite Hout in Hpost. destruct Hpost as (Hread & -> & _). congruence.
Qed.

Lemma C1_references_verbatim_manifest_unchanged_witness :
  (exists tree,
      yaml_Unmarshal radio_env radio_manifest = Ok tree
      /\ [mkRef "/etc/containers/systemd/radio.container" "radio.container"]
         = map toRef (omap reference (addFileEntries tree)))
  /\ Forall (fun ref => filepath_IsAbs (index_str ref "source_path") = false)
       [mkRef "/etc/containers/systemd/radio.container" "radio.container"]
  /\ (forall req r,
        EvCreateBuild req r ∈ events (runBuild 10 radio_env radio_flags w0) ->
        req_Manifest req = radio_manifest).
Proof.
  apply (C1_references_verbatim_manifest_unchanged 10 radio_env radio_flags w0).
  - vm_compute. reflexivity.
  - vm_compute. reflexivity.
Defined.

(** C1, as stated, fails on the manifest of the README: the relative
    [source_path] is recorded as it stands, not as an absolute path, and the
    request submitted carries the manifest text with that relative path. *)
Lemma C1_counterexample :
  findLocalFileReferences radio_env radio_manifest
  = Ok [mkRef "/etc/containers/systemd/radio.container" "radio.container"]
  /\ filepath_IsAbs
       (index_str (mkRef "/etc/containers/systemd/radio.container" "radio.container")
                  "source_path") = false
  /\ existsb (fun e => match e with
                       | EvCreateBuild req _ => bool_decide (req_Manifest req = radio_manifest)
                       | _ => false
                       end)
       (events (runBuild 10 radio_env radio_flags w0)) = true.
Proof. split_and!; vm_compute; reflexivity. Qed.

(** C2 (amended): a source path that contains [..], in an entry that holds
    [path] and [source_path] as strings, makes preprocessing fail with a
    validation error and [runBuild] leave with status 1. Preprocessing runs
    after the build was submitted: when the request could be prepared, the
    create-build call is the one call made to the API, and no other follows;
    when it could not, no call is made. *)
Theorem C2_traversal_rejected_after_submission
    (fuel : nat) (env : Env) (fl : Flags) (w : World) (text : string)
    (tree : gmap string any) (file : any) (path sourcePath : string)
    (Hfile : fs w !! manifest fl = Some (File text))
    (Hparse : yaml_Unmarshal env text = Ok tree)
    (Hentry : file ∈ addFileEntries tree)
    (Href : reference file = Some (path, sourcePath))
    (Hdots : strings_Contains sourcePath ".." = true) :
  isPathSafe sourcePath = Some (ErrTraversal sourcePath)
  /\ (exists e, findLocalFileReferences env text = Err (ErrPath e))
  /\ outcome (runBuild fuel env fl w) = Exit 1
  /\ List.filter is_api_call (events (runBuild fuel env fl w))
     = match outcome (prepareRequest env fl w) with
       | Ret prepared =>
           [EvCreateBuild prepared.1 (remote_CreateBuild env prepared.1).2]
       | _ => []
       end.
Proof.
  pose proof (isPathSafe_traversal _ Hdots) as Hsafe.
  assert (Hfail : exists e, findLocalFileReferences env text = Err (ErrPath e)).
  { eapply findLocalFileReferences_unsafe; eauto. by rewrite Hsafe. }
  split_and!; [done..| |].
  all: rewrite runBuild_run; cbn zeta.
  all: pose proof (prepareRequest_Ret env fl w) as Hpost; unfold post in Hpost.
  all: pose proof (prepareRequest_settles env fl w) as Hend.
  all: pose proof (local_event_not_api_call _ (prepareRequest_local env fl w)) as Hnet.
  all: destruct (outcome (prepareRequest env fl w)) as [prepared|code|] eqn:Hout;
    [|by subst|done].
  all: destruct Hpost as (Hread & _ & _).
  all: assert (prepared.2 = text) as Htext by congruence.
  all: destruct Hfail as [e Hfail].
  all: destruct ((remote_CreateBuild env prepared.1).2) as [resp|err]; [|try done].
  - by rewrite bind_run, Htext, (uploadLocalFiles_Err _ _ _ _ _ _ Hfail).
  - rewrite bind_run, Htext, (uploadLocalFiles_Err _ _ _ _ _ _ Hfail).
    unfold after_events. cbn [events outcome final fst snd].
    by rewrite !List.filter_app, Hnet.
  - cbn [events fst]. by rewrite !List.filter_app, Hnet.
Qed.

Lemma C2_traversal_rejected_after_submission_witness :
  isPathSafe "../motd" = Some (ErrTraversal "../motd")
  /\ (exists e, findLocalFileReferences radio_env traversal_manifest = Err (ErrPath e))
  /\ outcome (runBuild 10 radio_env traversal_flags w0) = Exit 1
  /\ List.filter is_api_call (events (runBuild 10 radio_env traversal_flags w0))
     = match outcome (prepareRequest radio_env traversal_flags w0) with
       | Ret prepared =>
           [EvCreateBuild prepared.1 (remote_CreateBuild radio_env prepared.1).2]
       | _ => []
       end.
Proof.
  apply (C2_traversal_rejected_after_submission 10 radio_env traversal_flags w0
           traversal_manifest traversal_tree (add_file "/etc/motd" "../motd")
           "/etc/motd" "../motd").
  - vm_compute. reflexivity.
  - vm_compute. reflexivity.
  - unfold addFileEntries. vm_compute. apply list_elem_of_here.
  - vm_compute. reflexivity.
  - vm_compute. reflexivity.
Defined.

(** C2, as stated, fails: on the manifest with [../motd] preprocessing fails
    with the traversal error, and the run has made a call to the API. *)
Lemma C2_counterexample :
  findLocalFileReferences radio_env traversal_manifest
  = Err (ErrPath (ErrTraversal "../motd"))
  /\ forallb (fun e => negb (is_api_call e))
       (events (runBuild 10 radio_env traversal_flags w0)) = false.
Proof. split; vm_compute; reflexivity. Qed.

(** C3 (the code departs from it): the build is Completed, the download was
    asked for and fails with an HTTP 500 answer; [runBuild] prints the
    failure and returns, so the process ends with status 0. The download
    command, on the same failure, ends with status 1. *)
Theorem C3_failed_download_after_build_exits_zero :
  outcome (runBuild 10 broken_artifact_env download_flags w_blank) = Ret tt
  /\ exit_status (outcome (runBuild 10 broken_artifact_env download_flags w_blank)) = Some 0
  /\ last (events (runBuild 10 broken_artifact_env download_flags w_blank))
     = Some (EvPrint ("Download via API failed: HTTP 500: boom" +:+ nl))
  /\ exit_status (outcome (runDownload 10 broken_artifact_env download_flags w_blank))
     = Some 1.
Proof. split_and!; vm_compute; reflexivity. Qed.

(** C4 (amended): with the allow-list empty, as it is in the source,
    [isPathSafe] refuses every absolute path (as the root, as a traversal
    when it holds [..], as lying outside the safe directories otherwise), and
    a manifest with an entry that holds [path] and an absolute [source_path]
    as strings fails preprocessing with a validation error. The check is
    made on those entries only. *)
Theorem C4_absolute_source_path_rejected
    (env : Env) (text : string) (tree : gmap string any) (file : any)
    (path sourcePath : string)
    (Hparse : yaml_Unmarshal env text = Ok tree)
    (Hentry : file ∈ addFileEntries tree)
    (Href : reference file = Some (path, sourcePath))
    (Habs : filepath_IsAbs sourcePath = true) :
  safeDirectories = []
  /\ isPathSafe sourcePath
     = Some (if bool_decide (sourcePath = "/") then ErrEmptyOrRoot
             else if strings_Contains sourcePath ".." then ErrTraversal sourcePath
             else ErrAbsoluteOutside sourcePath)
  /\ exists e, findLocalFileReferences env text = Err (ErrPath e)
               /\ is_validation_error (ErrPath e) = true.
Proof.
  pose proof (isPathSafe_absolute _ Habs) as Hsafe.
  split_and!; [done..|].
  destruct (findLocalFileReferences_unsafe env text tree file path sourcePath)
    as [e He]; try done.
  - by rewrite Hsafe.
  - by exists e.
Qed.

Lemma C4_absolute_source_path_rejected_witness :
  safeDirectories = []
  /\ isPathSafe "/home/user/hosts" = Some (ErrAbsoluteOutside "/home/user/hosts")
  /\ exists e, findLocalFileReferences radio_env absolute_manifest = Err (ErrPath e)
               /\ is_validation_error (ErrPath e) = true.
Proof.
  apply (C4_absolute_source_path_rejected radio_env absolute_manifest absolute_tree
           (add_file "/etc/hosts" "/home/user/hosts") "/etc/hosts" "/home/user/hosts").
  - vm_compute. reflexivity.
  - unfold addFileEntries. vm_compute. apply list_elem_of_here.
  - vm_compute. reflexivity.
  - vm_compute. reflexivity.
Defined.

(** C4, as stated, fails: the absolute source path [/etc/shadow] stands in
    an add-file entry whose [path] is a number; the entry is passed over,
    the path is never checked and preprocessing returns without an error,
    with no reference. The path itself is one that [isPathSafe] refuses. *)
Lemma C4_counterexample :
  yaml_Unmarshal radio_env numbered_manifest = Ok numbered_tree
  /\ addFileEntries numbered_tree = [numbered_entry]
  /\ assert_string (numbered_entry_field "source_path") = Some "/etc/shadow"
  /\ filepath_IsAbs "/etc/shadow" = true
  /\ isPathSafe "/etc/shadow" = Some (ErrAbsoluteOutside "/etc/shadow")
  /\ findLocalFileReferences radio_env numbered_manifest = Ok [].
Proof. split_and!; vm_compute; reflexivity. Qed.



(** C6: the transfer of [uploadLocalFiles] runs under a deadline of ten
    minutes from its start. A refused upload whose error text reads as not
    ready (lower-cased, it holds [503], [service unavailable] or [upload pod
    not ready]), while the deadline has not passed, is followed by the
    notice, a pause of five seconds and the next attempt, so [n] such
    refusals and then an accepted upload that arrives by the deadline make
    the step return; a refusal that does not read so ends the process with
    status 1 at once, with no pause and no further attempt, and so does a
    refusal that arrives after the deadline; under the ten-minute deadline
    the step ends within 122 attempts. *)
Theorem C6_upload_retried_until_deadline
    (n fuel : nat) (env : Env) (name : string) (ups : list Upload) (deadline : Z) (w : World) :
  (forall text refs,
      findLocalFileReferences env text = Ok refs -> refs <> [] ->
      first_missing (fs w) refs = None ->
      outcome (waitForUploadServer fuel env name (clock w + 600000) w) = Ret tt ->
      uploadLocalFiles fuel env name text w
      = after_events
          (waiting_for_uploads
           :: events (waitForUploadServer fuel env name (clock w + 600000) w))
          ((uploadWithRetry fuel env name (makeUploads refs)
              (clock (final (waitForUploadServer fuel env name (clock w + 600000) w))
               + 600000);;
            println "Local files uploaded. Build will proceed.")
             (final (waitForUploadServer fuel env name (clock w + 600000) w))))
  /\ ((n < fuel)%nat ->
      (forall k, (k < n)%nat ->
         exists err, upload_answer env name ups (after_retries env name ups k w) = Some err
                     /\ reads_not_ready env err) ->
      upload_answer env name ups (after_retries env name ups n w) = None ->
      clock (after_upload env name ups (after_retries env name ups n w)) <= deadline ->
      uploadWithRetry fuel env name ups deadline w
      = (retry_trace env name ups n w,
         after_upload env name ups (after_retries env name ups n w), Ret tt))
  /\ (forall fuel' w' err,
        upload_answer env name ups w' = Some err -> ~ reads_not_ready env err ->
        uploadWithRetry (S fuel') env name ups deadline w'
        = ([EvUploadFiles name ups (Some err); upload_failed err],
           after_upload env name ups w', Exit 1))
  /\ (forall fuel' w' err,
        upload_answer env name ups w' = Some err ->
        deadline < clock (after_upload env name ups w') ->
        uploadWithRetry (S fuel') env name ups deadline w'
        = ([EvUploadFiles name ups (Some err); upload_failed err],
           after_upload env name ups w', Exit 1))
  /\ (forall fuel' w',
        (121 <= fuel')%nat ->
        match outcome (uploadWithRetry (S fuel') env name ups (clock w' + 600000) w') with
        | Ret _ => True
        | Exit code => code = 1
        | OutOfFuel => False
        end).
Proof.
  split_and!.
  - intros text refs. apply uploadLocalFiles_transfer.
  - intros Hfuel Hrefused Haccepted Hintime. apply upload_retries; [done| |done..].
    intros k Hk. destruct (Hrefused k Hk) as (err & Hans & Hnr).
    exists err. split; [done|]. by apply uploadNotReady_iff.
  - intros fuel' w' err Hans Hnr. apply upload_fatal; [done|].
    destruct (uploadNotReady env err) eqn:Htest; [|done].
    by apply uploadNotReady_iff in Htest.
  - intros fuel' w' err. apply upload_late.
  - intros fuel' w' Hf. apply upload_settles. lia.
Qed.

Lemma C6_upload_retried_until_deadline_witness :
  uploadWithRetry 4 radio_env "my-build" radio_uploads 600000 w0
  = (retry_trace radio_env "my-build" radio_uploads 3 w0,
     after_upload radio_env "my-build" radio_uploads
       (after_retries radio_env "my-build" radio_uploads 3 w0), Ret tt)
  /\ uploadWithRetry 1 denying_env "my-build" radio_uploads 600000 w0
     = ([EvUploadFiles "my-build" radio_uploads (Some "HTTP 401 Unauthorized");
         upload_failed "HTTP 401 Unauthorized"],
        after_upload denying_env "my-build" radio_uploads w0, Exit 1)
  /\ uploadLocalFiles 10 radio_env "my-build" radio_manifest w0
     = after_events
         (waiting_for_uploads
          :: events (waitForUploadServer 10 radio_env "my-build" (clock w0 + 600000) w0))
         ((uploadWithRetry 10 radio_env "my-build" radio_uploads
             (clock (final (waitForUploadServer 10 radio_env "my-build"
                              (clock w0 + 600000) w0))
              + 600000);;
           println "Local files uploaded. Build will proceed.")
            (final (waitForUploadServer 10 radio_env "my-build" (clock w0 + 600000) w0))).
Proof.
  split_and!; [| |
    destruct (C6_upload_retried_until_deadline 0 10 radio_env "my-build" radio_uploads
                0 w0) as (Htransfer & _);
    apply (Htransfer radio_manifest
             [toRef ("/etc/containers/systemd/radio.container", "radio.container")]);
    [vm_compute; reflexivity|discriminate|vm_compute; reflexivity|vm_compute; reflexivity]].
  - destruct (C6_upload_retried_until_deadline 3 4 radio_env "my-build" radio_uploads
                600000 w0) as (_ & Hretried & _ & _ & _).
    apply Hretried.
    + lia.
    + intros k Hk. exists "HTTP 503 Service Unavailable".
      destruct k as [|[|[|k]]];
        [split; [vm_compute; reflexivity|left; vm_compute; reflexivity]..|lia].
    + vm_compute. reflexivity.
    + vm_compute. discriminate.
  - destruct (C6_upload_retried_until_deadline 0 0 denying_env "my-build" radio_uploads
                600000 w0) as (_ & _ & Hfatal & _ & _).
    apply Hfatal.
    + vm_compute. reflexivity.
    + intros [H|[H|H]]; vm_compute in H; discriminate.
Defined.

(** C7: an answer to the artifact fetch that is not 200 and carries status
    503 or 409, or a body that says not ready, is followed by a pause of
    three seconds and the next fetch; when the output directory is there or
    can be made and every answer is of that kind (or the fetch gets no
    answer), [downloadArtifactViaAPI] returns the timeout error, and does so
    once the clock is past its thirty-minute deadline; any other answer that
    is not 200 makes it return at once the error that carries the status
    code and the trimmed body. *)
Theorem C7_artifact_fetch_retry_timeout_fatal
    (fuel : nat) (env : Env) (fl : Flags) (baseURL name outDir : string) (w : World) :
  (forall urlStr deadline warned resp,
      clock w <= deadline -> fetch_answer env urlStr w = Ok resp ->
      StatusCode resp <> 200 ->
      StatusCode resp = 503 \/ StatusCode resp = 409
      \/ strings_Contains (strings_ToLower env (strings_TrimSpace (Body resp))) "not ready" = true ->
      fetchArtifact (S fuel) env fl name outDir urlStr deadline warned w
      = after_events (fetched env urlStr w :: not_ready_notice warned ++ [EvSleep 3000])
          (fetchArtifact fuel env fl name outDir urlStr deadline true
             (advance 3000 (after_fetch env urlStr w))))
  /\ ((601 <= fuel)%nat ->
      (forall k, waits_on env (within 1800000
                             (remote_Artifact env k (artifactURL env baseURL name))).2) ->
      can_make_dir env (outputDirOf outDir) (fs w) ->
      outcome (downloadArtifactViaAPI (S fuel) env fl baseURL name outDir w)
      = Ret (Some ErrArtifactTimeout)
      /\ clock w + 1800000
         < clock (final (downloadArtifactViaAPI (S fuel) env fl baseURL name outDir w))
      /\ DownloadError_Error ErrArtifactTimeout
         = "timed out waiting for artifact to become ready")
  /\ (forall urlStr deadline warned resp,
        clock w <= deadline -> fetch_answer env urlStr w = Ok resp ->
        StatusCode resp <> 200 -> artifactNotReady env resp = false ->
        fetchArtifact (S fuel) env fl name outDir urlStr deadline warned w
        = ([fetched env urlStr w], after_fetch env urlStr w,
           Ret (Some (ErrHTTP (StatusCode resp) (strings_TrimSpace (Body resp)))))
        /\ DownloadError_Error (ErrHTTP (StatusCode resp) (strings_TrimSpace (Body resp)))
           = "HTTP " +:+ fmt_d (StatusCode resp) +:+ ": " +:+ strings_TrimSpace (Body resp)).
Proof.
  split_and!.
  - intros urlStr deadline warned resp Hle Hans Hcode Hnr.
    apply (fetch_not_ready _ _ _ _ _ _ _ _ _ resp); [done..|].
    by apply artifactNotReady_iff.
  - intros Hfuel Hwaits Hdir. rewrite download_run by done.
    split_and!; [| |done].
    + apply fetch_waits_until_timeout; [done|]. cbn [set_fs clock]. lia.
    + apply (fetch_waits_until_timeout fuel env fl name (outputDirOf outDir)
               (artifactURL env baseURL name) (clock w + 1800000) false
               (set_fs (<[outputDirOf outDir:=Dir]> (fs w)) w)); [done|].
      cbn [set_fs clock]. lia.
  - intros urlStr deadline warned resp Hle Hans Hcode Hnr. split; [|done].
    by apply (fetch_fatal _ _ _ _ _ _ _ _ _ resp).
Qed.

Lemma C7_artifact_fetch_retry_timeout_fatal_witness :
  (outcome (downloadArtifactViaAPI 602 never_ready_env sample_flags
              "https://api.example" "my-build" "" w0)
   = Ret (Some ErrArtifactTimeout))
  /\ fetchArtifact 2 never_ready_env sample_flags "my-build" "./output"
       "https://api.example/v1/builds/my-build/artifact" 1800000 false w0
     = after_events
         (fetched never_ready_env "https://api.example/v1/builds/my-build/artifact" w0
          :: not_ready_notice false ++ [EvSleep 3000])
         (fetchArtifact 1 never_ready_env sample_flags "my-build" "./output"
            "https://api.example/v1/builds/my-build/artifact" 1800000 true
            (advance 3000
               (after_fetch never_ready_env
                  "https://api.example/v1/builds/my-build/artifact" w0)))
  /\ fetchArtifact 1 radio_env sample_flags "my-build" "./output"
       "https://api.example/v1/builds/my-build/artifact" 1800000 false w0
     = ([fetched radio_env "https://api.example/v1/builds/my-build/artifact" w0],
        after_fetch radio_env "https://api.example/v1/builds/my-build/artifact" w0,
        Ret (Some (ErrHTTP 500 "boom"))).
Proof.
  split_and!.
  - apply (C7_artifact_fetch_retry_timeout_fatal 601 never_ready_env sample_flags
             "https://api.example" "my-build" "" w0).
    + lia.
    + intros k. vm_compute. split; [discriminate|reflexivity].
    + vm_compute. reflexivity.
  - destruct (C7_artifact_fetch_retry_timeout_fatal 1 never_ready_env sample_flags
                "https://api.example" "my-build" "./output" w0) as (Hretry & _ & _).
    apply (Hretry "https://api.example/v1/builds/my-build/artifact" 1800000 false
             (mkResponse 503 ∅ "artifact not ready" None)).
    + vm_compute. discriminate.
    + vm_compute. reflexivity.
    + vm_compute. discriminate.
    + left. reflexivity.
  - destruct (C7_artifact_fetch_retry_timeout_fatal 0 radio_env sample_flags
                "https://api.example" "my-build" "./output" w0) as (_ & _ & Hfatal).
    apply (Hfatal "https://api.example/v1/builds/my-build/artifact" 1800000 false
             (mkResponse 500 ∅ "boom" None)).
    + vm_compute. discriminate.
    + vm_compute. reflexivity.
    + vm_compute. discriminate.
    + vm_compute. reflexivity.
Defined.

(** C8 (the code departs from it): the stream is read to its end into
    [output/disk.img.partial], and the rename onto [output/disk.img] fails
    because a directory stands there; [downloadArtifactViaAPI] returns the
    error of the rename and leaves the partial file behind. When the stream
    breaks instead, the partial file is removed. *)
Theorem C8_failed_rename_leaves_partial_file :
  outcome (downloadArtifactViaAPI 10 (image_env None) download_flags
             "https://api.example" "my-build" "" w_taken)
  = Ret (Some (ErrRename "rename output/disk.img.partial output/disk.img: file exists"))
  /\ fs (final (downloadArtifactViaAPI 10 (image_env None) download_flags
                  "https://api.example" "my-build" "" w_taken))
       !! "output/disk.img.partial" = Some (File "IMAGE")
  /\ outcome (downloadArtifactViaAPI 10 (image_env (Some "unexpected EOF")) download_flags
                "https://api.example" "my-build" "" w_taken)
     = Ret (Some (ErrCopy "unexpected EOF"))
  /\ fs (final (downloadArtifactViaAPI 10 (image_env (Some "unexpected EOF")) download_flags
                  "https://api.example" "my-build" "" w_taken))
       !! "output/disk.img.partial" = None.
Proof. split_and!; vm_compute; reflexivity. Qed.

(** C9: an upload that [runBuild] submits is the batch made from the
    references of the manifest file: one pair for each entry that holds
    [path] and [source_path] as strings, whose source and destination are
    both the entry's [source_path] as written. *)
Theorem C9_upload_destination_is_source_path
    (fuel : nat) (env : Env) (fl : Flags) (w : World)
    (name : string) (ups : list Upload) (r : option string)
    (Hev : EvUploadFiles name ups r ∈ events (runBuild fuel env fl w)) :
  exists text tree,
    fs w !! manifest fl = Some (File text)
    /\ yaml_Unmarshal env text = Ok tree
    /\ ups = map (fun ps => {| SourcePath := ps.2; DestPath := ps.2 |})
                (omap reference (addFileEntries tree))
    /\ Forall (fun u => DestPath u = SourcePath u) ups.
Proof.
  pose proof (runBuild_events fuel env fl w) as Hall.
  rewrite Forall_forall in Hall.
  apply Hall in Hev as (prepared & Hout & refs & Hrefs & ->).
  pose proof (prepareRequest_Ret env fl w) as Hpost. unfold post in Hpost.
  rewrite Hout in Hpost. destruct Hpost as (Hread & _ & _).
  apply findLocalFileReferences_Ok in Hrefs as (tree & Hparse & -> & _).
  exists prepared.2, tree. rewrite makeUploads_toRef. split_and!; [done..|].
  apply Forall_map. by apply Forall_true.
Qed.

Lemma C9_upload_destination_is_source_path_witness :
  exists text tree,
    fs w0 !! manifest radio_flags = Some (File text)
    /\ yaml_Unmarshal radio_env text = Ok tree
    /\ [{| SourcePath := "radio.container"; DestPath := "radio.container" |}]
       = map (fun ps => {| SourcePath := ps.2; DestPath := ps.2 |})
             (omap reference (addFileEntries tree))
    /\ Forall (fun u => DestPath u = SourcePath u)
         [{| SourcePath := "radio.container"; DestPath := "radio.container" |}].
Proof.
  apply (C9_upload_destination_is_source_path 10 radio_env radio_flags w0 "my-build"
           [{| SourcePath := "radio.container"; DestPath := "radio.container" |}] None).
  apply list_elem_of_In. vm_compute.
  repeat (first [left; reflexivity | right]).
Defined.

(** C10: an entry without a string [source_path] (one that names its file
    under [source], say), or without a string [path], or that is no map, is
    passed over: [processAddFiles] runs as if the entry were not in the list,
    so no check is made on it, no reference comes of it and no error. *)
Theorem C10_entry_without_source_path_skipped
    (file : any) (before after : list any) (localFiles : list (gmap string string))
    (Hlacks : lacks_reference file) :
  processAddFiles (before ++ file :: after) localFiles
  = processAddFiles (before ++ after) localFiles
  /\ processAddFiles [file] localFiles = Ok localFiles.
Proof.
  apply lacks_reference_None in Hlacks. split.
  - rewrite !processAddFiles_app.
    destruct (processAddFiles before localFiles); [|done].
    by rewrite processAddFiles_cons, Hlacks.
  - by rewrite processAddFiles_cons, Hlacks.
Qed.

Lemma C10_entry_without_source_path_skipped_witness :
  processAddFiles
    ([add_file "/etc/a" "a"] ++ source_entry "/etc/shadow" "../../etc/shadow"
                             :: [add_file "/etc/b" "b"]) []
  = processAddFiles ([add_file "/etc/a" "a"] ++ [add_file "/etc/b" "b"]) []
  /\ processAddFiles [source_entry "/etc/shadow" "../../etc/shadow"] [] = Ok [].
Proof.
  apply (C10_entry_without_source_path_skipped
           (source_entry "/etc/shadow" "../../etc/shadow")).
  left. vm_compute. reflexivity.
Defined.

(** * Further properties of the code *)

(** ** Strings: appending, reversing, trimming *)

Lemma append_cons c s t : String c s +:+ t = String c (s +:+ t).
Proof. reflexivity. Qed.

Lemma append_nil_l s : "" +:+ s = s.
Proof. reflexivity. Qed.

Lemma append_nil_r s : s +:+ "" = s.
Proof. induction s as [|c s IH]; [done|]. by rewrite append_cons, IH. Qed.

Lemma append_assoc s t u : (s +:+ t) +:+ u = s +:+ (t +:+ u).
Proof. induction s as [|c s IH]; [done|]. by rewrite !append_cons, IH. Qed.

Lemma rev_app_append s t : String.rev_app s t = String.rev s +:+ t.
Proof.
  revert t. induction s as [|c s IH]; intros t; [done|].
  unfold String.rev. cbn [String.rev_app].
  rewrite (IH (String c t)), (IH (String c "")), append_assoc. done.
Qed.

Lemma rev_cons c s : String.rev (String c s) = String.rev s +:+ String c "".
Proof. unfold String.rev at 1. cbn [String.rev_app]. apply rev_app_append. Qed.

Lemma rev_append s t : String.rev (s +:+ t) = String.rev t +:+ String.rev s.
Proof.
  induction s as [|c s IH].
  { change (String.rev "") with "". by rewrite append_nil_r. }
  by rewrite append_cons, !rev_cons, IH, append_assoc.
Qed.

Lemma rev_involutive s : String.rev (String.rev s) = s.
Proof.
  induction s as [|c s IH]; [done|].
  rewrite rev_cons, rev_append, IH. reflexivity.
Qed.

Lemma HasPrefix_append sub t : strings_HasPrefix (sub +:+ t) sub = true.
Proof.
  induction sub as [|c sub IH]; [by destruct t|].
  rewrite append_cons. cbn [strings_HasPrefix]. by rewrite Ascii.eqb_refl.
Qed.

Lemma Contains_cons c s sub :
  strings_Contains s sub = true -> strings_Contains (String c s) sub = true.
Proof. intros H. cbn [strings_Contains]. rewrite H. by case_match. Qed.

(** A string contains what stands in its middle. *)
Lemma Contains_middle a sub b : strings_Contains (a +:+ sub +:+ b) sub = true.
Proof.
  induction a as [|c a IH].
  - rewrite append_nil_l. apply HasPrefix_Contains, HasPrefix_append.
  - rewrite append_cons. by apply Contains_cons.
Qed.

Lemma HasPrefix_split s sub :
  strings_HasPrefix s sub = true -> exists t, s = sub +:+ t.
Proof.
  revert s. induction sub as [|c sub IH]; intros s H; [by exists s|].
  destruct s as [|d s]; [done|]. cbn [strings_HasPrefix] in H.
  destruct (Ascii.eqb c d) eqn:Hcd; [|done].
  apply Ascii.eqb_eq in Hcd as ->. destruct (IH _ H) as [t ->]. by exists t.
Qed.

(** And contains nothing else. *)
Lemma Contains_split s sub :
  strings_Contains s sub = true -> exists a b, s = a +:+ sub +:+ b.
Proof.
  induction s as [|c s IH]; cbn [strings_Contains].
  - destruct (strings_HasPrefix "" sub) eqn:Hp; [|done].
    intros _. apply HasPrefix_split in Hp as [t Ht]. by exists "", t.
  - destruct (strings_HasPrefix (String c s) sub) eqn:Hp.
    + intros _. apply HasPrefix_split in Hp as [t Ht]. by exists "", t.
    + intros H. destruct (IH H) as (a & b & ->). by exists (String c a), b.
Qed.

Lemma trim_left_idemp f s : trim_left f (trim_left f s) = trim_left f s.
Proof.
  induction s as [|c s IH]; [done|]. cbn [trim_left].
  destruct (f c) eqn:Hc; [done|]. cbn [trim_left]. by rewrite Hc.
Qed.

Lemma trim_left_suffix f s : exists p, s = p +:+ trim_left f s.
Proof.
  induction s as [|c s IH]; [by exists ""|]. cbn [trim_left].
  destruct (f c); [|by exists ""].
  destruct IH as [p Hp]. exists (String c p). by rewrite append_cons, <- Hp.
Qed.

(** A stable string stays stable when characters are cut from its end. *)
Lemma trim_left_stable_prefix f r q :
  trim_left f (r +:+ q) = r +:+ q -> trim_left f r = r.
Proof.
  destruct r as [|c r]; [done|]. rewrite append_cons. cbn [trim_left].
  destruct (f c); [|done].
  intros H. pose proof (trim_left_suffix f (r +:+ q)) as [p Hp].
  rewrite H in Hp. apply (f_equal String.length) in Hp.
  rewrite !append_length in Hp. cbn [String.length] in Hp.
  rewrite append_length in Hp. lia.
Qed.

Lemma trim_right_left_stable f a :
  trim_left f a = a -> trim_left f (trim_right f a) = trim_right f a.
Proof.
  intros Ha. unfold trim_right.
  destruct (trim_left_suffix f (String.rev a)) as [p Hp].
  apply (f_equal String.rev) in Hp. rewrite rev_involutive, rev_append in Hp.
  apply (trim_left_stable_prefix f _ (String.rev p)). by rewrite <- Hp.
Qed.

(** Runs of bytes stripped from the start: what is left is a suffix, has no
    run at its start, and stays so when it is cut at its end. *)
Lemma string_length_ind (P : string -> Prop) :
  (forall s, (forall s', (String.length s' < String.length s)%nat -> P s') -> P s) ->
  forall s, P s.
Proof.
  intros H s. remember (String.length s) as n eqn:Hn. revert s Hn.
  induction n as [n IH] using lt_wf_ind. intros s ->.
  apply H. intros s' Hlt. by apply (IH _ Hlt).
Qed.

Lemma trim_runs_suffix t1 t2 t3 s : exists p, s = p +:+ trim_runs t1 t2 t3 s.
Proof.
  induction s as [s IH] using string_length_ind.
  destruct s as [|a s1]; [by exists ""|]. cbn [trim_runs].
  destruct (t1 a).
  { destruct (IH s1) as [p Hp]; [cbn; lia|]. exists (String a p).
    rewrite append_cons. by f_equal. }
  destruct s1 as [|b s2]; [by exists ""|].
  destruct (t2 a b).
  { destruct (IH s2) as [p Hp]; [cbn; lia|]. exists (String a (String b p)).
    rewrite !append_cons. by do 2 f_equal. }
  destruct s2 as [|c s3]; [by exists ""|].
  destruct (t3 a b c); [|by exists ""].
  destruct (IH s3) as [p Hp]; [cbn; lia|]. exists (String a (String b (String c p))).
  rewrite !append_cons. by do 3 f_equal.
Qed.

Lemma trim_runs_length t1 t2 t3 s :
  (String.length (trim_runs t1 t2 t3 s) <= String.length s)%nat.
Proof.
  destruct (trim_runs_suffix t1 t2 t3 s) as [p Hp].
  rewrite Hp at 2. rewrite append_length. lia.
Qed.

Lemma trim_runs_idemp t1 t2 t3 s :
  trim_runs t1 t2 t3 (trim_runs t1 t2 t3 s) = trim_runs t1 t2 t3 s.
Proof.
  induction s as [s IH] using string_length_ind.
  destruct s as [|a s1]; [done|]. cbn [trim_runs].
  destruct (t1 a) eqn:H1; [apply IH; cbn; lia|].
  destruct s1 as [|b s2]; [cbn [trim_runs]; by rewrite H1|].
  destruct (t2 a b) eqn:H2; [apply IH; cbn; lia|].
  destruct s2 as [|c s3]; [cbn [trim_runs]; by rewrite H1, H2|].
  destruct (t3 a b c) eqn:H3; [apply IH; cbn; lia|].
  cbn [trim_runs]. by rewrite H1, H2, H3.
Qed.

Lemma trim_runs_shorter t1 t2 t3 s a rest :
  (String.length s <= String.length rest)%nat -> trim_runs t1 t2 t3 s <> String a rest.
Proof.
  intros Hlen Heq. pose proof (trim_runs_length t1 t2 t3 s) as Hle.
  rewrite Heq in Hle. cbn in Hle. lia.
Qed.

Lemma trim_runs_stable_prefix t1 t2 t3 r q :
  trim_runs t1 t2 t3 (r +:+ q) = r +:+ q -> trim_runs t1 t2 t3 r = r.
Proof.
  destruct r as [|a r1]; [done|]. rewrite append_cons. cbn [trim_runs].
  destruct (t1 a) eqn:H1.
  { intros H. by apply trim_runs_shorter in H. }
  destruct r1 as [|b r2]; [done|]. rewrite append_cons.
  destruct (t2 a b) eqn:H2.
  { intros H. apply trim_runs_shorter in H; [done|cbn; lia]. }
  destruct r2 as [|c r3]; [done|]. rewrite append_cons.
  destruct (t3 a b c) eqn:H3; [|done].
  intros H. apply trim_runs_shorter in H; [done|cbn; lia].
Qed.

Lemma trim_runs_right_left_stable t1 t2 t3 u1 u2 u3 a :
  trim_runs t1 t2 t3 a = a ->
  trim_runs t1 t2 t3 (String.rev (trim_runs u1 u2 u3 (String.rev a)))
  = String.rev (trim_runs u1 u2 u3 (String.rev a)).
Proof.
  intros Ha. destruct (trim_runs_suffix u1 u2 u3 (String.rev a)) as [p Hp].
  apply (f_equal String.rev) in Hp. rewrite rev_involutive, rev_append in Hp.
  apply (trim_runs_stable_prefix t1 t2 t3 _ (String.rev p)). by rewrite <- Hp.
Qed.

Lemma TrimSpace_idemp s : strings_TrimSpace (strings_TrimSpace s) = strings_TrimSpace s.
Proof.
  unfold strings_TrimSpace, trim_space_right, trim_space_left.
  rewrite (trim_runs_right_left_stable _ _ _ _ _ _ _ (trim_runs_idemp _ _ _ s)).
  by rewrite rev_involutive, trim_runs_idemp.
Qed.

(** ** Preprocessing: which manifests pass *)

Lemma processAddFiles_safe l localFiles :
  Forall (fun ps => isPathSafe ps.2 = None) (omap reference l) ->
  processAddFiles l localFiles = Ok (localFiles ++ map toRef (omap reference l)).
Proof.
  revert localFiles. induction l as [|file l IH]; intros localFiles HF.
  - simpl. by rewrite app_nil_r.
  - rewrite processAddFiles_cons. simpl in *.
    destruct (reference file) as [[path sourcePath]|]; [|by apply IH].
    apply Forall_cons in HF as [Hsafe HF]. simpl in Hsafe. rewrite Hsafe.
    rewrite IH by done. by rewrite <- app_assoc.
Qed.

Lemma isPathSafe_None_iff path :
  isPathSafe path = None <->
  path <> "" /\ filepath_IsAbs path = false /\ strings_Contains path ".." = false.
Proof.
  unfold isPathSafe, isPathSafeIn. split.
  - destruct (bool_decide (path = "")) eqn:He; [done|].
    apply bool_decide_eq_false in He.
    destruct (bool_decide (path = "/")); [done|]. simpl.
    destruct (strings_Contains path ".."); [done|].
    by destruct (filepath_IsAbs path).
  - intros (Hne & Habs & Hdots).
    rewrite bool_decide_eq_false_2 by done.
    destruct (bool_decide (path = "/")) eqn:Hroot.
    { apply bool_decide_eq_true in Hroot. by subst. }
    simpl. by rewrite Hdots, Habs.
Qed.

(** X1: [isPathSafe] accepts a path exactly when it is not empty, not
    absolute and holds no two dots in a row; the root path is absolute, and
    with the empty allow-list of the source no absolute path passes. *)
Theorem isPathSafe_accepts_iff (path : string) :
  isPathSafe path = None <->
  path <> "" /\ filepath_IsAbs path = false /\ strings_Contains path ".." = false.
Proof. apply isPathSafe_None_iff. Qed.

(** X2: [isPathSafe] looks for the two dots as a substring: a path with
    two dots in a row anywhere, also inside a file name, is rejected as a
    directory traversal. *)
Theorem isPathSafe_rejects_double_dot (before after : string) :
  isPathSafe (before +:+ ".." +:+ after)
  = Some (ErrTraversal (before +:+ ".." +:+ after)).
Proof. apply isPathSafe_traversal, Contains_middle. Qed.

(** X3: for a manifest that parses, [findLocalFileReferences] returns
    references exactly when every add-file entry that holds both [path] and
    [source_path] as strings has a source path that is not empty, not
    absolute and without two dots in a row. *)
Theorem preprocessing_accepts_iff
    (env : Env) (text : string) (tree : gmap string any)
    (Hparse : yaml_Unmarshal env text = Ok tree) :
  (exists refs, findLocalFileReferences env text = Ok refs) <->
  Forall (fun ps => ps.2 <> "" /\ filepath_IsAbs ps.2 = false
                    /\ strings_Contains ps.2 ".." = false)
         (omap reference (addFileEntries tree)).
Proof.
  unfold findLocalFileReferences. rewrite Hparse, findInTree_entries. split.
  - intros [refs Hrefs].
    destruct (processAddFiles (addFileEntries tree) []) as [l|e] eqn:Hrun; [|done].
    apply processAddFiles_Ok in Hrun as [_ HF].
    eapply Forall_impl; [exact HF|]. intros ps. apply isPathSafe_None_iff.
  - intros HF. rewrite (processAddFiles_safe _ []); [by eexists|].
    eapply Forall_impl; [exact HF|]. intros ps. apply isPathSafe_None_iff.
Qed.

Lemma preprocessing_accepts_iff_witness :
  (exists refs, findLocalFileReferences radio_env radio_manifest = Ok refs) <->
  Forall (fun ps => ps.2 <> "" /\ filepath_IsAbs ps.2 = false
                    /\ strings_Contains ps.2 ".." = false)
         (omap reference (addFileEntries radio_tree)).
Proof.
  apply (preprocessing_accepts_iff radio_env radio_manifest radio_tree).
  vm_compute. reflexivity.
Defined.

(** X4: [processAddFiles] stops at the first entry whose source path
    is not safe: after entries that are safe or skipped, the result is the
    error of that entry, whatever follows it and whatever was collected. *)
Theorem first_unsafe_entry_decides
    (before after : list any) (file : any) (path sourcePath : string) (e : PathError)
    (localFiles : list (gmap string string))
    (Hbefore : Forall (fun ps => isPathSafe ps.2 = None) (omap reference before))
    (Href : reference file = Some (path, sourcePath))
    (Hunsafe : isPathSafe sourcePath = Some e) :
  processAddFiles (before ++ file :: after) localFiles = Err e.
Proof.
  rewrite processAddFiles_app, (processAddFiles_safe _ _ Hbefore).
  by rewrite processAddFiles_cons, Href, Hunsafe.
Qed.

Lemma first_unsafe_entry_decides_witness :
  processAddFiles
    ([add_file "/etc/a" "a"] ++ add_file "/etc/b" "/b" :: [add_file "/etc/c" "../c"]) []
  = Err (ErrAbsoluteOutside "/b").
Proof.
  apply (first_unsafe_entry_decides [add_file "/etc/a" "a"] [add_file "/etc/c" "../c"]
           (add_file "/etc/b" "/b") "/etc/b" "/b").
  - vm_compute. repeat constructor.
  - vm_compute. reflexivity.
  - vm_compute. reflexivity.
Defined.

(** ** The upload stage: when it does nothing, when it stops early *)

Lemma uploadLocalFiles_no_references fuel env name text tree w :
  yaml_Unmarshal env text = Ok tree -> omap reference (addFileEntries tree) = [] ->
  findLocalFileReferences env text = Ok []
  /\ uploadLocalFiles fuel env name text w = ([], w, Ret tt).
Proof.
  intros Hparse Hnone.
  assert (Hrefs : findLocalFileReferences env text = Ok []).
  { unfold findLocalFileReferences. rewrite Hparse, findInTree_entries.
    rewrite (processAddFiles_safe _ []); rewrite Hnone; [done|constructor]. }
  split; [done|]. unfold uploadLocalFiles. by rewrite Hrefs.
Qed.

(** X5: for a manifest without a complete add-file entry the
    references are the empty list and the upload part of [runBuild] does
    nothing: no output, no request, the state unchanged. *)
Theorem no_references_no_upload_stage
    (fuel : nat) (env : Env) (name text : string) (tree : gmap string any) (w : World)
    (Hparse : yaml_Unmarshal env text = Ok tree)
    (Hnone : omap reference (addFileEntries tree) = []) :
  findLocalFileReferences env text = Ok []
  /\ uploadLocalFiles fuel env name text w = ([], w, Ret tt).
Proof. by apply uploadLocalFiles_no_references with tree. Qed.

Lemma no_references_no_upload_stage_witness :
  findLocalFileReferences radio_env plain_manifest = Ok []
  /\ uploadLocalFiles 10 radio_env "my-build" plain_manifest w0 = ([], w0, Ret tt).
Proof.
  apply (no_references_no_upload_stage 10 radio_env "my-build" plain_manifest plain_tree w0).
  - vm_compute. reflexivity.
  - vm_compute. reflexivity.
Defined.

(** X6: when a referenced file does not exist, the upload part of
    [runBuild] writes the error of the first missing one and leaves with
    status 1 before it asks the server anything. *)
Theorem missing_file_stops_before_polling
    (fuel : nat) (env : Env) (name text : string) (refs : list (gmap string string))
    (sourcePath : string) (w : World)
    (Hrefs : findLocalFileReferences env text = Ok refs)
    (Hmissing : first_missing (fs w) refs = Some sourcePath) :
  uploadLocalFiles fuel env name text w = ([missing_file sourcePath], w, Exit 1).
Proof.
  unfold uploadLocalFiles. rewrite Hrefs.
  destruct refs as [|ref refs]; [done|]. cbn [length Nat.ltb Nat.leb].
  rewrite bind_run, checkFilesExist_run, Hmissing. done.
Qed.

Lemma missing_file_stops_before_polling_witness :
  uploadLocalFiles 10 radio_env "my-build" radio_manifest w_no_radio
  = ([missing_file "radio.container"], w_no_radio, Exit 1).
Proof.
  apply (missing_file_stops_before_polling 10 radio_env "my-build" radio_manifest
           [mkRef "/etc/containers/systemd/radio.container" "radio.container"]).
  - vm_compute. reflexivity.
  - vm_compute. reflexivity.
Defined.

(** ** Before the request leaves *)

Lemma validateBuildRequirements_None fl :
  validateBuildRequirements fl = None <->
  manifest fl <> "" /\ buildName fl <> "" /\ strings_TrimSpace (architecture fl) <> "".
Proof.
  unfold validateBuildRequirements.
  repeat case_bool_decide; split; try done; intros (? & ? & ?); done.
Qed.

Lemma prepareRequest_invalid env fl w :
  manifest fl = "" \/ buildName fl = "" \/ strings_TrimSpace (architecture fl) = ""
  \/ serverURL fl = "" ->
  exists err, prepareRequest env fl w = ([error_line err], w, Exit 1).
Proof.
  intros H. unfold prepareRequest. rewrite bind_run.
  destruct (validateBuildRequirements fl) as [err|] eqn:Hv; [by exists err|].
  apply validateBuildRequirements_None in Hv as (Hm & Hn & Ha).
  destruct H as [?|[?|[?|Hs]]]; [done..|].
  cbn [mret M_ret ret outcome events final fst snd].
  rewrite bind_run, Hs. exists "--server is required". done.
Qed.

(** X7: without a manifest, without a name, with a blank architecture
    or with an empty server address, [runBuild] writes one error line and
    leaves with status 1; the kubeconfig is not read and no request is made. *)
Theorem invalid_flags_stop_before_anything
    (fuel : nat) (env : Env) (fl : Flags) (w : World)
    (Hinvalid : manifest fl = "" \/ buildName fl = ""
                \/ strings_TrimSpace (architecture fl) = "" \/ serverURL fl = "") :
  exists err, runBuild fuel env fl w = ([error_line err], w, Exit 1).
Proof.
  destruct (prepareRequest_invalid env fl w Hinvalid) as [err Hrun].
  exists err. unfold runBuild. by rewrite bind_run, Hrun.
Qed.

Lemma invalid_flags_stop_before_anything_witness :
  exists err, runBuild 10 radio_env no_name_flags w0 = ([error_line err], w0, Exit 1).
Proof.
  apply (invalid_flags_stop_before_anything 10 radio_env no_name_flags w0).
  right. left. reflexivity.
Defined.

(** ** The calls of a build *)

Lemma filter_api_none (P : Event -> Prop) evs :
  (forall e, P e -> is_api_call e = false) -> Forall P evs ->
  List.filter is_api_call evs = [].
Proof.
  intros HP. induction 1 as [|e evs He _ IH]; [done|].
  simpl. by rewrite (HP e He).
Qed.

Lemma after_submission_no_create fuel env fl name text w :
  Forall (fun e => is_create e = false)
    (events ((uploadLocalFiles fuel env name text;;
              waitForCompletion fuel env fl name) w)).
Proof.
  rewrite events_bind. apply Forall_app. split.
  - eapply Forall_impl; [apply uploadLocalFiles_uploads|]. by intros [].
  - destruct (outcome _); [|constructor..].
    eapply Forall_impl; [apply waitForCompletion_monitor|]. by intros [].
Qed.

Lemma filter_api_no_create evs :
  Forall (fun e => is_create e = false) evs ->
  Forall (fun e => is_create e = false) (List.filter is_api_call evs).
Proof.
  intros H. apply Forall_forall. intros e Hin.
  apply list_elem_of_In, List.filter_In in Hin as [Hin _].
  rewrite Forall_forall in H. by apply H, list_elem_of_In.
Qed.

(** X8: of the calls [runBuild] makes to the build API, the
    submission is the first, and there is no second submission. *)
Theorem create_build_is_first_and_only (fuel : nat) (env : Env) (fl : Flags) (w : World) :
  List.filter is_api_call (events (runBuild fuel env fl w)) = []
  \/ exists req r rest,
       List.filter is_api_call (events (runBuild fuel env fl w)) = EvCreateBuild req r :: rest
       /\ Forall (fun e => is_create e = false) rest.
Proof.
  rewrite runBuild_run. cbn zeta.
  pose proof (local_event_not_api_call _ (prepareRequest_local env fl w)) as Hnet.
  destruct (outcome (prepareRequest env fl w)) as [prepared|code|]; [|by left..].
  right. destruct ((remote_CreateBuild env prepared.1).2) as [resp|e].
  - unfold after_events. cbn [events fst].
    rewrite !List.filter_app, Hnet. cbn [List.filter is_api_call app].
    eexists _, _, _. split; [done|].
    apply filter_api_no_create, after_submission_no_create.
  - cbn [events fst]. rewrite !List.filter_app, Hnet. cbn.
    eexists _, _, _. split; [done|constructor].
Qed.

(** X9: when the server refuses the submission, [runBuild] leaves
    with status 1; the submission is its only call to the API and the last
    line it writes is the error of the server. *)
Theorem refused_submission_is_not_retried
    (fuel : nat) (env : Env) (fl : Flags) (w : World)
    (prepared : BuildRequest * string) (err : string)
    (Hready : outcome (prepareRequest env fl w) = Ret prepared)
    (Hrefused : (remote_CreateBuild env prepared.1).2 = Err err) :
  outcome (runBuild fuel env fl w) = Exit 1
  /\ List.filter is_api_call (events (runBuild fuel env fl w))
     = [EvCreateBuild prepared.1 (Err err)]
  /\ last (events (runBuild fuel env fl w)) = Some (error_line err).
Proof.
  rewrite runBuild_run. cbn zeta. rewrite Hready, Hrefused.
  pose proof (local_event_not_api_call _ (prepareRequest_local env fl w)) as Hnet.
  cbn [outcome events snd fst]. split_and!; [done| |].
  - by rewrite List.filter_app, Hnet.
  - by rewrite last_app.
Qed.

Lemma refused_submission_is_not_retried_witness :
  outcome (runBuild 10 refusing_env radio_flags w0) = Exit 1
  /\ List.filter is_api_call (events (runBuild 10 refusing_env radio_flags w0))
     = [EvCreateBuild radio_request (Err "409 Conflict: build already exists")]
  /\ last (events (runBuild 10 refusing_env radio_flags w0))
     = Some (error_line "409 Conflict: build already exists").
Proof.
  apply (refused_submission_is_not_retried 10 refusing_env radio_flags w0
           (radio_request, radio_manifest) "409 Conflict: build already exists").
  - vm_compute. reflexivity.
  - vm_compute. reflexivity.
Defined.

(** ** Leaving the process is always explained *)

Lemma dies_loudly_bind {A B} (m : M A) (k : A -> M B) :
  dies_loudly m -> (forall a, dies_loudly (k a)) -> dies_loudly (m ≫= k).
Proof.
  intros Hm Hk w. rewrite outcome_bind, events_bind. specialize (Hm w).
  destruct (outcome (m w)) as [a|code|]; [|by rewrite app_nil_r|done].
  specialize (Hk a (final (m w))).
  destruct (outcome (k a (final (m w)))); [done| |done].
  destruct Hk as [-> [err Hlast]]. split; [done|]. exists err.
  by rewrite last_app, Hlast.
Qed.

Lemma dies_loudly_handleError {A} err : dies_loudly (@handleError A err).
Proof. intros w. split; [done|]. by exists err. Qed.

Lemma dies_loudly_never_exits {A} (m : M A) : never_exits m -> dies_loudly m.
Proof.
  intros H w. specialize (H w). destruct (outcome (m w)); [done| |done].
  by destruct (H code).
Qed.

Ltac loud_step :=
  lazymatch goal with
  | |- dies_loudly (mbind _ _) => apply dies_loudly_bind; [|intros ?]
  | |- dies_loudly (handleError _) => apply dies_loudly_handleError
  | |- dies_loudly (match _ with _ => _ end) => case_match
  | |- dies_loudly (if _ then _ else _) => case_match
  | |- dies_loudly (let _ := _ in _) => cbn zeta
  | |- dies_loudly _ =>
      apply dies_loudly_never_exits; intros ? ?;
      unfold os_ReadFile, os_Stat, api_CreateBuild, api_GetBuild, api_UploadFiles,
        http_GetLogs, selectTimeoutOrTick, time_Sleep, println, print, emit, modify,
        get_world, out_of_fuel;
      repeat case_match; done
  end.

Lemma prepareRequest_loud env fl : dies_loudly (prepareRequest env fl).
Proof. unfold prepareRequest, or_die, resolveToken. repeat loud_step. Qed.

Lemma checkFilesExist_loud localRefs : dies_loudly (checkFilesExist localRefs).
Proof.
  induction localRefs as [|ref rest IH]; cbn [checkFilesExist];
    repeat first [ apply IH | loud_step ].
Qed.

Lemma waitForUploadServer_loud fuel env name deadline :
  dies_loudly (waitForUploadServer fuel env name deadline).
Proof.
  induction fuel as [|fuel IH]; cbn [waitForUploadServer];
    repeat first [ apply IH | loud_step ].
Qed.

Lemma uploadWithRetry_loud fuel env name ups deadline :
  dies_loudly (uploadWithRetry fuel env name ups deadline).
Proof.
  induction fuel as [|fuel IH]; cbn [uploadWithRetry];
    repeat first [ apply IH | loud_step ].
Qed.

Lemma uploadLocalFiles_loud fuel env name text :
  dies_loudly (uploadLocalFiles fuel env name text).
Proof.
  unfold uploadLocalFiles.
  repeat first [ apply checkFilesExist_loud | apply waitForUploadServer_loud
               | apply uploadWithRetry_loud | loud_step ].
Qed.

Lemma followLogsOnce_never_exits env fl name u warned :
  never_exits (followLogsOnce env fl name u warned).
Proof.
  unfold followLogsOnce.
  repeat lazymatch goal with
    | |- never_exits (mbind _ _) => apply never_exits_bind; [|intros ?]
    | |- never_exits (match _ with _ => _ end) => case_match
    | |- never_exits (if _ then _ else _) => case_match
    | |- never_exits (let _ := _ in _) => cbn zeta
    | |- never_exits _ =>
        intros ? ?; unfold http_GetLogs, println, print, emit, modify, get_world;
        repeat case_match; done
    end.
Qed.

Lemma monitorLoop_loud fuel env fl name deadline u s :
  dies_loudly (monitorLoop fuel env fl name deadline u s).
Proof.
  revert s. induction fuel as [|fuel IH]; intros s; cbn [monitorLoop].
  - by intros w.
  - repeat first
      [ apply IH
      | apply dies_loudly_never_exits, followLogsOnce_never_exits
      | apply dies_loudly_never_exits, downloadArtifactViaAPI_never_exits
      | loud_step ].
Qed.

(** X10: whenever [runBuild] leaves through [os.Exit], the status is 1
    and the last thing it wrote is a line of [handleError]. *)
Theorem build_exit_is_explained (fuel : nat) (env : Env) (fl : Flags) (w : World) (code : Z)
    (Hexit : outcome (runBuild fuel env fl w) = Exit code) :
  code = 1 /\ exists err, last (events (runBuild fuel env fl w)) = Some (error_line err).
Proof.
  assert (Hloud : dies_loudly (runBuild fuel env fl)).
  { unfold runBuild, waitForCompletion, or_die.
    repeat first [ apply prepareRequest_loud | apply uploadLocalFiles_loud
                 | apply monitorLoop_loud | loud_step ]. }
  specialize (Hloud w). by rewrite Hexit in Hloud.
Qed.

Lemma build_exit_is_explained_witness :
  1 = 1 /\ exists err,
    last (events (runBuild 10 radio_env traversal_flags w0)) = Some (error_line err).
Proof.
  apply (build_exit_is_explained 10 radio_env traversal_flags w0 1).
  vm_compute. reflexivity.
Defined.

(** ** A build nobody waits for *)

Lemma prepareRequest_followLogs env fl w :
  post (prepareRequest env fl) w (fun _ w' => followLogs w' = followLogs w).
Proof.
  unfold prepareRequest, or_die, resolveToken.
  repeat post_step. all: simplify_eq/=; done.
Qed.

(** X11: without the wait, follow and download flags and with a
    manifest without references, an accepted build makes [runBuild] return
    after the submission, its only call to the API. *)
Theorem unattended_build_returns_after_submission
    (fuel : nat) (env : Env) (fl : Flags) (w : World)
    (prepared : BuildRequest * string) (resp : BuildResponse) (tree : gmap string any)
    (Hready : outcome (prepareRequest env fl w) = Ret prepared)
    (Haccepted : (remote_CreateBuild env prepared.1).2 = Ok resp)
    (Hparse : yaml_Unmarshal env prepared.2 = Ok tree)
    (Hnone : omap reference (addFileEntries tree) = [])
    (Hwait : waitForBuild fl = false) (Hdownload : download fl = false)
    (Hfollow : followLogs w = false) :
  outcome (runBuild fuel env fl w) = Ret tt
  /\ List.filter is_api_call (events (runBuild fuel env fl w))
     = [EvCreateBuild prepared.1 (Ok resp)].
Proof.
  pose proof (prepareRequest_followLogs env fl w) as Hfl. unfold post in Hfl.
  rewrite Hready in Hfl.
  pose proof (local_event_not_api_call _ (prepareRequest_local env fl w)) as Hnet.
  rewrite runBuild_run. cbn zeta. rewrite Hready, Haccepted.
  rewrite bind_run.
  destruct (uploadLocalFiles_no_references fuel env (Name resp) prepared.2 tree
              (advance (Z.of_N (remote_CreateBuild env prepared.1).1)
                 (final (prepareRequest env fl w))) Hparse Hnone) as [_ ->].
  cbn [outcome events final fst snd]. unfold waitForCompletion.
  rewrite bind_run. cbn [get_world outcome events final fst snd advance set_clock followLogs].
  rewrite Hwait, Hdownload, Hfl, Hfollow. cbn [orb].
  unfold after_events. cbn [mret M_ret ret outcome events final fst snd].
  split; [done|]. by rewrite !app_nil_r, List.filter_app, Hnet.
Qed.

Lemma unattended_build_returns_after_submission_witness :
  outcome (runBuild 10 radio_env sample_flags w0) = Ret tt
  /\ List.filter is_api_call (events (runBuild 10 radio_env sample_flags w0))
     = [EvCreateBuild plain_request
          (Ok (mkBuildResponse "my-build" "Accepted" "build accepted"))].
Proof.
  apply (unattended_build_returns_after_submission 10 radio_env sample_flags w0
           (plain_request, plain_manifest)
           (mkBuildResponse "my-build" "Accepted" "build accepted") plain_tree).
  all: vm_compute; reflexivity.
Defined.

(** ** What a computation keeps *)

Lemma maintains_bind {A B} I P (m : M A) (k : A -> M B) :
  maintains I P m -> (forall a, maintains I P (k a)) -> maintains I P (m ≫= k).
Proof.
  intros Hm Hk w Hw. destruct (Hm w Hw) as [Hev Hfin].
  rewrite events_bind, final_bind.
  destruct (outcome (m w)) as [a| |]; [|by rewrite app_nil_r..].
  destruct (Hk a _ Hfin) as [Hev' Hfin']. split; [by apply Forall_app|done].
Qed.

Lemma maintains_ret {A} I P (a : A) : maintains I P (mret a).
Proof. intros w Hw. by split; [constructor|]. Qed.

Lemma maintains_get_world I P : maintains I P get_world.
Proof. intros w Hw. by split; [constructor|]. Qed.

Lemma maintains_emit I P e : P e -> maintains I P (emit e).
Proof. intros He w Hw. by split; [repeat constructor|]. Qed.

Lemma maintains_exit {A} I P code : maintains I P (@os_Exit A code).
Proof. intros w Hw. by split; [constructor|]. Qed.

Lemma maintains_out_of_fuel {A} I P : maintains I P (@out_of_fuel A).
Proof. intros w Hw. by split; [constructor|]. Qed.

(** One step through a computation; [prim] settles what is asked of the
    primitive actions. *)
Ltac maintains_step prim :=
  lazymatch goal with
  | |- maintains _ _ (mbind _ _) => apply maintains_bind; [|intros ?]
  | |- maintains _ _ (mret _) => apply maintains_ret
  | |- maintains _ _ get_world => apply maintains_get_world
  | |- maintains _ _ out_of_fuel => apply maintains_out_of_fuel
  | |- maintains _ _ (os_Exit _) => apply maintains_exit
  | |- maintains _ _ (handleError _) => unfold handleError
  | |- maintains _ _ (or_die _) => unfold or_die
  | |- maintains _ _ (print _) => apply maintains_emit; prim
  | |- maintains _ _ (println _) => apply maintains_emit; prim
  | |- maintains _ _ (emit _) => apply maintains_emit; prim
  | |- maintains _ _ (match _ with _ => _ end) => case_match
  | |- maintains _ _ (if _ then _ else _) => case_match
  | |- maintains _ _ (let _ := _ in _) => cbn zeta
  | |- maintains _ _ _ =>
      let w := fresh "w" in let Hw := fresh "Hw" in
      intros w Hw;
      unfold os_ReadFile, os_Stat, os_MkdirAll, os_Create, os_Remove, os_Rename,
        file_Write, extractTar, api_CreateBuild, api_GetBuild, api_UploadFiles,
        http_GetLogs, http_GetArtifact, selectTimeoutOrTick, time_Sleep, modify;
      repeat case_match; cbn [events final fst snd];
      (split; [repeat constructor|]); prim
  end.

(** The parts of the client keep whatever depends only on the token and the
    follow flag of the state, given that the two parts that write them do. *)
Section frame.
Variable I : World -> Prop.
Variable P : Event -> Prop.
Hypothesis I_frame : forall w w',
  authToken w' = authToken w -> followLogs w' = followLogs w -> I w -> I w'.
Hypothesis P_print : forall text, P (EvPrint text).
Hypothesis P_sleep : forall ms, P (EvSleep ms).
Hypothesis P_create : forall req r, P (EvCreateBuild req r).
Hypothesis P_poll : forall name r, P (EvGetBuild name r).
Hypothesis P_upload : forall name ups r, P (EvUploadFiles name ups r).
Hypothesis P_fetch : forall w url r, I w -> P (EvGetArtifact url (bearer w) r).
Hypothesis resolveToken_kept : forall env, maintains I P (resolveToken env).
Hypothesis followLogsOnce_kept : forall env fl name u warned,
  maintains I P (followLogsOnce env fl name u warned).

Ltac frame_prim :=
  first [ apply P_print | apply P_sleep | apply P_create | apply P_poll | apply P_upload
        | by apply P_fetch
        | assumption
        | by eapply I_frame; [| |eassumption] ].

Lemma prepareRequest_kept env fl : maintains I P (prepareRequest env fl).
Proof.
  unfold prepareRequest.
  repeat first [ apply resolveToken_kept | maintains_step frame_prim ].
Qed.

Lemma checkFilesExist_kept localRefs : maintains I P (checkFilesExist localRefs).
Proof.
  induction localRefs as [|ref rest IH]; cbn [checkFilesExist];
    repeat first [ apply IH | maintains_step frame_prim ].
Qed.

Lemma waitForUploadServer_kept fuel env name deadline :
  maintains I P (waitForUploadServer fuel env name deadline).
Proof.
  induction fuel as [|fuel IH]; cbn [waitForUploadServer];
    repeat first [ apply IH | maintains_step frame_prim ].
Qed.

Lemma uploadWithRetry_kept fuel env name ups deadline :
  maintains I P (uploadWithRetry fuel env name ups deadline).
Proof.
  induction fuel as [|fuel IH]; cbn [uploadWithRetry];
    repeat first [ apply IH | maintains_step frame_prim ].
Qed.

Lemma uploadLocalFiles_kept fuel env name text :
  maintains I P (uploadLocalFiles fuel env name text).
Proof.
  unfold uploadLocalFiles.
  repeat first [ apply checkFilesExist_kept | apply waitForUploadServer_kept
               | apply uploadWithRetry_kept | maintains_step frame_prim ].
Qed.

Lemma printArtifactHeaders_kept h : maintains I P (printArtifactHeaders h).
Proof. unfold printArtifactHeaders. repeat maintains_step frame_prim. Qed.

Lemma saveArtifact_kept env fl name outDir resp :
  maintains I P (saveArtifact env fl name outDir resp).
Proof.
  unfold saveArtifact.
  repeat first [ apply printArtifactHeaders_kept | maintains_step frame_prim ].
Qed.

Lemma fetchArtifact_kept fuel env fl name outDir urlStr deadline warned :
  maintains I P (fetchArtifact fuel env fl name outDir urlStr deadline warned).
Proof.
  revert warned. induction fuel as [|fuel IH]; intros warned; cbn [fetchArtifact];
    repeat first [ apply IH | apply saveArtifact_kept | maintains_step frame_prim ].
Qed.

Lemma downloadArtifactViaAPI_kept fuel env fl baseURL name outDir :
  maintains I P (downloadArtifactViaAPI fuel env fl baseURL name outDir).
Proof.
  unfold downloadArtifactViaAPI.
  repeat first [ apply fetchArtifact_kept | maintains_step frame_prim ].
Qed.

Lemma monitorLoop_kept fuel env fl name deadline u s :
  maintains I P (monitorLoop fuel env fl name deadline u s).
Proof.
  revert s. induction fuel as [|fuel IH]; intros s; cbn [monitorLoop];
    repeat first [ apply IH | apply followLogsOnce_kept
                 | apply downloadArtifactViaAPI_kept | maintains_step frame_prim ].
Qed.

Lemma runBuild_kept fuel env fl : maintains I P (runBuild fuel env fl).
Proof.
  unfold runBuild, waitForCompletion.
  repeat first [ apply prepareRequest_kept | apply uploadLocalFiles_kept
               | apply monitorLoop_kept | maintains_step frame_prim ].
Qed.

Lemma runDownload_kept fuel env fl : maintains I P (runDownload fuel env fl).
Proof.
  unfold runDownload.
  repeat first [ apply resolveToken_kept | apply downloadArtifactViaAPI_kept
               | maintains_step frame_prim ].
Qed.
End frame.

(** ** The token of the command line *)

Lemma resolveToken_given tok env :
  strings_TrimSpace tok <> "" ->
  maintains (fun w => authToken w = tok) (sends (strings_TrimSpace tok)) (resolveToken env).
Proof.
  intros Htok w Hw. unfold resolveToken. rewrite bind_run.
  cbn [get_world outcome events final fst snd]. rewrite Hw.
  rewrite bool_decide_eq_false_2 by done. by split; [constructor|].
Qed.

Lemma followLogsOnce_given tok env fl name u warned :
  maintains (fun w => authToken w = tok) (sends (strings_TrimSpace tok))
            (followLogsOnce env fl name u warned).
Proof.
  unfold followLogsOnce.
  repeat maintains_step ltac:(first [ exact I | assumption
                                    | by unfold bearer; f_equal ]).
Qed.

(** X12: with a token that is not blank in the state the command starts
    in, neither [runBuild] nor [runDownload] consults the kubeconfig, and
    every log and artifact request carries that token, trimmed. *)
Theorem given_token_is_the_one_sent (fuel : nat) (env : Env) (fl : Flags) (w : World)
    (Htoken : strings_TrimSpace (authToken w) <> "") :
  Forall (sends (strings_TrimSpace (authToken w))) (events (runBuild fuel env fl w))
  /\ Forall (sends (strings_TrimSpace (authToken w))) (events (runDownload fuel env fl w)).
Proof.
  assert (Hframe : forall w1 w2 : World,
             authToken w2 = authToken w1 -> followLogs w2 = followLogs w1 ->
             authToken w1 = authToken w -> authToken w2 = authToken w) by congruence.
  assert (Hfetch : forall (w1 : World) url r, authToken w1 = authToken w ->
             sends (strings_TrimSpace (authToken w)) (EvGetArtifact url (bearer w1) r)).
  { intros w1 url r Hw1. unfold bearer. by rewrite Hw1. }
  split.
  - apply (runBuild_kept _ _ Hframe); try done.
    + intros. by apply resolveToken_given.
    + intros. apply followLogsOnce_given.
  - apply (runDownload_kept _ _ Hframe); try done.
    intros. by apply resolveToken_given.
Qed.

Lemma given_token_is_the_one_sent_witness :
  Forall (sends "tok") (events (runBuild 10 kube_env download_flags w0))
  /\ Forall (sends "tok") (events (runDownload 10 kube_env download_flags w0)).
Proof.
  apply (given_token_is_the_one_sent 10 kube_env download_flags w0).
  vm_compute. discriminate.
Defined.

(** ** The token of the kubeconfig *)

Lemma first_token_trimmed candidates t :
  first_token candidates = Some t -> t <> "" /\ strings_TrimSpace t = t.
Proof.
  induction candidates as [|c rest IH]; [done|]. cbn [first_token].
  case_bool_decide as Hc; [done|]. intros [= <-]. split; [done|apply TrimSpace_idemp].
Qed.

(** X13: a token [loadTokenFromKubeconfig] returns is never empty and
    has no white space around it. *)
Theorem kubeconfig_token_is_trimmed (env : Env) (files : gmap string Node) (t : string)
    (Hfound : loadTokenFromKubeconfig env files = Ok t) :
  t <> "" /\ strings_TrimSpace t = t.
Proof.
  unfold loadTokenFromKubeconfig in Hfound.
  repeat case_match; simplify_eq; eauto using first_token_trimmed.
Qed.

Lemma kubeconfig_token_is_trimmed_witness :
  "sha256~abc" <> "" /\ strings_TrimSpace "sha256~abc" = "sha256~abc".
Proof.
  apply (kubeconfig_token_is_trimmed kube_env kube_files "sha256~abc").
  vm_compute. reflexivity.
Defined.

(** ** A wait that is over before it starts *)

(** The duration of the timeout is the product of the flag and a minute as
    long as that fits 64 bits; past that it wraps around. *)
Lemma timeoutDuration_exact fl :
  -153722867 <= timeout fl <= 153722867 ->
  timeoutDuration fl = timeout fl * 60000000000.
Proof.
  intros H. unfold timeoutDuration, wrap64.
  rewrite Z.mod_small; lia.
Qed.

Example timeoutDuration_wraps :
  timeoutDuration (wait_flags (-153722868) sample_flags) = 9223371993709551616
  /\ timeoutDuration (wait_flags 153722868 sample_flags) = -9223371993709551616.
Proof. split; vm_compute; reflexivity. Qed.




(** ** The artifact is fetched from a completed build only *)

Lemma fetch_guarded_true evs : fetch_guarded true evs = true.
Proof.
  induction evs as [|e evs IH]; [done|].
  cbn [fetch_guarded]. by rewrite orb_true_r, orb_true_l, IH.
Qed.

Lemma fetch_guarded_mono seen evs :
  fetch_guarded false evs = true -> fetch_guarded seen evs = true.
Proof. destruct seen; [intros _; apply fetch_guarded_true|done]. Qed.

Lemma fetch_guarded_app seen a b :
  fetch_guarded seen (a ++ b) =
  fetch_guarded seen a && fetch_guarded (seen || existsb observes_Completed a) b.
Proof.
  revert seen. induction a as [|e a IH]; intros seen.
  - simpl. by rewrite orb_false_r.
  - cbn [app fetch_guarded existsb]. rewrite IH, <- andb_assoc. by rewrite orb_assoc.
Qed.

Lemma fetch_guarded_no_fetch seen evs :
  Forall not_fetch evs -> fetch_guarded seen evs = true.
Proof.
  intros H. revert seen. induction H as [|e evs He _ IH]; intros seen; [done|].
  cbn [fetch_guarded]. unfold not_fetch in He. by rewrite He, IH.
Qed.

Lemma fetch_gated_true {A} (m : M A) : fetch_gated true m.
Proof. intros w. apply fetch_guarded_true. Qed.

Lemma fetch_gated_quiet {A} seen (m : M A) : emits not_fetch m -> fetch_gated seen m.
Proof. intros H w. apply fetch_guarded_no_fetch, H. Qed.

Lemma fetch_gated_bind {A B} seen (m : M A) (k : A -> M B) :
  fetch_gated seen m -> (forall a, fetch_gated seen (k a)) -> fetch_gated seen (m ≫= k).
Proof.
  intros Hm Hk w. rewrite events_bind, fetch_guarded_app, Hm. cbn [andb].
  destruct (outcome (m w)) as [a| |]; [|done..].
  specialize (Hk a (final (m w))). destruct seen; [apply fetch_guarded_true|].
  by apply fetch_guarded_mono.
Qed.

Lemma fetch_gated_poll {B} seen env limit name (k : result string BuildResponse -> M B) :
  (forall r, fetch_gated (seen || observes_Completed (EvGetBuild name r)) (k r)) ->
  fetch_gated seen (api_GetBuild env limit name ≫= k).
Proof.
  intros Hk w. rewrite events_bind.
  cbn [api_GetBuild outcome events final fst snd app fetch_guarded is_fetch negb orb andb].
  apply Hk.
Qed.

Ltac fetch_gated_step :=
  lazymatch goal with
  | |- fetch_gated true _ => apply fetch_gated_true
  | |- fetch_gated _ (mbind _ (api_GetBuild _ _ _)) =>
      apply fetch_gated_poll; intros [?|?]; cbn [orb observes_Completed]
  | |- fetch_gated _ (mbind _ _) => apply fetch_gated_bind; [|intros ?]
  | |- fetch_gated (bool_decide ?p) _ => destruct (bool_decide p) eqn:?
  | |- fetch_gated _ (match _ with _ => _ end) => case_match
  | |- fetch_gated _ (if _ then _ else _) => case_match
  | |- fetch_gated _ (let _ := _ in _) => cbn zeta
  | |- fetch_gated _ _ => apply fetch_gated_quiet; unfold print; quiet
  end.

Lemma resolveToken_no_fetch env : emits not_fetch (resolveToken env).
Proof.
  unfold resolveToken, modify, get_world.
  repeat first [ apply emits_bind; [|intros ?] | quiet | case_match ].
Qed.

Lemma monitorLoop_gated fuel env fl name deadline u s :
  fetch_gated false (monitorLoop fuel env fl name deadline u s).
Proof.
  revert s. induction fuel as [|fuel IH]; intros s; cbn [monitorLoop].
  - intros w. done.
  - repeat first [ apply IH | fetch_gated_step ].
Qed.

(** X15: in a run of [runBuild] or [runDownload] no artifact is fetched
    before a status poll has answered Completed. *)
Theorem artifact_fetched_only_once_completed (fuel : nat) (env : Env) (fl : Flags)
    (w : World) :
  fetch_guarded false (events (runBuild fuel env fl w)) = true
  /\ fetch_guarded false (events (runDownload fuel env fl w)) = true.
Proof.
  split.
  - revert w. change (fetch_gated false (runBuild fuel env fl)).
    unfold runBuild, waitForCompletion, or_die.
    repeat first [ apply monitorLoop_gated | fetch_gated_step ].
  - revert w. change (fetch_gated false (runDownload fuel env fl)).
    unfold runDownload.
    repeat first [ apply fetch_gated_quiet, resolveToken_no_fetch | fetch_gated_step ].
Qed.

(** ** Without the download flag, nothing is fetched *)

Lemma monitorLoop_no_fetch fuel env fl name deadline u s :
  download fl = false ->
  emits not_fetch (monitorLoop fuel env fl name deadline u s).
Proof.
  intros Hd. revert s. induction fuel as [|fuel IH]; intros s; cbn [monitorLoop].
  - intros w. constructor.
  - rewrite Hd. unfold print.
    repeat first [ apply IH | apply emits_bind; [|intros ?] | quiet | case_match ].
Qed.

(** X16: without the download flag [runBuild] fetches no artifact. *)
Theorem no_download_flag_no_fetch (fuel : nat) (env : Env) (fl : Flags) (w : World)
    (Hflag : download fl = false) :
  Forall not_fetch (events (runBuild fuel env fl w)).
Proof.
  revert w. change (emits not_fetch (runBuild fuel env fl)).
  unfold runBuild, waitForCompletion, or_die, print, println, get_world.
  repeat first [ apply monitorLoop_no_fetch; exact Hflag
               | quiet | apply emits_bind; [|intros ?] | case_match ].
Qed.

Lemma no_download_flag_no_fetch_witness :
  Forall not_fetch (events (runBuild 10 kube_env (wait_flags 60 sample_flags) w0)).
Proof.
  apply (no_download_flag_no_fetch 10 kube_env (wait_flags 60 sample_flags) w0).
  reflexivity.
Defined.

(** ** Without the follow flag, no log is asked for *)

Lemma followLogsOnce_unasked env fl name u warned :
  maintains (fun w => followLogs w = false) not_log (followLogsOnce env fl name u warned).
Proof.
  intros w Hw. unfold followLogsOnce. rewrite bind_run.
  cbn [get_world outcome events final fst snd]. rewrite Hw.
  by split; [constructor|].
Qed.

Lemma resolveToken_unasked env :
  maintains (fun w => followLogs w = false) not_log (resolveToken env).
Proof.
  unfold resolveToken.
  repeat maintains_step ltac:(first [ reflexivity | assumption ]).
Qed.

(** X17: when the follow flag is off at the start, [runBuild] never
    asks for the logs. *)
Theorem no_follow_flag_no_log_request (fuel : nat) (env : Env) (fl : Flags) (w : World)
    (Hflag : followLogs w = false) :
  Forall not_log (events (runBuild fuel env fl w)).
Proof.
  apply (runBuild_kept (fun w => followLogs w = false) not_log); try done.
  - congruence.
  - apply resolveToken_unasked.
  - apply followLogsOnce_unasked.
Qed.

Lemma no_follow_flag_no_log_request_witness :
  Forall not_log (events (runBuild 10 kube_env (wait_flags 60 sample_flags) w0)).
Proof.
  apply (no_follow_flag_no_log_request 10 kube_env (wait_flags 60 sample_flags) w0).
  reflexivity.
Defined.

(** ** A build that was waited for and returned has completed *)

Lemma completes_true {A} (m : M A) : completes true m.
Proof. intros w a _. by left. Qed.

Lemma completes_bind {A B} seen (m : M A) (k : A -> M B) :
  (forall a, completes seen (k a)) -> completes seen (m ≫= k).
Proof.
  intros Hk w b. rewrite outcome_bind, events_bind.
  destruct (outcome (m w)) as [a| |]; [|done..].
  intros Hb. destruct (Hk a _ _ Hb) as [->|Hex]; [by left|].
  right. apply Exists_app. by right.
Qed.

Lemma completes_poll {B} seen env limit name (k : result string BuildResponse -> M B) :
  (forall r, completes (seen || observes_Completed (EvGetBuild name r)) (k r)) ->
  completes seen (api_GetBuild env limit name ≫= k).
Proof.
  intros Hk w b. rewrite outcome_bind, events_bind.
  cbn [api_GetBuild outcome events final fst snd].
  intros Hb. destruct (Hk _ _ _ Hb) as [Hseen|Hex].
  - apply orb_true_iff in Hseen as [->|Hobs]; [by left|].
    right. by apply Exists_cons_hd.
  - right. by apply Exists_cons_tl.
Qed.

Lemma completes_handleError {A} seen err : completes seen (@handleError A err).
Proof. by intros w a. Qed.

Lemma completes_out_of_fuel {A} seen : completes seen (@out_of_fuel A).
Proof. by intros w a. Qed.

Lemma monitorLoop_completes fuel env fl name deadline u s :
  completes false (monitorLoop fuel env fl name deadline u s).
Proof.
  revert s. induction fuel as [|fuel IH]; intros s; cbn [monitorLoop].
  - apply completes_out_of_fuel.
  - repeat lazymatch goal with
      | |- completes true _ => apply completes_true
      | |- completes _ (monitorLoop _ _ _ _ _ _ _) => apply IH
      | |- completes _ (handleError _) => apply completes_handleError
      | |- completes _ (mbind _ (api_GetBuild _ _ _)) =>
          apply completes_poll; intros [?|?]; cbn [orb observes_Completed]
      | |- completes _ (mbind _ _) => apply completes_bind; intros ?
      | |- completes (bool_decide ?p) _ => destruct (bool_decide p) eqn:?
      | |- completes _ (match _ with _ => _ end) => case_match
      | |- completes _ (if _ then _ else _) => case_match
      | |- completes _ (let _ := _ in _) => cbn zeta
      end.
Qed.

Lemma returns_completed_bind {A B} fl (m : M A) (k : A -> M B) :
  maintains (asked fl) (fun _ => True) m -> (forall a, returns_completed fl (k a)) ->
  returns_completed fl (m ≫= k).
Proof.
  intros Hm Hk w b Hw. rewrite outcome_bind, events_bind.
  destruct (Hm w Hw) as [_ Hfin].
  destruct (outcome (m w)) as [a| |]; [|done..].
  intros Hb. apply Exists_app. right. by apply (Hk a _ b).
Qed.

Lemma resolveToken_asked fl env :
  maintains (asked fl) (fun _ => True) (resolveToken env).
Proof.
  unfold resolveToken.
  repeat maintains_step ltac:(first [ exact I | assumption ]).
Qed.

Lemma waitForCompletion_returns_completed fuel env fl name :
  returns_completed fl (waitForCompletion fuel env fl name).
Proof.
  intros w a Hw. unfold waitForCompletion. rewrite outcome_bind, events_bind.
  cbn [get_world outcome events final fst snd app]. unfold asked in Hw. rewrite Hw.
  rewrite outcome_bind, events_bind. cbn [println emit outcome events final fst snd].
  rewrite outcome_bind, events_bind. cbn [get_world outcome events final fst snd app].
  intros Hret. apply Exists_cons_tl.
  by destruct (monitorLoop_completes _ _ _ _ _ _ _ _ _ Hret).
Qed.

(** X18: when one of the wait, follow and download flags is set and
    [runBuild] returns, a status poll of the run has answered Completed. *)
Theorem waited_build_returns_only_completed (fuel : nat) (env : Env) (fl : Flags) (w : World)
    (Hasked : waitForBuild fl || followLogs w || download fl = true)
    (Hreturned : outcome (runBuild fuel env fl w) = Ret tt) :
  Exists (fun e => observes_Completed e = true) (events (runBuild fuel env fl w)).
Proof.
  assert (Hframe : forall w w' : World,
             authToken w' = authToken w -> followLogs w' = followLogs w ->
             asked fl w -> asked fl w').
  { unfold asked. intros w1 w2 _ Hf. by rewrite Hf. }
  apply (fun H : returns_completed fl (runBuild fuel env fl) => H w tt Hasked Hreturned).
  clear w Hasked Hreturned. unfold runBuild.
  repeat first
    [ apply waitForCompletion_returns_completed
    | apply returns_completed_bind; [|intros ?]
    | apply prepareRequest_kept; [done|intros; apply resolveToken_asked]
    | apply (uploadLocalFiles_kept _ _ Hframe); done
    | maintains_step ltac:(first [ exact I | assumption
                                 | by eapply Hframe; [| |eassumption] ]) ].
Qed.

Lemma waited_build_returns_only_completed_witness :
  Exists (fun e => observes_Completed e = true)
         (events (runBuild 10 kube_env (wait_flags 60 sample_flags) w0)).
Proof.
  apply (waited_build_returns_only_completed 10 kube_env (wait_flags 60 sample_flags) w0).
  - reflexivity.
  - vm_compute. reflexivity.
Defined.

(** ** Counting *)

Lemma count_app f a b : count f (a ++ b) = (count f a + count f b)%nat.
Proof. unfold count. by rewrite List.filter_app, length_app. Qed.

Lemma count_none f (P : Event -> Prop) evs :
  (forall e, P e -> f e = false) -> Forall P evs -> count f evs = 0%nat.
Proof.
  intros HP. unfold count. induction 1 as [|e evs He _ IH]; [done|].
  simpl. by rewrite (HP e He).
Qed.

Lemma count_after_events {A} f evs (r : list Event * World * Outcome A) :
  count f (events (after_events evs r)) = (count f evs + count f (events r))%nat.
Proof. unfold after_events. cbn [events fst]. apply count_app. Qed.

Lemma count_handleError {A} f err w :
  (forall text, f (EvPrint text) = false) ->
  count f (events (@handleError A err w)) = 0%nat.
Proof.
  intros Hf. change (events (@handleError A err w)) with [error_line err].
  unfold count, error_line. cbn. by rewrite Hf.
Qed.

Ltac count_eval :=
  rewrite ?count_handleError by done;
  unfold count, timed_out_waiting, failed_waiting, upload_failed, retrying, fetched in *;
  cbn [events final outcome fst snd List.filter is_poll is_upload is_fetch length
       mret M_ret ret out_of_fuel emit print println waitForUploadServer uploadWithRetry
       fetchArtifact];
  lia.

(** ** The readiness wait *)

Lemma not_yet_dec (r : result string BuildResponse) :
  {st | r = Ok st /\ Phase st = "Uploading"} + {st | r = Ok st /\ Phase st = "Failed"}
  + {not_yet r}.
Proof.
  destruct r as [st|err]; [|by right].
  destruct (decide (Phase st = "Uploading")) as [Hu|Hu]; [left; left; by exists st|].
  destruct (decide (Phase st = "Failed")) as [Hf|Hf]; [left; right; by exists st|].
  by right.
Qed.

Lemma wait_polls_bounded fuel env name deadline w n :
  deadline - clock w <= 3000 * Z.of_nat n ->
  (count is_poll (events (waitForUploadServer fuel env name deadline w)) <= n)%nat.
Proof.
  revert w n. induction fuel as [|fuel IH]; intros w n Hn; [count_eval|].
  destruct (Z_lt_le_dec (clock w) deadline) as [Hlt|Hge];
    [|rewrite wait_deadline by done; count_eval].
  destruct n as [|n]; [lia|].
  destruct (not_yet_dec (poll_answer env name w)) as [[(st & Hans & Hph)|(st & Hans & Hph)]|Hny].
  - rewrite (wait_Uploading _ _ _ _ _ st) by done. count_eval.
  - rewrite (wait_Failed _ _ _ _ _ st) by done. count_eval.
  - rewrite wait_not_yet, count_after_events by done.
    change (count is_poll [_; _]) with 1%nat.
    apply le_n_S, IH.
    pose proof (clock_after_poll env name w). cbn [advance set_clock clock]. lia.
Qed.

(** ** The transfer *)

Lemma upload_attempts_bounded fuel env name ups deadline w n :
  deadline - clock w < 5000 * Z.of_nat n ->
  (count is_upload (events (uploadWithRetry fuel env name ups deadline w)) <= S n)%nat.
Proof.
  revert w n. induction fuel as [|fuel IH]; intros w n Hn; [count_eval|].
  pose proof (clock_after_upload env name ups w) as Hclock.
  destruct (upload_answer env name ups w) as [err|] eqn:Hans;
    [|rewrite upload_accepted by done; count_eval].
  destruct (Z_lt_le_dec deadline (clock (after_upload env name ups w))) as [Hlate|Hin];
    [rewrite (upload_late _ _ _ _ _ _ err) by done; count_eval|].
  destruct (uploadNotReady env err) eqn:Hnr;
    [|rewrite (upload_fatal _ _ _ _ _ _ err) by done; count_eval].
  rewrite (upload_retry _ _ _ _ _ _ err), count_after_events by done.
  change (count is_upload [_; _; _]) with 1%nat.
  destruct n as [|n]; [lia|].
  apply le_n_S, IH. cbn [advance set_clock clock]. lia.
Qed.

Lemma checkFilesExist_count f localRefs w :
  (forall text, f (EvPrint text) = false) ->
  count f (events (checkFilesExist localRefs w)) = 0%nat.
Proof.
  intros Hf. rewrite checkFilesExist_run.
  destruct (first_missing _ _); [|done]. unfold missing_file, count. cbn. by rewrite Hf.
Qed.

(** X19: whatever the server answers and however fast, the upload part
    of [runBuild] makes at most 200 status polls and at most 122 upload
    requests (a pause lasts its three or five seconds, a call takes no
    negative time). *)
Theorem upload_stage_requests_are_bounded (fuel : nat) (env : Env) (name text : string)
    (w : World) :
  (count is_poll (events (uploadLocalFiles fuel env name text w)) <= 200)%nat
  /\ (count is_upload (events (uploadLocalFiles fuel env name text w)) <= 122)%nat.
Proof.
  unfold uploadLocalFiles.
  destruct (findLocalFileReferences env text) as [refs|e]; [|count_eval].
  destruct (0 <? length refs)%nat; [|count_eval].
  rewrite events_bind, !count_app, !checkFilesExist_count by done.
  destruct (outcome (checkFilesExist refs w)) as [[]| |]; [|count_eval..].
  set (w1 := final (checkFilesExist refs w)).
  rewrite events_bind. cbn [println emit outcome events final fst snd].
  rewrite events_bind. cbn [get_world outcome events final fst snd].
  rewrite events_bind, !count_app.
  pose proof (wait_polls_bounded fuel env name (clock w1 + 600000) w1 200
                ltac:(change (Z.of_nat 200) with 200; lia)) as Hpolls.
  pose proof (waitForUploadServer_polls fuel env name (clock w1 + 600000) w1) as Hwait.
  rewrite (count_none is_upload _ _ (fun e H => proj2 H) Hwait).
  change (count is_poll [_]) with 0%nat. change (count is_upload [_]) with 0%nat.
  change (count is_poll []) with 0%nat. change (count is_upload []) with 0%nat.
  destruct (outcome (waitForUploadServer fuel env name (clock w1 + 600000) w1))
    as [[]| |]; [|count_eval..].
  set (w2 := final (waitForUploadServer fuel env name (clock w1 + 600000) w1)).
  cbn zeta. rewrite events_bind. cbn [get_world outcome events final fst snd].
  rewrite events_bind, !count_app.
  pose proof (upload_attempts_bounded fuel env name (makeUploads refs)
                (clock w2 + 600000) w2 121
                ltac:(change (Z.of_nat 121) with 121; lia)) as Huploads.
  pose proof (uploadWithRetry_uploads fuel env name (makeUploads refs)
                (clock w2 + 600000) w2) as Hup.
  rewrite (count_none is_poll (uploads_of name (makeUploads refs)) _
             ltac:(by intros []) Hup).
  change (count is_poll []) with 0%nat. change (count is_upload []) with 0%nat.
  destruct (outcome (uploadWithRetry _ _ _ _ _ _)); unfold println; count_eval.
Qed.

(** ** The retrieval *)

Lemma saveArtifact_prints env fl name outDir resp :
  emits local_event (saveArtifact env fl name outDir resp).
Proof.
  unfold saveArtifact, printArtifactHeaders, file_Write, modify, print. emits_go.
Qed.

Lemma fetches_bounded fuel env fl name outDir urlStr deadline warned w n :
  deadline - clock w < 3000 * Z.of_nat n ->
  (count is_fetch (events (fetchArtifact fuel env fl name outDir urlStr deadline warned w))
   <= n)%nat.
Proof.
  revert w n warned. induction fuel as [|fuel IH]; intros w n warned Hn; [count_eval|].
  destruct (Z_lt_le_dec deadline (clock w)) as [Hlt|Hle];
    [rewrite fetch_timeout by done; count_eval|].
  destruct n as [|n]; [lia|].
  pose proof (clock_after_fetch env urlStr w) as Hclock.
  assert (Hnext : deadline - clock (advance 3000 (after_fetch env urlStr w))
                  < 3000 * Z.of_nat n) by (cbn [advance set_clock clock]; lia).
  destruct (fetch_answer env urlStr w) as [resp|err] eqn:Hans.
  - destruct (decide (StatusCode resp = 200)) as [Hcode|Hcode].
    + rewrite fetch_attempt, Hans, count_after_events by done.
      apply Z.eqb_eq in Hcode. rewrite Hcode.
      rewrite (count_none is_fetch local_event (events (saveArtifact _ _ _ _ _ _))).
      * count_eval.
      * by intros [].
      * apply saveArtifact_prints.
    + destruct (artifactNotReady env resp) eqn:Hnr.
      * rewrite (fetch_not_ready _ _ _ _ _ _ _ _ _ resp), count_after_events by done.
        replace (count is_fetch (fetched env urlStr w :: not_ready_notice warned ++ [EvSleep 3000]))
          with 1%nat by (by destruct warned).
        by apply le_n_S, IH.
      * rewrite (fetch_fatal _ _ _ _ _ _ _ _ _ resp) by done. count_eval.
  - rewrite (fetch_no_answer _ _ _ _ _ _ _ _ _ err), count_after_events by done.
    change (count is_fetch [_; _]) with 1%nat. by apply le_n_S, IH.
Qed.

(** X20: whatever the server answers, [downloadArtifactViaAPI] makes at
    most 601 requests for the artifact. *)
Theorem retrieval_requests_are_bounded (fuel : nat) (env : Env) (fl : Flags)
    (baseURL name outDir : string) (w : World) :
  (count is_fetch (events (downloadArtifactViaAPI fuel env fl baseURL name outDir w))
   <= 601)%nat.
Proof.
  unfold downloadArtifactViaAPI. cbn zeta. rewrite events_bind, count_app.
  rewrite os_MkdirAll_silent. change (count is_fetch []) with 0%nat.
  destruct (outcome (os_MkdirAll env (outputDirOf outDir) w)) as [[err|]| |];
    [count_eval| |count_eval..].
  rewrite events_bind. cbn [get_world outcome events final fst snd app].
  apply fetches_bounded. change (Z.of_nat 601) with 601. cbn [clock set_fs]. lia.
Qed.

(** The bounds are reached by a remote side that answers at once and never
    gets ready. *)
Example readiness_bound_is_reached :
  count is_poll (events (uploadLocalFiles 300 stalling_env "my-build" radio_manifest w0))
  = 200%nat.
Proof. vm_compute. reflexivity. Qed.

Example transfer_bound_is_reached :
  count is_upload
    (events (uploadLocalFiles 300
               (sample_env (fun _ => status "Uploading" "")
                           (fun _ => (0%N, Some "upload pod not ready"))
                           (fun _ => answer 503 "artifact not ready"))
               "my-build" radio_manifest w0))
  = 122%nat.
Proof. vm_compute. reflexivity. Qed.

Example retrieval_bound_is_reached :
  count is_fetch
    (events (downloadArtifactViaAPI 700 stalling_env sample_flags "https://api.example"
               "my-build" "" w0))
  = 601%nat.
Proof. vm_compute. reflexivity. Qed.

(** ** Where the artifact lands *)

Lemma saveArtifact_run env fl name outDir resp w :
  saveArtifact env fl name outDir resp w =
  after_events (events (printArtifactHeaders (Header resp) w))
    ((let outPath := outPathOf env name outDir resp in
      let tmp := outPath +:+ ".partial" in
      created ← os_Create env tmp;
      match created with
      | Some err => mret (Some (ErrCreateTemp err))
      | None =>
          file_Write tmp (Body resp);;
          match BodyErr resp with
          | Some copyErr => os_Remove tmp;; mret (Some (ErrCopy copyErr))
          | None =>
              print nl;;
              renamed ← os_Rename tmp outPath;
              match renamed with
              | Some err => mret (Some (ErrRename err))
              | None =>
                  print ("Artifact downloaded to " +:+ outPath +:+ nl);;
                  if isArchive env (Header_Get (Header resp) "Content-Type") outPath
                     && negb (compressArtifacts fl) then
                    made ← os_MkdirAll env (extractDirOf outPath);
                    match made with
                    | Some err => mret (Some (ErrCreateExtractDir err))
                    | None =>
                        extracted ← extractTar env outPath (extractDirOf outPath);
                        match extracted with
                        | Some err => mret (Some (ErrExtractTar err))
                        | None =>
                            print ("Extracted to " +:+ extractDirOf outPath +:+ nl);;
                            mret None
                        end
                    end
                  else mret None
              end
          end
      end) w).
Proof.
  unfold saveArtifact. cbn zeta. rewrite bind_run.
  destruct (printArtifactHeaders_run (Header resp) w) as [Hfin ->]. by rewrite Hfin.
Qed.



(** X22: when the partial file can be created and the stream breaks,
    [saveArtifact] returns the copy error and the file system is as before,
    except that nothing is at the partial path. *)
Theorem broken_stream_leaves_no_partial (env : Env) (fl : Flags) (name outDir : string)
    (resp : Response) (w : World) (copyErr : string)
    (Hstream : BodyErr resp = Some copyErr)
    (Htmp : can_create env (outPathOf env name outDir resp +:+ ".partial") (fs w)) :
  outcome (saveArtifact env fl name outDir resp w) = Ret (Some (ErrCopy copyErr))
  /\ fs (final (saveArtifact env fl name outDir resp w))
     = delete (outPathOf env name outDir resp +:+ ".partial") (fs w).
Proof.
  rewrite saveArtifact_run. cbn zeta.
  set (tmp := outPathOf env name outDir resp +:+ ".partial") in *.
  rewrite Hstream.
  unfold after_events. cbn [outcome final events fst snd].
  unfold os_Create, file_Write, os_Remove, modify.
  unfold mbind, M_bind, bind, mret, M_ret, ret, outcome, final, events.
  cbn [fst snd set_fs fs].
  destruct Htmp as [Htmp Hopen].
  destruct (fs w !! tmp) as [[data|]|] eqn:Htmp'; [|done|].
  all: rewrite Hopen; cbn [fst snd set_fs fs]; rewrite lookup_insert_eq.
  all: cbn [fst snd set_fs fs]; split; [done|].
  all: by rewrite !delete_insert_eq.
Qed.

Lemma broken_stream_leaves_no_partial_witness :
  outcome (saveArtifact (image_env (Some "unexpected EOF")) download_flags "my-build"
             "./output" (image_response (Some "unexpected EOF")) w_blank)
  = Ret (Some (ErrCopy "unexpected EOF"))
  /\ fs (final (saveArtifact (image_env (Some "unexpected EOF")) download_flags "my-build"
                  "./output" (image_response (Some "unexpected EOF")) w_blank))
     = delete (outPathOf (image_env (Some "unexpected EOF")) "my-build" "./output"
                 (image_response (Some "unexpected EOF")) +:+ ".partial") (fs w_blank).
Proof.
  apply (broken_stream_leaves_no_partial (image_env (Some "unexpected EOF")) download_flags
           "my-build" "./output" (image_response (Some "unexpected EOF")) w_blank
           "unexpected EOF").
  - reflexivity.
  - split; [vm_compute; discriminate|reflexivity].
Defined.

(** ** The name of the artifact *)

Lemma Trim_idemp s cutset :
  strings_Trim (strings_Trim s cutset) cutset = strings_Trim s cutset.
Proof.
  unfold strings_Trim.
  rewrite (trim_right_left_stable _ _ (trim_left_idemp _ s)).
  unfold trim_right. by rewrite rev_involutive, trim_left_idemp.
Qed.

(** X23: the file name of the artifact is never empty: it is
    [name.artifact], or a text that trimming quotes and blanks leaves as
    it is. *)
Theorem artifact_name_is_never_empty (name : string) (h : gmap string string) :
  artifactFilename name h <> ""
  /\ (artifactFilename name h = name +:+ ".artifact"
      \/ strings_Trim (artifactFilename name h) (dquote +:+ " ") = artifactFilename name h).
Proof.
  assert (Hdefault : name +:+ ".artifact" <> "").
  { intros H. apply (f_equal String.length) in H. rewrite append_length in H.
    cbn in H. lia. }
  unfold artifactFilename. cbn zeta.
  repeat case_match; try (split; [done|by left]).
  split; [by eapply bool_decide_eq_false_1|right; apply Trim_idemp].
Qed.

(** ** Where an archive is extracted to *)

Lemma substring_append a b : String.substring 0 (String.length a) (a +:+ b) = a.
Proof.
  induction a as [|c a IH]; [by destruct b|].
  rewrite append_cons. cbn [String.length String.substring]. by rewrite IH.
Qed.

Lemma HasSuffix_append a s : strings_HasSuffix (a +:+ s) s = true.
Proof. unfold strings_HasSuffix. rewrite rev_append. apply HasPrefix_append. Qed.

Lemma TrimSuffix_append a s : strings_TrimSuffix (a +:+ s) s = a.
Proof.
  unfold strings_TrimSuffix. rewrite HasSuffix_append, append_length.
  replace (String.length a + String.length s - String.length s)%nat with (String.length a)
    by lia.
  apply substring_append.
Qed.

(** X24: the directory an archive is extracted to: for [base.tar.gz] it
    is [base.tar], for [base.tar] it is [base] without a [.gz] suffix. *)
Theorem extract_dir_drops_one_suffix (base : string) :
  extractDirOf (base +:+ ".tar.gz") = base +:+ ".tar"
  /\ extractDirOf (base +:+ ".tar") = strings_TrimSuffix base ".gz".
Proof.
  unfold extractDirOf. split.
  - assert (Hno : strings_HasSuffix (base +:+ ".tar.gz") ".tar" = false).
    { unfold strings_HasSuffix. rewrite rev_append. reflexivity. }
    unfold strings_TrimSuffix at 2. rewrite Hno.
    change ".tar.gz" with (".tar" +:+ ".gz"). rewrite <- append_assoc.
    apply TrimSuffix_append.
  - by rewrite TrimSuffix_append.
Qed.



(** ** The notice of the retriever *)

Lemma saveArtifact_no_notice env fl name outDir resp w :
  count is_notice (events (saveArtifact env fl name outDir resp w)) = 0%nat.
Proof.
  apply (count_none is_notice
           (fun e => match e with
                     | EvPrint text =>
                         String.eqb text ("Artifact not ready yet. Waiting..." +:+ nl)
                         = false
                     | _ => True
                     end)).
  { intros [] H; done. }
  revert w. change (emits ?P (saveArtifact env fl name outDir resp)) with
    (emits P (saveArtifact env fl name outDir resp)).
  unfold saveArtifact, printArtifactHeaders, file_Write, modify, print, extractTar.
  repeat first
    [ apply emits_bind; [|intros ?]
    | apply emits_ret
    | apply emits_emit; reflexivity
    | apply emits_silent; intros ?;
      first [ reflexivity | apply os_MkdirAll_silent | apply os_Create_silent
            | apply os_Remove_silent | apply os_Rename_silent | by repeat case_match ]
    | case_match ].
Qed.

Lemma fetch_notices fuel env fl name outDir urlStr deadline warned w :
  (count is_notice (events (fetchArtifact fuel env fl name outDir urlStr deadline warned w))
   <= if warned then 0 else 1)%nat.
Proof.
  revert w warned. induction fuel as [|fuel IH]; intros w warned.
  { unfold count. cbn. destruct warned; lia. }
  destruct (Z_lt_le_dec deadline (clock w)) as [Hlt|Hle].
  { rewrite fetch_timeout by done. unfold count. cbn. destruct warned; lia. }
  destruct (fetch_answer env urlStr w) as [resp|err] eqn:Hans.
  - destruct (decide (StatusCode resp = 200)) as [Hcode|Hcode].
    + rewrite fetch_attempt, Hans, count_after_events by done.
      apply Z.eqb_eq in Hcode. rewrite Hcode, saveArtifact_no_notice.
      unfold count, fetched. cbn. destruct warned; lia.
    + destruct (artifactNotReady env resp) eqn:Hnr.
      * rewrite (fetch_not_ready _ _ _ _ _ _ _ _ _ resp), count_after_events by done.
        specialize (IH (advance 3000 (after_fetch env urlStr w)) true). cbv iota in IH.
        replace (count is_notice
                   (fetched env urlStr w :: not_ready_notice warned ++ [EvSleep 3000]))
          with (if warned then 0 else 1)%nat by (by destruct warned).
        destruct warned; lia.
      * rewrite (fetch_fatal _ _ _ _ _ _ _ _ _ resp) by done.
        unfold count, fetched. cbn. destruct warned; lia.
  - rewrite (fetch_no_answer _ _ _ _ _ _ _ _ _ err), count_after_events by done.
    specialize (IH (advance 3000 (after_fetch env urlStr w)) warned).
    change (count is_notice [_; _]) with 0%nat. lia.
Qed.

(** X26: a retrieval writes the notice that the artifact is not ready at
    most once. *)
Theorem not_ready_notice_at_most_once (fuel : nat) (env : Env) (fl : Flags)
    (baseURL name outDir : string) (w : World) :
  (count is_notice (events (downloadArtifactViaAPI fuel env fl baseURL name outDir w))
   <= 1)%nat.
Proof.
  unfold downloadArtifactViaAPI. cbn zeta. rewrite events_bind, count_app.
  rewrite os_MkdirAll_silent. change (count is_notice []) with 0%nat.
  destruct (outcome (os_MkdirAll env (outputDirOf outDir) w)) as [[err|]| |];
    [unfold count; cbn; lia| |unfold count; cbn; lia..].
  rewrite events_bind. cbn [get_world outcome events final fst snd app].
  apply (fetch_notices _ _ _ _ _ _ _ false).
Qed.

(** ** The download command *)

Lemma resolveToken_run env w :
  outcome (resolveToken env w) = Ret tt
  /\ statusCalls (final (resolveToken env w)) = statusCalls w
  /\ Forall local_event (events (resolveToken env w)).
Proof.
  unfold resolveToken. rewrite bind_run. cbn [get_world outcome events final fst snd].
  case_bool_decide; [|by split_and!; [..|constructor]].
  rewrite bind_run. cbn [emit outcome events final fst snd]. unfold after_events.
  repeat case_match; cbn; split_and!; try done; by repeat constructor.
Qed.

Lemma fetchArtifact_received fuel env fl name outDir urlStr deadline warned w :
  outcome (fetchArtifact fuel env fl name outDir urlStr deadline warned w) = Ret None ->
  Exists (fun e => received e = true)
         (events (fetchArtifact fuel env fl name outDir urlStr deadline warned w)).
Proof.
  revert w warned. induction fuel as [|fuel IH]; intros w warned; [done|].
  destruct (Z_lt_le_dec deadline (clock w)) as [Hlt|Hle].
  { by rewrite fetch_timeout. }
  destruct (fetch_answer env urlStr w) as [resp|err] eqn:Hans.
  - destruct (decide (StatusCode resp = 200)) as [Hcode|Hcode].
    + rewrite fetch_attempt, Hans by done.
      apply Z.eqb_eq in Hcode. rewrite Hcode. unfold after_events.
      cbn [outcome events fst snd]. intros Hret.
      pose proof (saveArtifact_paths env fl name outDir resp (after_fetch env urlStr w))
        as Hpaths. cbn zeta in Hpaths. rewrite Hret in Hpaths.
      apply Exists_cons_hd. unfold fetched. rewrite Hans. cbn [received].
      by rewrite Hcode, bool_decide_eq_true_2.
    + destruct (artifactNotReady env resp) eqn:Hnr.
      * rewrite (fetch_not_ready _ _ _ _ _ _ _ _ _ resp) by done.
        unfold after_events. cbn [outcome events fst snd]. intros Hret.
        apply Exists_app. right. by apply IH.
      * by rewrite (fetch_fatal _ _ _ _ _ _ _ _ _ resp).
  - rewrite (fetch_no_answer _ _ _ _ _ _ _ _ _ err) by done.
    unfold after_events. cbn [outcome events fst snd]. intros Hret.
    apply Exists_app. right. by apply IH.
Qed.

Lemma downloadArtifactViaAPI_received fuel env fl baseURL name outDir w :
  outcome (downloadArtifactViaAPI fuel env fl baseURL name outDir w) = Ret None ->
  Exists (fun e => received e = true)
         (events (downloadArtifactViaAPI fuel env fl baseURL name outDir w)).
Proof.
  unfold downloadArtifactViaAPI. cbn zeta. rewrite outcome_bind, events_bind.
  rewrite os_MkdirAll_silent.
  destruct (outcome (os_MkdirAll env (outputDirOf outDir) w)) as [[err|]| |]; [done| |done..].
  rewrite outcome_bind, events_bind. cbn [get_world outcome events final fst snd app].
  apply fetchArtifact_received.
Qed.

(** X27: when [runDownload] returns, the status poll has answered
    Completed and a request for the artifact was answered 200 with a stream
    that was read to its end. *)
Theorem download_returns_only_with_the_artifact (fuel : nat) (env : Env) (fl : Flags)
    (w : World)
    (Hreturned : outcome (runDownload fuel env fl w) = Ret tt) :
  Exists (fun e => observes_Completed e = true) (events (runDownload fuel env fl w))
  /\ Exists (fun e => received e = true) (events (runDownload fuel env fl w)).
Proof.
  revert Hreturned. unfold runDownload.
  rewrite outcome_bind, events_bind.
  case_bool_decide as Hserver; [done|].
  cbn [mret M_ret ret outcome events final fst snd app].
  rewrite outcome_bind, events_bind.
  destruct (resolveToken_run env w) as (-> & _ & _).
  set (w1 := final (resolveToken env w)).
  rewrite outcome_bind, events_bind.
  destruct (buildapiclient_New env (serverURL fl)); [done|].
  cbn [mret M_ret ret outcome events final fst snd app].
  rewrite outcome_bind, events_bind.
  cbn [api_GetBuild outcome events final fst snd].
  set (w2 := next_status _).
  destruct (remote_GetBuild env (statusCalls w1) (buildName fl)).2 as [st|err] eqn:Hst;
    [|done].
  case_bool_decide as Hphase; [|done].
  rewrite outcome_bind, events_bind.
  destruct (outcome (downloadArtifactViaAPI _ _ _ _ _ _ w2)) as [[err|]| |] eqn:Hdl;
    [done| |done..].
  intros _. split.
  - apply Exists_app. right. apply Exists_cons_hd. cbn. by rewrite bool_decide_eq_true_2.
  - apply Exists_app. right. apply Exists_cons_tl, Exists_app. left.
    by apply downloadArtifactViaAPI_received.
Qed.

Lemma download_returns_only_with_the_artifact_witness :
  Exists (fun e => observes_Completed e = true)
         (events (runDownload 10 (image_env None) download_flags w_blank))
  /\ Exists (fun e => received e = true)
            (events (runDownload 10 (image_env None) download_flags w_blank)).
Proof.
  apply (download_returns_only_with_the_artifact 10 (image_env None) download_flags w_blank).
  vm_compute. reflexivity.
Defined.

(** X28: on a build that is not completed, [runDownload] leaves with
    status 1 after its single call to the API, the status poll, and its last
    line tells the phase. *)
Theorem download_refused_unless_completed (fuel : nat) (env : Env) (fl : Flags) (w : World)
    (st : BuildResponse)
    (Hserver : strings_TrimSpace (serverURL fl) <> "")
    (Hclient : buildapiclient_New env (serverURL fl) = None)
    (Hstatus : (remote_GetBuild env (statusCalls w) (buildName fl)).2 = Ok st)
    (Hphase : Phase st <> "Completed") :
  outcome (runDownload fuel env fl w) = Exit 1
  /\ List.filter is_api_call (events (runDownload fuel env fl w))
     = [EvGetBuild (buildName fl) (Ok st)]
  /\ last (events (runDownload fuel env fl w))
     = Some (not_completed (buildName fl) (Phase st)).
Proof.
  unfold runDownload.
  rewrite ?outcome_bind, ?events_bind.
  rewrite bool_decide_eq_false_2 by done.
  cbn [mret M_ret ret outcome events final fst snd app].
  rewrite ?outcome_bind, ?events_bind.
  destruct (resolveToken_run env w) as (-> & Hcalls & Hlocal).
  rewrite ?outcome_bind, ?events_bind, Hclient.
  cbn [mret M_ret ret outcome events final fst snd app].
  rewrite ?outcome_bind, ?events_bind.
  cbn [api_GetBuild outcome events final fst snd]. rewrite Hcalls, Hstatus.
  rewrite bool_decide_eq_false_2 by done.
  rewrite ?outcome_bind, ?events_bind.
  cbn [print emit os_Exit outcome events final fst snd].
  split_and!; [done| |].
  - rewrite List.filter_app, (local_event_not_api_call _ Hlocal). done.
  - by rewrite last_app.
Qed.

Lemma download_refused_unless_completed_witness :
  outcome (runDownload 10 radio_env download_flags w0) = Exit 1
  /\ List.filter is_api_call (events (runDownload 10 radio_env download_flags w0))
     = [EvGetBuild "my-build" (Ok (mkBuildResponse "my-build" "Accepted" ""))]
  /\ last (events (runDownload 10 radio_env download_flags w0))
     = Some (not_completed "my-build" "Accepted").
Proof.
  apply (download_refused_unless_completed 10 radio_env download_flags w0
           (mkBuildResponse "my-build" "Accepted" "")).
  - vm_compute. discriminate.
  - reflexivity.
  - reflexivity.
  - vm_compute. discriminate.
Defined.

(** ** Measuring *)

Lemma count_runes_ascii fuel s :
  is_ascii s = true -> (String.length s <= fuel)%nat -> count_runes fuel s = String.length s.
Proof.
  revert s. induction fuel as [|fuel IH]; intros [|c s] Hs Hfuel; cbn in *; try done; [lia|].
  apply andb_true_iff in Hs as [Hc Hs].
  assert (Hwidth : rune_width c s = 1%nat).
  { unfold rune_width. cbn zeta.
    replace (N_of_ascii c <? 194)%N with true; [done|].
    symmetry. apply N.ltb_lt. apply N.ltb_lt in Hc. lia. }
  rewrite Hwidth. cbn [Nat.sub skip]. rewrite IH; [done..|lia].
Qed.

Lemma RuneCount_ascii s : is_ascii s = true -> utf8_RuneCountInString s = String.length s.
Proof. intros Hs. by apply count_runes_ascii. Qed.

Lemma spaces_length n : String.length (spaces n) = n.
Proof. induction n as [|n IH]; [done|]. cbn. by rewrite IH. Qed.

Lemma fmt_left_length width s :
  is_ascii s = true -> (String.length s <= width)%nat ->
  String.length (fmt_left width s) = width.
Proof.
  intros Hs Hw. unfold fmt_left.
  rewrite append_length, spaces_length, RuneCount_ascii by done. lia.
Qed.

Lemma fmt_left_keeps width s : strings_HasPrefix (fmt_left width s) s = true.
Proof. apply HasPrefix_append. Qed.

Lemma list_row_length it : fits it -> String.length (list_row it) = String.length list_header.
Proof.
  intros (? & ? & ? & ? & ? & ? & ? & ?). unfold list_row, list_line.
  rewrite !append_length, !fmt_left_length by done. reflexivity.
Qed.

Lemma print_rows_run items w :
  print_rows items w = (map (fun it => EvPrint (list_row it)) items, w, Ret tt).
Proof.
  induction items as [|it rest IH]; [done|]. cbn [print_rows].
  rewrite bind_run. cbn [print emit outcome events final fst snd].
  rewrite IH. reflexivity.
Qed.

Lemma runList_listing env fl listing w :
  strings_TrimSpace (serverURL fl) <> "" -> buildapiclient_New env (serverURL fl) = None ->
  runList env fl listing w =
  after_events (events (resolveToken env w))
    (match listing.2 with
     | Err err => print ("Error listing ImageBuilds: " +:+ err +:+ nl);; os_Exit 1
     | Ok items =>
         if (length items =? 0)%nat then println "No ImageBuilds found"
         else print list_header;; print_rows items
     end (advance (Z.of_N listing.1) (final (resolveToken env w)))).
Proof.
  intros Hserver Hclient. unfold runList.
  rewrite bind_run, bool_decide_eq_false_2 by done.
  cbn [mret M_ret ret outcome events final fst snd]. unfold after_events at 1.
  cbn [app events final outcome fst snd].
  rewrite bind_run. destruct (resolveToken_run env w) as (-> & _ & _).
  rewrite bind_run, Hclient. cbn [mret M_ret ret outcome events final fst snd].
  unfold after_events at 2. cbn [app events final outcome fst snd].
  rewrite bind_run. cbn [modify outcome events final fst snd].
  unfold after_events at 2. cbn [app events final outcome fst snd].
  by rewrite <- run_eta.
Qed.

Lemma resolveToken_prints_nothing env w : printed (events (resolveToken env w)) = [].
Proof.
  unfold resolveToken. rewrite bind_run. cbn [get_world outcome events final fst snd].
  case_bool_decide; [|done].
  rewrite bind_run. cbn [emit outcome events final fst snd]. unfold after_events.
  by repeat case_match.
Qed.

Lemma printed_app a b : printed (a ++ b) = printed a ++ printed b.
Proof. apply omap_app. Qed.

Lemma printed_rows items :
  printed (map (fun it => EvPrint (list_row it)) items) = map list_row items.
Proof. induction items as [|it rest IH]; [done|]. cbn. by f_equal. Qed.

(** X29: for a listing that is not empty and whose fields are ASCII and
    fit their columns, [runList] returns after it has written the header and
    one row for each build, in order, every line as wide as the header. *)
Theorem list_lines_are_as_wide_as_the_header (env : Env) (fl : Flags) (d : N)
    (items : list BuildListItem) (w : World)
    (Hserver : strings_TrimSpace (serverURL fl) <> "")
    (Hclient : buildapiclient_New env (serverURL fl) = None)
    (Hsome : items <> [])
    (Hfit : Forall fits items) :
  outcome (runList env fl (d, Ok items) w) = Ret tt
  /\ printed (events (runList env fl (d, Ok items) w)) = list_header :: map list_row items
  /\ Forall (fun line => String.length line = String.length list_header)
            (printed (events (runList env fl (d, Ok items) w))).
Proof.
  rewrite runList_listing by done. cbn [snd fst].
  destruct items as [|it rest]; [done|]. cbn [length Nat.eqb].
  rewrite bind_run. cbn [print emit outcome events final fst snd].
  rewrite print_rows_run. unfold after_events. cbn [outcome events final fst snd].
  rewrite !printed_app, resolveToken_prints_nothing.
  cbn [app printed omap]. fold (printed (map (fun it => EvPrint (list_row it)) rest)).
  rewrite printed_rows. split_and!; [done..|].
  constructor; [done|]. apply Forall_cons in Hfit as [Hit Hrest].
  constructor; [by apply list_row_length|].
  apply Forall_map. eapply Forall_impl; [exact Hrest|]. intros it'. apply list_row_length.
Qed.

Lemma list_lines_are_as_wide_as_the_header_witness :
  outcome (runList radio_env sample_flags (120%N, Ok sample_items) w0) = Ret tt
  /\ printed (events (runList radio_env sample_flags (120%N, Ok sample_items) w0))
     = list_header :: map list_row sample_items
  /\ Forall (fun line => String.length line = String.length list_header)
            (printed (events (runList radio_env sample_flags (120%N, Ok sample_items) w0))).
Proof.
  apply (list_lines_are_as_wide_as_the_header radio_env sample_flags 120%N sample_items w0).
  - vm_compute. discriminate.
  - reflexivity.
  - discriminate.
  - repeat constructor.
Defined.

(** ** Fields that do not fit *)

Lemma skip_length n s : (String.length (skip n s) <= String.length s)%nat.
Proof.
  revert s. induction n as [|n IH]; intros [|c s]; cbn; try lia.
  specialize (IH s). lia.
Qed.

Lemma count_runes_le fuel s : (count_runes fuel s <= String.length s)%nat.
Proof.
  revert s. induction fuel as [|fuel IH]; intros [|c s]; cbn; try lia.
  specialize (IH (skip (rune_width c s - 1) s)).
  pose proof (skip_length (rune_width c s - 1) s). lia.
Qed.

Lemma fmt_left_length_ge width s : (width <= String.length (fmt_left width s))%nat.
Proof.
  unfold fmt_left. rewrite append_length, spaces_length.
  pose proof (count_runes_le (String.length s) s). unfold utf8_RuneCountInString. lia.
Qed.

Lemma Contains_append_l a b sub :
  strings_Contains b sub = true -> strings_Contains (a +:+ b) sub = true.
Proof.
  intros H. induction a as [|c a IH]; [done|].
  rewrite append_cons. by apply Contains_cons.
Qed.

Lemma Contains_append_r a b sub :
  strings_Contains a sub = true -> strings_Contains (a +:+ b) sub = true.
Proof.
  intros H. apply Contains_split in H as (x & y & ->).
  rewrite !append_assoc. apply Contains_middle.
Qed.

Lemma fmt_left_Contains width s : strings_Contains (fmt_left width s) s = true.
Proof. apply HasPrefix_Contains, fmt_left_keeps. Qed.

(** X30: a row of the listing is never narrower than the header and
    holds every field in full, the name at its start: a field wider than its
    column pushes the rest of the row to the right. *)
Theorem list_row_is_never_cut (it : BuildListItem) :
  (String.length list_header <= String.length (list_row it))%nat
  /\ strings_HasPrefix (list_row it) (item_Name it) = true
  /\ strings_Contains (list_row it) (item_Phase it) = true
  /\ strings_Contains (list_row it) (item_Message it) = true
  /\ strings_Contains (list_row it) (item_CreatedAt it) = true.
Proof.
  unfold list_row, list_line. split_and!.
  - rewrite !append_length.
    pose proof (fmt_left_length_ge 20 (item_Name it)).
    pose proof (fmt_left_length_ge 12 (item_Phase it)).
    pose proof (fmt_left_length_ge 20 (item_Message it)).
    pose proof (fmt_left_length_ge 20 (item_CreatedAt it)).
    pose proof (fmt_left_length_ge 20 "").
    change (String.length list_header) with 97%nat.
    change (String.length " ") with 1%nat. change (String.length nl) with 1%nat. lia.
  - unfold fmt_left at 1. rewrite !append_assoc. apply HasPrefix_append.
  - do 2 apply Contains_append_l. apply Contains_append_r, fmt_left_Contains.
  - do 4 apply Contains_append_l. apply Contains_append_r, fmt_left_Contains.
  - do 6 apply Contains_append_l. apply Contains_append_r, fmt_left_Contains.
Qed.
